(** * Infisical MCP server: JSON-RPC dispatch, tool validation and
      result translation, in both transport variants

    The development embeds the two programs of [src/flowmcp-server.ts]:
    the HTTP variant (class [FlowMCPHttpServer], module [Http] below) and
    the stdio variant (the [ListToolsRequestSchema] and
    [CallToolRequestSchema] handlers, module [Stdio] below).

    Modelling conventions.
    - JavaScript values are the inductive type [value]; objects are
      association lists of their own string-keyed properties in insertion
      order (first binding wins on lookup).  Numbers are restricted to
      integers, the program performs no arithmetic on them.
    - The Infisical SDK is external: every SDK operation is an event
      [call], answered by a [remote] transition on an abstract [World].
      A handler runs in a state-and-exception monad whose state records
      the world and the log of the calls performed so far.
    - [zod] (v3, default error map) is external as well; the fragment the
      program uses is modelled in module [z].
    - [console.log] and [console.error] are not modelled, nor are the
      Express, WebSocket and stdio transports around the handlers. *)

From Stdlib Require Import String Ascii List ZArith Bool Lia.
From Stdlib Require Import DecimalString.
Import ListNotations.
Local Open Scope list_scope.
Local Open Scope string_scope.
Set Warnings "-register-all".

(** ** JavaScript values *)

Inductive value : Type :=
| VUndef
| VNull
| VBool (b : bool)
| VNum (n : Z)
| VStr (s : string)
| VArr (items : list value)
| VObj (fields : list (string * value)).

(** Own-property lookup in an object literal. *)
Fixpoint field (k : string) (fs : list (string * value)) : option value :=
  match fs with
  | [] => None
  | (k', v) :: rest => if String.eqb k k' then Some v else field k rest
  end.

(** [o.k] where [o] is known to be an object: a missing property reads as
    [undefined]. *)
Definition get (k : string) (fs : list (string * value)) : value :=
  match field k fs with Some v => v | None => VUndef end.

(** [o[k] = v] on an object: the first binding is overwritten in place, a
    new key is appended. *)
Fixpoint set_field (k : string) (v : value) (fs : list (string * value))
  : list (string * value) :=
  match fs with
  | [] => [(k, v)]
  | (k', v') :: rest =>
      if String.eqb k k' then (k', v) :: rest else (k', v') :: set_field k v rest
  end.

(** Truthiness ([if (x)], [x && y]). *)
Definition truthy (v : value) : bool :=
  match v with
  | VUndef | VNull => false
  | VBool b => b
  | VNum n => negb (Z.eqb n 0)
  | VStr s => negb (String.eqb s "")
  | VArr _ | VObj _ => true
  end.

(** [x ?? d]. *)
Definition nullish_or (v d : value) : value :=
  match v with VUndef | VNull => d | _ => v end.

Definition Z_to_string (n : Z) : string := NilZero.string_of_int (Z.to_int n).

(** ToString, as applied by template literals.  Array elements that are
    [null] or [undefined] print as the empty string.  The function is
    total, whereas JavaScript's conversion is not: an object that has a
    member [toString] of its own (never callable in a value read from
    JSON) makes the conversion throw a TypeError, and a number from 1e21
    on prints with an exponent.  The text computed here is the one
    JavaScript produces on the values that [primitive] accepts; where
    the HTTP variant prints a method or a tool name that the caller
    chooses freely, the statements are made for those values. *)
Fixpoint to_string (v : value) : string :=
  match v with
  | VUndef => "undefined"
  | VNull => "null"
  | VBool true => "true"
  | VBool false => "false"
  | VNum n => Z_to_string n
  | VStr s => s
  | VArr items =>
      String.concat ","
        ((fix each (l : list value) : list string :=
            match l with
            | [] => []
            | x :: r =>
                match x with
                | VUndef | VNull => "" | _ => to_string x
                end :: each r
            end) items)
  | VObj _ => "[object Object]"
  end.

(** The primitive values: [undefined], [null], a boolean, a string, or an
    integer that a double holds exactly (at most 2^53 - 1 in absolute
    value). *)
Definition primitive (v : value) : bool :=
  match v with
  | VUndef | VNull | VBool _ | VStr _ => true
  | VNum n => (Z.abs n <=? 9007199254740991)%Z
  | VArr _ | VObj _ => false
  end.

(** *** JSON.stringify *)

Definition hex_digit (n : nat) : ascii :=
  match n with
  | 0 => "0" | 1 => "1" | 2 => "2" | 3 => "3" | 4 => "4" | 5 => "5"
  | 6 => "6" | 7 => "7" | 8 => "8" | 9 => "9" | 10 => "a" | 11 => "b"
  | 12 => "c" | 13 => "d" | 14 => "e" | _ => "f"
  end%char.

Definition dquote : string := String (ascii_of_nat 34) "".
Definition newline : string := String (ascii_of_nat 10) "".
Definition backslash (c : ascii) : string := String (ascii_of_nat 92) (String c "").

(** QuoteJSONString, one code unit at a time. *)
Definition escape_char (c : ascii) : string :=
  let n := nat_of_ascii c in
  if Nat.eqb n 34 then backslash c
  else if Nat.eqb n 92 then backslash c
  else if Nat.eqb n 8 then backslash "b"
  else if Nat.eqb n 12 then backslash "f"
  else if Nat.eqb n 10 then backslash "n"
  else if Nat.eqb n 13 then backslash "r"
  else if Nat.eqb n 9 then backslash "t"
  else if Nat.ltb n 32 then
    backslash "u" ++ "00"
      ++ String (hex_digit (n / 16)) (String (hex_digit (n mod 16)) "")
  else String c "".

Fixpoint escape (s : string) : string :=
  match s with
  | EmptyString => ""
  | String c r => escape_char c ++ escape r
  end.

Definition quote (s : string) : string := dquote ++ escape s ++ dquote.

(** SerializeJSONProperty with a fixed [gap] (the indent unit) at the
    current indentation [ind].  [None] is the JavaScript [undefined]
    result: such a member is left out of an object and printed as [null]
    in an array. *)
Fixpoint serialize (gap ind : string) (v : value) : option string :=
  match v with
  | VUndef => None
  | VNull => Some "null"
  | VBool true => Some "true"
  | VBool false => Some "false"
  | VNum n => Some (Z_to_string n)
  | VStr s => Some (quote s)
  | VArr items =>
      let stepback := ind in
      let ind := ind ++ gap in
      let partial :=
        (fix each (l : list value) : list string :=
           match l with
           | [] => []
           | x :: r =>
               match serialize gap ind x with
               | Some t => t
               | None => "null"
               end :: each r
           end) items in
      Some
        match partial with
        | [] => "[]"
        | _ =>
            if String.eqb gap "" then "[" ++ String.concat "," partial ++ "]"
            else
              "[" ++ newline ++ ind
                ++ String.concat ("," ++ newline ++ ind) partial
                ++ newline ++ stepback ++ "]"
        end
  | VObj fields =>
      let stepback := ind in
      let ind := ind ++ gap in
      let partial :=
        (fix each (l : list (string * value)) : list string :=
           match l with
           | [] => []
           | (k, x) :: r =>
               match serialize gap ind x with
               | Some t =>
                   (quote k ++ ":" ++ (if String.eqb gap "" then "" else " ") ++ t)
                     :: each r
               | None => each r
               end
           end) fields in
      Some
        match partial with
        | [] => "{}"
        | _ =>
            if String.eqb gap "" then "{" ++ String.concat "," partial ++ "}"
            else
              "{" ++ newline ++ ind
                ++ String.concat ("," ++ newline ++ ind) partial
                ++ newline ++ stepback ++ "}"
        end
  end.

Fixpoint spaces (n : nat) : string :=
  match n with O => "" | S m => " " ++ spaces m end.

(** [JSON.stringify(v)] and [JSON.stringify(v, null, n)] as interpolated
    into a template literal: an [undefined] result prints as such. *)
Definition JSON_stringify (v : value) (indent : nat) : string :=
  match serialize (spaces indent) "" v with
  | Some t => t
  | None => "undefined"
  end.

(** [needle] occurs in [hay] ([String.prototype.includes]). *)
Definition includes (hay needle : string) : Prop :=
  exists pre post, hay = pre ++ needle ++ post.

(** ** Exceptions *)

(** A path segment of a zod issue: a property name or an array index. *)
Inductive pathseg : Type :=
| Key (k : string)
| Index (i : nat).

(** A zod issue: the issue data (with its [code]) in the order zod writes
    it, then [path] and [message]. *)
Record ZodIssue : Type := {
  data : list (string * value);
  path : list pathseg;
  message : string
}.

Definition seg_value (p : pathseg) : value :=
  match p with Key k => VStr k | Index i => VNum (Z.of_nat i) end.

Definition issue_value (i : ZodIssue) : value :=
  VObj (data i ++ [("path", VArr (map seg_value (path i))); ("message", VStr (message i))])%list.

(** What the program can throw: a [z.ZodError] with its issues, an
    [Error] with its message (also what a rejected SDK promise carries),
    or the engine's [TypeError] on a bad property access or call. *)
Inductive exn : Type :=
| ZodError (errors : list ZodIssue)
| Error (msg : string)
| TypeError (msg : string).

(** [error.message]; for a [ZodError] it is the issue list printed with an
    indent of two. *)
Definition exn_message (e : exn) : string :=
  match e with
  | ZodError errors => JSON_stringify (VArr (map issue_value errors)) 2
  | Error msg => msg
  | TypeError msg => msg
  end.

(** [err instanceof z.ZodError]. *)
Definition is_ZodError (e : exn) : bool :=
  match e with ZodError _ => true | _ => false end.

(** ** The fragment of zod the program uses *)

Module z.

Inductive schema : Type :=
| ZodString
| ZodBoolean
| ZodNumber
| ZodEnum (values : list string)
| ZodArray (element : schema)
| ZodOptional (inner : schema)
| ZodDefault (inner : schema) (defaultValue : value).

(** [getParsedType] on the values that occur here. *)
Definition parsedType (v : value) : string :=
  match v with
  | VUndef => "undefined"
  | VNull => "null"
  | VBool _ => "boolean"
  | VNum _ => "number"
  | VStr _ => "string"
  | VArr _ => "array"
  | VObj _ => "object"
  end.

(** The default error map on [invalid_type]. *)
Definition invalid_type_message (expected : string) (v : value) : string :=
  match v with
  | VUndef => "Required"
  | _ => "Expected " ++ expected ++ ", received " ++ parsedType v
  end.

Definition invalid_type (expected : string) (v : value) (p : list pathseg)
  : ZodIssue :=
  {| data := [("code", VStr "invalid_type"); ("expected", VStr expected);
              ("received", VStr (parsedType v))];
     path := p;
     message := invalid_type_message expected v |}.

(** [util.joinValues]. *)
Definition joinValues (vals : list string) : string :=
  String.concat " | " (map (fun v => "'" ++ v ++ "'") vals).

Definition enum_invalid_type (vals : list string) (v : value) (p : list pathseg)
  : ZodIssue :=
  {| data := [("expected", VStr (joinValues vals));
              ("received", VStr (parsedType v));
              ("code", VStr "invalid_type")];
     path := p;
     message := invalid_type_message (joinValues vals) v |}.

Definition invalid_enum_value (vals : list string) (s : string) (p : list pathseg)
  : ZodIssue :=
  {| data := [("received", VStr s); ("code", VStr "invalid_enum_value");
              ("options", VArr (map VStr vals))];
     path := p;
     message := "Invalid enum value. Expected " ++ joinValues vals
                  ++ ", received '" ++ s ++ "'" |}.

Definition mem (s : string) (l : list string) : bool :=
  existsb (String.eqb s) l.

(** [schema._parse] at path [p]: the issues raised, or the output. *)
Fixpoint _parse (t : schema) (p : list pathseg) (v : value)
  : list ZodIssue + value :=
  match t with
  | ZodString =>
      match v with VStr _ => inr v | _ => inl [invalid_type "string" v p] end
  | ZodBoolean =>
      match v with VBool _ => inr v | _ => inl [invalid_type "boolean" v p] end
  | ZodNumber =>
      match v with VNum _ => inr v | _ => inl [invalid_type "number" v p] end
  | ZodEnum vals =>
      match v with
      | VStr s =>
          if mem s vals then inr v else inl [invalid_enum_value vals s p]
      | _ => inl [enum_invalid_type vals v p]
      end
  | ZodArray element =>
      match v with
      | VArr items =>
          let results :=
            (fix each (i : nat) (l : list value)
               : list ZodIssue * list value :=
               match l with
               | [] => ([], [])
               | x :: r =>
                   let (errs, out) := each (S i) r in
                   match _parse element (p ++ [Index i])%list x with
                   | inl errs0 => ((errs0 ++ errs)%list, out)
                   | inr y => (errs, y :: out)
                   end
               end) O items in
          match fst results with
          | [] => inr (VArr (snd results))
          | errs => inl errs
          end
      | _ => inl [invalid_type "array" v p]
      end
  | ZodOptional inner =>
      match v with VUndef => inr VUndef | _ => _parse inner p v end
  | ZodDefault inner d =>
      match v with VUndef => _parse inner p d | _ => _parse inner p v end
  end.

(** A [z.object] in its default (strip) mode is its shape. *)
Definition object : Type := list (string * schema).

(** The loop of [ZodObject._parse] over the shape keys followed by
    [mergeObjectSync]: every key is parsed, the issues accumulate in
    shape order, and a key is written to the output when its parsed
    value is defined or the key is present in the input. *)
Fixpoint parse_shape (shape : object) (input : list (string * value))
  : list ZodIssue * list (string * value) :=
  match shape with
  | [] => ([], [])
  | (k, t) :: rest =>
      let (errs, out) := parse_shape rest input in
      match _parse t [Key k] (get k input) with
      | inl errs0 => ((errs0 ++ errs)%list, out)
      | inr v =>
          (errs,
           match v, field k input with
           | VUndef, None => out
           | _, _ => (k, v) :: out
           end)
      end
  end.

(** [schema.parse(args)]: the validated object, or a thrown
    [ZodError]. *)
Definition parse (shape : object) (args : value) : exn + list (string * value) :=
  match args with
  | VObj input =>
      match parse_shape shape input with
      | ([], out) => inr out
      | (errs, _) => inl (ZodError errs)
      end
  | _ => inl (ZodError [invalid_type "object" args []])
  end.

End z.

(** ** Property access and array methods on arbitrary values *)

(** [v.k] for a property name [k] that no primitive wrapper or array
    prototype defines (all the names read by the program are such): it
    throws on [undefined] and [null], reads the own property of an object
    and is [undefined] on anything else.  The wording of a [TypeError]
    message is the engine's; nothing below relies on it. *)
Definition prop (k : string) (v : value) : exn + value :=
  match v with
  | VUndef | VNull =>
      inl (TypeError ("Cannot read properties of " ++ to_string v
                        ++ " (reading '" ++ k ++ "')"))
  | VObj fs => inr (get k fs)
  | _ => inr VUndef
  end.

(** [v?.k]. *)
Definition optional_prop (k : string) (v : value) : value :=
  match v with
  | VObj fs => get k fs
  | _ => VUndef
  end.

(** [a === b].  Primitives compare by value; an object or an array is
    identical only to itself, and the values compared by the program
    come from different sources, so such a comparison is false. *)
Definition strict_equals (a b : value) : bool :=
  match a, b with
  | VUndef, VUndef => true
  | VNull, VNull => true
  | VBool x, VBool y => Bool.eqb x y
  | VNum x, VNum y => Z.eqb x y
  | VStr x, VStr y => String.eqb x y
  | _, _ => false
  end.

Notation "a === s" := (strict_equals a (VStr s)) (at level 70, no associativity).

(** [{...v}] for the values the program spreads: an object gives its own
    properties, a falsy primitive gives none. *)
Definition spread (v : value) : list (string * value) :=
  match v with VObj fs => fs | _ => [] end.

Fixpoint map_throwing (f : value -> exn + value) (l : list value)
  : exn + list value :=
  match l with
  | [] => inr []
  | x :: r =>
      match f x with
      | inl e => inl e
      | inr y =>
          match map_throwing f r with
          | inl e => inl e
          | inr ys => inr (y :: ys)
          end
      end
  end.

Definition not_a_function (method : string) (v : value) : exn :=
  match v with
  | VUndef | VNull =>
      TypeError ("Cannot read properties of " ++ to_string v
                   ++ " (reading '" ++ method ++ "')")
  | _ => TypeError (method ++ " is not a function")
  end.

(** [v.map(f)]. *)
Definition Array_map (f : value -> exn + value) (v : value) : exn + value :=
  match v with
  | VArr items =>
      match map_throwing f items with
      | inl e => inl e
      | inr ys => inr (VArr ys)
      end
  | _ => inl (not_a_function "map" v)
  end.

Fixpoint find_throwing (f : value -> exn + bool) (l : list value)
  : exn + value :=
  match l with
  | [] => inr VUndef
  | x :: r =>
      match f x with
      | inl e => inl e
      | inr true => inr x
      | inr false => find_throwing f r
      end
  end.

(** [v.find(f)]. *)
Definition Array_find (f : value -> exn + bool) (v : value) : exn + value :=
  match v with
  | VArr items => find_throwing f items
  | _ => inl (not_a_function "find" v)
  end.

(** [v.join(sep)]. *)
Definition Array_join (sep : string) (v : value) : exn + string :=
  match v with
  | VArr items =>
      inr (String.concat sep
             (map (fun x => match x with
                            | VUndef | VNull => ""
                            | _ => to_string x
                            end) items))
  | _ => inl (not_a_function "join" v)
  end.

(** ** The Infisical SDK as a remote collaborator *)

(** The SDK operations the two programs invoke, with their arguments. *)
Inductive call : Type :=
| universalAuth_login (credentials : value)
| secrets_createSecret (secretName options : value)
| secrets_deleteSecret (secretName options : value)
| secrets_updateSecret (secretName options : value)
| secrets_listSecrets (options : value)
| secrets_getSecret (options : value)
| projects_create (options : value)
| projects_listProjects
| projects_inviteMembers (options : value)
| environments_create (options : value)
| folders_create (options : value).

Definition is_login (c : call) : bool :=
  match c with universalAuth_login _ => true | _ => false end.

(** [process.env] after [getEnvironmentVariables]. *)
Record Env : Type := {
  INFISICAL_UNIVERSAL_AUTH_CLIENT_ID : string;
  INFISICAL_UNIVERSAL_AUTH_CLIENT_SECRET : string;
  INFISICAL_HOST_URL : string
}.

Definition credentials (env : Env) : value :=
  VObj [("clientId", VStr (INFISICAL_UNIVERSAL_AUTH_CLIENT_ID env));
        ("clientSecret", VStr (INFISICAL_UNIVERSAL_AUTH_CLIENT_SECRET env))].

(** The remote API seen through the SDK: an awaited call resolves with a
    value ([inr]) or rejects with an [Error] of the given message ([inl]),
    and moves the world on. *)
Definition Remote (World : Type) : Type :=
  call -> World -> (string + value) * World.

(** The part of a server state that the remote calls touch: the world
    and the log of the calls performed, oldest first. *)
Record Net (World : Type) : Type := {
  world : World;
  log : list call
}.
Arguments world {World} _.
Arguments log {World} _.

Definition request {World} (remote : Remote World) (c : call) (n : Net World)
  : (exn + value) * Net World :=
  let (r, w) := remote c (world n) in
  (match r with inl msg => inl (Error msg) | inr v => inr v end,
   {| world := w; log := (log n ++ [c])%list |}).

(** ** State and exception monad *)

Definition M (S A : Type) : Type := S -> (exn + A) * S.

Definition ret {S A} (a : A) : M S A := fun s => (inr a, s).

Definition throw {S A} (e : exn) : M S A := fun s => (inl e, s).

Definition bind {S A B} (m : M S A) (k : A -> M S B) : M S B :=
  fun s =>
    match m s with
    | (inl e, s') => (inl e, s')
    | (inr a, s') => k a s'
    end.

(** [try { m } catch (e) { h e }]. *)
Definition try_catch {S A} (m : M S A) (h : exn -> M S A) : M S A :=
  fun s =>
    match m s with
    | (inl e, s') => h e s'
    | (inr a, s') => (inr a, s')
    end.

(** A computation that touches no state. *)
Definition pure {S A} (r : exn + A) : M S A := fun s => (r, s).

Notation "x <- m ;; k" := (bind m (fun x => k))
  (at level 100, m at next level, right associativity).
Notation "m ;;; k" := (bind m (fun _ => k))
  (at level 100, right associativity).

(** The MCP tool result with its single text block. *)
Definition text_content (t : string) : value :=
  VObj [("content", VArr [VObj [("type", VStr "text"); ("text", VStr t)]])].

(** ** JSON Schema documents of the tool catalogs *)

Record Property : Type := {
  ptype : string;
  pitems : option string;
  pdescription : string;
  pdefault : option string
}.

Record InputSchema : Type := {
  properties : list (string * Property);
  required : list string
}.

Record Tool : Type := {
  name : string;
  description : string;
  inputSchema : InputSchema
}.

Definition P (ty desc : string) : Property :=
  {| ptype := ty; pitems := None; pdescription := desc; pdefault := None |}.

Definition Pdefault (ty desc d : string) : Property :=
  {| ptype := ty; pitems := None; pdescription := desc; pdefault := Some d |}.

Definition Pitems (ty it desc : string) : Property :=
  {| ptype := ty; pitems := Some it; pdescription := desc; pdefault := None |}.

(** The object literals the records stand for, keys in source order. *)
Definition Property_value (p : Property) : value :=
  VObj ([("type", VStr (ptype p))]
          ++ match pitems p with
             | Some it => [("items", VObj [("type", VStr it)])]
             | None => []
             end
          ++ [("description", VStr (pdescription p))]
          ++ match pdefault p with
             | Some d => [("default", VStr d)]
             | None => []
             end)%list.

Definition InputSchema_value (i : InputSchema) : value :=
  VObj [("type", VStr "object");
        ("properties",
         VObj (map (fun kp => (fst kp, Property_value (snd kp))) (properties i)));
        ("required", VArr (map VStr (required i)))].

Definition Tool_value (t : Tool) : value :=
  VObj [("name", VStr (name t)); ("description", VStr (description t));
        ("inputSchema", InputSchema_value (inputSchema t))].

(** ** The HTTP variant ([FlowMCPHttpServer]) *)

Module Http.

(** *** Schemas *)

Definition createSecretSchema : z.object :=
  [("projectId", z.ZodString);
   ("environmentSlug", z.ZodString);
   ("secretName", z.ZodString);
   ("secretValue", z.ZodOptional z.ZodString);
   ("secretPath", z.ZodDefault z.ZodString (VStr "/"))].

Definition deleteSecretSchema : z.object :=
  [("projectId", z.ZodString);
   ("environmentSlug", z.ZodString);
   ("secretName", z.ZodString);
   ("secretPath", z.ZodDefault z.ZodString (VStr "/"))].

Definition updateSecretSchema : z.object :=
  [("projectId", z.ZodString);
   ("environmentSlug", z.ZodString);
   ("secretName", z.ZodString);
   ("secretValue", z.ZodOptional z.ZodString);
   ("secretPath", z.ZodDefault z.ZodString (VStr "/"))].

Definition listSecretsSchema : z.object :=
  [("projectId", z.ZodString);
   ("environmentSlug", z.ZodString);
   ("secretPath", z.ZodDefault z.ZodString (VStr "/"));
   ("expandSecretReferences", z.ZodOptional z.ZodBoolean);
   ("includeImports", z.ZodOptional z.ZodBoolean)].

Definition getSecretSchema : z.object :=
  [("projectId", z.ZodString);
   ("environmentSlug", z.ZodString);
   ("secretName", z.ZodString);
   ("secretPath", z.ZodDefault z.ZodString (VStr "/"));
   ("expandSecretReferences", z.ZodOptional z.ZodBoolean);
   ("includeImports", z.ZodOptional z.ZodBoolean)].

Definition createProjectSchema : z.object :=
  [("projectName", z.ZodString);
   ("workspaceSlug", z.ZodOptional z.ZodString);
   ("organizationId", z.ZodOptional z.ZodString)].

Definition listProjectsSchema : z.object := [].

Definition createEnvironmentSchema : z.object :=
  [("projectId", z.ZodString);
   ("environmentName", z.ZodString);
   ("environmentSlug", z.ZodOptional z.ZodString)].

Definition createFolderSchema : z.object :=
  [("projectId", z.ZodString);
   ("environmentSlug", z.ZodString);
   ("secretPath", z.ZodDefault z.ZodString (VStr "/"))].

Definition inviteMembersToProjectSchema : z.object :=
  [("projectId", z.ZodString);
   ("emails", z.ZodArray z.ZodString);
   ("roles", z.ZodOptional (z.ZodArray z.ZodString))].

(** *** Tool definitions *)

Definition tools : list Tool :=
  [ {| name := "create-secret";
       description := "Create a new secret in Infisical";
       inputSchema :=
         {| properties :=
              [("projectId", P "string" "The ID of the project to create the secret in (required)");
               ("environmentSlug", P "string" "The slug of the environment to create the secret in (required)");
               ("secretName", P "string" "The name of the secret to create (required)");
               ("secretValue", P "string" "The value of the secret to create");
               ("secretPath", Pdefault "string" "The path of the secret to create (Defaults to /)" "/")];
            required := ["projectId"; "environmentSlug"; "secretName"] |} |};
    {| name := "delete-secret";
       description := "Delete a secret in Infisical";
       inputSchema :=
         {| properties :=
              [("projectId", P "string" "The ID of the project to delete the secret from (required)");
               ("environmentSlug", P "string" "The slug of the environment to delete the secret from (required)");
               ("secretName", P "string" "The name of the secret to delete (required)");
               ("secretPath", Pdefault "string" "The path of the secret to delete (Defaults to /)" "/")];
            required := ["projectId"; "environmentSlug"; "secretName"] |} |};
    {| name := "list-secrets";
       description := "List all secrets in an environment";
       inputSchema :=
         {| properties :=
              [("projectId", P "string" "The ID of the project to list secrets from (required)");
               ("environmentSlug", P "string" "The slug of the environment to list secrets from (required)");
               ("secretPath", Pdefault "string" "The path to list secrets from (Defaults to /)" "/");
               ("expandSecretReferences", P "boolean" "Whether to expand secret references");
               ("includeImports", P "boolean" "Whether to include imported secrets")];
            required := ["projectId"; "environmentSlug"] |} |};
    {| name := "get-secret";
       description := "Get a specific secret";
       inputSchema :=
         {| properties :=
              [("projectId", P "string" "The ID of the project to get the secret from (required)");
               ("environmentSlug", P "string" "The slug of the environment to get the secret from (required)");
               ("secretName", P "string" "The name of the secret to get (required)");
               ("secretPath", Pdefault "string" "The path of the secret to get (Defaults to /)" "/");
               ("expandSecretReferences", P "boolean" "Whether to expand secret references");
               ("includeImports", P "boolean" "Whether to include imported secrets")];
            required := ["projectId"; "environmentSlug"; "secretName"] |} |};
    {| name := "create-project";
       description := "Create a new project";
       inputSchema :=
         {| properties :=
              [("projectName", P "string" "The name of the project to create (required)");
               ("workspaceSlug", P "string" "The workspace slug for the project");
               ("organizationId", P "string" "The organization ID for the project")];
            required := ["projectName"] |} |};
    {| name := "list-projects";
       description := "List all accessible projects";
       inputSchema := {| properties := []; required := [] |} |};
    {| name := "create-environment";
       description := "Create a new environment";
       inputSchema :=
         {| properties :=
              [("projectId", P "string" "The ID of the project to create the environment in (required)");
               ("environmentName", P "string" "The name of the environment to create (required)");
               ("environmentSlug", P "string" "The slug of the environment to create")];
            required := ["projectId"; "environmentName"] |} |};
    {| name := "create-folder";
       description := "Create a folder";
       inputSchema :=
         {| properties :=
              [("projectId", P "string" "The ID of the project to create the folder in (required)");
               ("environmentSlug", P "string" "The slug of the environment to create the folder in (required)");
               ("secretPath", Pdefault "string" "The path where to create the folder (Defaults to /)" "/")];
            required := ["projectId"; "environmentSlug"] |} |};
    {| name := "invite-members-to-project";
       description := "Invite members to a project";
       inputSchema :=
         {| properties :=
              [("projectId", P "string" "The ID of the project to invite members to (required)");
               ("emails", Pitems "array" "string" "Array of email addresses to invite (required)");
               ("roles", Pitems "array" "string" "Array of roles to assign to the invited members")];
            required := ["projectId"; "emails"] |} |} ].

(** The tool-name list of the [GET /mcp] discovery document. *)
Definition discovery_tools : list string :=
  ["create-secret"; "delete-secret"; "list-secrets";
   "get-secret"; "create-project"; "list-projects";
   "create-environment"; "create-folder"; "invite-members-to-project"].

(** An Express response: the status and the JSON body, if any. *)
Record Response : Type := {
  status : nat;
  body : option value
}.

Definition json (code : nat) (v : value) : Response :=
  {| status := code; body := Some v |}.

Section Server.

Context {World : Type}.
Variable remote : Remote World.
Variable env : Env.
(** [packageJson.version]. *)
Variable version : string.

(** The only state a request can touch is the remote one. *)
Definition State : Type := Net World.

Definition await (c : call) : M State value := request remote c.

(** [createAuthenticatedSdk]: a fresh SDK instance logged in, or
    the login failure rethrown. *)
Definition createAuthenticatedSdk : M State unit :=
  try_catch
    (await (universalAuth_login (credentials env)) ;;; ret tt)
    (fun error => throw (Error ("Authentication failed: " ++ exn_message error))).

Definition handleToolCall (params : value) : M State value :=
  name <- pure (prop "name" params) ;;
  args <- pure (prop "arguments" params) ;;
  if name === "create-secret" then
    createData <- pure (z.parse createSecretSchema args) ;;
    createAuthenticatedSdk ;;;
    response <- await (secrets_createSecret (get "secretName" createData)
      (VObj [("environment", get "environmentSlug" createData);
             ("projectId", get "projectId" createData);
             ("secretPath", get "secretPath" createData);
             ("secretValue", nullish_or (get "secretValue" createData) (VStr ""))])) ;;
    secret <- pure (prop "secret" response) ;;
    ret (text_content ("Secret created successfully: " ++ JSON_stringify secret 3))
  else if name === "delete-secret" then
    deleteData <- pure (z.parse deleteSecretSchema args) ;;
    createAuthenticatedSdk ;;;
    deletedSecret <- await (secrets_deleteSecret (get "secretName" deleteData)
      (VObj [("environment", get "environmentSlug" deleteData);
             ("projectId", get "projectId" deleteData);
             ("secretPath", get "secretPath" deleteData)])) ;;
    secretKey <- pure (prop "secretKey" deletedSecret) ;;
    ret (text_content ("Secret deleted successfully: " ++ to_string secretKey))
  else if name === "update-secret" then
    updateData <- pure (z.parse updateSecretSchema args) ;;
    createAuthenticatedSdk ;;;
    updatedSecret <- await (secrets_updateSecret (get "secretName" updateData)
      (VObj [("environment", get "environmentSlug" updateData);
             ("projectId", get "projectId" updateData);
             ("secretPath", get "secretPath" updateData);
             ("secretValue", nullish_or (get "secretValue" updateData) (VStr ""))])) ;;
    ret (text_content ("Secret updated successfully: " ++ JSON_stringify updatedSecret 3))
  else if name === "list-secrets" then
    listData <- pure (z.parse listSecretsSchema args) ;;
    createAuthenticatedSdk ;;;
    secrets <- await (secrets_listSecrets
      (VObj [("environment", get "environmentSlug" listData);
             ("projectId", get "projectId" listData);
             ("secretPath", get "secretPath" listData);
             ("expandSecretReferences", get "expandSecretReferences" listData);
             ("includeImports", get "includeImports" listData)])) ;;
    ret (text_content ("Secrets: " ++ JSON_stringify secrets 3))
  else if name === "get-secret" then
    getData <- pure (z.parse getSecretSchema args) ;;
    createAuthenticatedSdk ;;;
    allSecrets <- await (secrets_listSecrets
      (VObj [("environment", get "environmentSlug" getData);
             ("projectId", get "projectId" getData);
             ("secretPath", get "secretPath" getData);
             ("expandSecretReferences", get "expandSecretReferences" getData);
             ("includeImports", get "includeImports" getData)])) ;;
    listed <- pure (prop "secrets" allSecrets) ;;
    foundSecret <- pure (Array_find
      (fun s =>
         match prop "secretKey" s with
         | inl e => inl e
         | inr k => inr (strict_equals k (get "secretName" getData))
         end) listed) ;;
    if truthy foundSecret then
      ret (text_content ("Secret: " ++ JSON_stringify foundSecret 3))
    else
      ret (text_content ("Secret not found: " ++ to_string (get "secretName" getData)))
  else if name === "create-project" then
    projectData <- pure (z.parse createProjectSchema args) ;;
    createAuthenticatedSdk ;;;
    project <- await (projects_create
      (VObj [("name", get "projectName" projectData);
             ("workspaceSlug", get "workspaceSlug" projectData);
             ("organizationId", get "organizationId" projectData)])) ;;
    ret (text_content ("Project created successfully: " ++ JSON_stringify project 3))
  else if name === "list-projects" then
    createAuthenticatedSdk ;;;
    projects <- await projects_listProjects ;;
    ret (text_content ("Projects: " ++ JSON_stringify projects 3))
  else if name === "create-environment" then
    envData <- pure (z.parse createEnvironmentSchema args) ;;
    createAuthenticatedSdk ;;;
    environment <- await (environments_create
      (VObj [("projectId", get "projectId" envData);
             ("name", get "environmentName" envData);
             ("slug", get "environmentSlug" envData)])) ;;
    ret (text_content ("Environment created successfully: " ++ JSON_stringify environment 3))
  else if name === "create-folder" then
    folderData <- pure (z.parse createFolderSchema args) ;;
    ret (text_content
           ("Folder creation request for path: " ++ to_string (get "secretPath" folderData)
              ++ ". Note: This functionality may need to be implemented based on your Infisical API version."))
  else if name === "invite-members-to-project" then
    inviteData <- pure (z.parse inviteMembersToProjectSchema args) ;;
    emails <- pure (Array_join ", " (get "emails" inviteData)) ;;
    ret (text_content
           ("Member invitation request for project: " ++ to_string (get "projectId" inviteData)
              ++ ", emails: " ++ emails
              ++ ". Note: This functionality may need to be implemented based on your Infisical API version."))
  else
    throw (Error ("Unknown tool: " ++ to_string name)).

(** [handleJsonRpcRequest] on [req.body]; the whole body of the
    function sits in its [try], so a response always comes out. *)
Definition handleJsonRpcRequest (reqbody : value) : State -> Response * State :=
  fun s =>
    let attempt : M State Response :=
      method <- pure (prop "method" reqbody) ;;
      params <- pure (prop "params" reqbody) ;;
      id <- pure (prop "id" reqbody) ;;
      if method === "initialize" then
        ret (json 200
          (VObj [("jsonrpc", VStr "2.0");
                 ("result",
                  VObj [("protocolVersion", VStr "2024-11-05");
                        ("capabilities",
                         VObj [("tools", VObj []); ("logging", VObj []);
                               ("streaming", VBool true)]);
                        ("serverInfo",
                         VObj [("name", VStr "Infisical FlowMCP HTTP Server");
                               ("version", VStr version)])]);
                 ("id", id)]))
      else if method === "notifications/initialized" then
        ret {| status := 204; body := None |}
      else if method === "tools/list" then
        ret (json 200
          (VObj [("jsonrpc", VStr "2.0");
                 ("result", VObj [("tools", VArr (map Tool_value tools))]);
                 ("id", id)]))
      else if method === "tools/call" then
        result <- handleToolCall params ;;
        ret (json 200
          (VObj [("jsonrpc", VStr "2.0"); ("result", result); ("id", id)]))
      else
        ret (json 404
          (VObj [("jsonrpc", VStr "2.0");
                 ("error",
                  VObj [("code", VNum (-32601));
                        ("message", VStr ("Method not found: " ++ to_string method))]);
                 ("id", id)]))
    in
    match attempt s with
    | (inr response, s') => (response, s')
    | (inl error, s') =>
        (json 500
           (VObj [("jsonrpc", VStr "2.0");
                  ("error",
                   VObj [("code", VNum (-32603));
                         ("message", VStr ("Internal error: " ++ exn_message error))]);
                  ("id", optional_prop "id" reqbody)]),
         s')
    end.

End Server.

End Http.

(** ** The stdio variant *)

Module Stdio.

Module AvailableTools.
Definition CreateSecret := "create-secret".
Definition DeleteSecret := "delete-secret".
Definition UpdateSecret := "update-secret".
Definition ListSecrets := "list-secrets".
Definition GetSecret := "get-secret".
Definition CreateProject := "create-project".
Definition CreateEnvironment := "create-environment".
Definition CreateFolder := "create-folder".
Definition InviteMembersToProject := "invite-members-to-project".
End AvailableTools.

(** A schema of this variant pairs the zod object with the capability
    document advertised for it. *)
Record ToolSchema : Type := {
  zod : z.object;
  capability : Tool
}.

Definition createSecretSchema : ToolSchema :=
  {| zod :=
       [("projectId", z.ZodString);
        ("environmentSlug", z.ZodString);
        ("secretName", z.ZodString);
        ("secretValue", z.ZodOptional z.ZodString);
        ("secretPath", z.ZodDefault z.ZodString (VStr "/"))];
     capability :=
       {| name := AvailableTools.CreateSecret;
          description := "Create a new secret in Infisical";
          inputSchema :=
            {| properties :=
                 [("projectId", P "string" "The ID of the project to create the secret in (required)");
                  ("environmentSlug", P "string" "The slug of the environment to create the secret in (required)");
                  ("secretName", P "string" "The name of the secret to create (required)");
                  ("secretValue", P "string" "The value of the secret to create");
                  ("secretPath", P "string" "The path of the secret to create (Defaults to /)")];
               required := ["projectId"; "environmentSlug"; "secretName"] |} |} |}.

Definition deleteSecretSchema : ToolSchema :=
  {| zod :=
       [("projectId", z.ZodString);
        ("environmentSlug", z.ZodString);
        ("secretPath", z.ZodDefault z.ZodString (VStr "/"));
        ("secretName", z.ZodString)];
     capability :=
       {| name := AvailableTools.DeleteSecret;
          description := "Delete a secret in Infisical";
          inputSchema :=
            {| properties :=
                 [("projectId", P "string" "The ID of the project to delete the secret from (required)");
                  ("environmentSlug", P "string" "The slug of the environment to delete the secret from (required)");
                  ("secretPath", P "string" "The path of the secret to delete (Defaults to /)");
                  ("secretName", P "string" "The name of the secret to delete (required)")];
               required := ["projectId"; "environmentSlug"; "secretName"] |} |} |}.

Definition updateSecretSchema : ToolSchema :=
  {| zod :=
       [("projectId", z.ZodString);
        ("environmentSlug", z.ZodString);
        ("secretName", z.ZodString);
        ("newSecretName", z.ZodOptional z.ZodString);
        ("secretValue", z.ZodOptional z.ZodString);
        ("secretPath", z.ZodDefault z.ZodString (VStr "/"))];
     capability :=
       {| name := AvailableTools.UpdateSecret;
          description := "Update a secret in Infisical";
          inputSchema :=
            {| properties :=
                 [("projectId", P "string" "The ID of the project to update the secret in (required)");
                  ("environmentSlug", P "string" "The slug of the environment to update the secret in (required)");
                  ("secretName", P "string" "The current name of the secret to update (required)");
                  ("newSecretName", P "string" "The new name of the secret to update (Optional)");
                  ("secretValue", P "string" "The new value of the secret to update (Optional)");
                  ("secretPath", P "string" "The path of the secret to update (Defaults to /)")];
               required := ["projectId"; "environmentSlug"; "secretName"] |} |} |}.

Definition listSecretsSchema : ToolSchema :=
  {| zod :=
       [("projectId", z.ZodString);
        ("environmentSlug", z.ZodString);
        ("secretPath", z.ZodDefault z.ZodString (VStr "/"));
        ("expandSecretReferences", z.ZodDefault z.ZodBoolean (VBool true));
        ("includeImports", z.ZodDefault z.ZodBoolean (VBool true))];
     capability :=
       {| name := AvailableTools.ListSecrets;
          description := "List all secrets in a given Infisical project and environment";
          inputSchema :=
            {| properties :=
                 [("projectId", P "string" "The ID of the project to list the secrets from (required)");
                  ("environmentSlug", P "string" "The slug of the environment to list the secrets from (required)");
                  ("secretPath", P "string" "The path of the secrets to list (Defaults to /)");
                  ("expandSecretReferences", P "boolean" "Whether to expand secret references (Defaults to true)");
                  ("includeImports", P "boolean" "Whether to include secret imports (Defaults to true)")];
               required := ["projectId"; "environmentSlug"] |} |} |}.

Definition getSecretSchema : ToolSchema :=
  {| zod :=
       [("secretName", z.ZodString);
        ("projectId", z.ZodString);
        ("environmentSlug", z.ZodString);
        ("secretPath", z.ZodDefault z.ZodString (VStr "/"));
        ("expandSecretReferences", z.ZodDefault z.ZodBoolean (VBool true));
        ("includeImports", z.ZodDefault z.ZodBoolean (VBool true))];
     capability :=
       {| name := AvailableTools.GetSecret;
          description := "Get a secret in Infisical";
          inputSchema :=
            {| properties :=
                 [("secretName", P "string" "The name of the secret to get (required)");
                  ("projectId", P "string" "The ID of the project to get the secret from (required)");
                  ("environmentSlug", P "string" "The slug of the environment to get the secret from (required)");
                  ("secretPath", P "string" "The path of the secret to get (Defaults to /)");
                  ("expandSecretReferences", P "boolean" "Whether to expand secret references (Defaults to true)");
                  ("includeImports", P "boolean"
                     "Whether to include secret imports. If the secret isn't found, it will try to find a secret in a secret import that matches the requested secret name (Defaults to true)")];
               required := ["projectId"; "environmentSlug"; "secretName"] |} |} |}.

Definition createProjectSchema : ToolSchema :=
  {| zod :=
       [("projectName", z.ZodString);
        ("type", z.ZodEnum ["secret-manager"; "cert-manager"; "kms"; "ssh"]);
        ("description", z.ZodOptional z.ZodString);
        ("slug", z.ZodOptional z.ZodString);
        ("projectTemplate", z.ZodOptional z.ZodString);
        ("kmsKeyId", z.ZodOptional z.ZodString)];
     capability :=
       {| name := AvailableTools.CreateProject;
          description := "Create a new project in Infisical";
          inputSchema :=
            {| properties :=
                 [("projectName", P "string" "The name of the project to create (required)");
                  ("type", P "string"
                     "The type of project to create (required). If not specified by the user, ask them to confirm the type they want to use.");
                  ("description", P "string" "The description of the project to create");
                  ("slug", P "string" "The slug of the project to create");
                  ("projectTemplate", P "string" "The template of the project to create");
                  ("kmsKeyId", P "string" "The ID of the KMS key to use for the project. Defaults to Infisical's default KMS")];
               required := ["projectName"; "type"] |} |} |}.

Definition createEnvironmentSchema : ToolSchema :=
  {| zod :=
       [("projectId", z.ZodString);
        ("name", z.ZodString);
        ("slug", z.ZodString);
        ("position", z.ZodOptional z.ZodNumber)];
     capability :=
       {| name := AvailableTools.CreateEnvironment;
          description := "Create a new environment in Infisical";
          inputSchema :=
            {| properties :=
                 [("projectId", P "string" "The ID of the project to create the environment in (required)");
                  ("name", P "string" "The name of the environment to create (required)");
                  ("slug", P "string" "The slug of the environment to create (required)");
                  ("position", P "number" "The position of the environment to create")];
               required := ["projectId"; "name"; "slug"] |} |} |}.

Definition createFolderSchema : ToolSchema :=
  {| zod :=
       [("description", z.ZodOptional z.ZodString);
        ("environment", z.ZodString);
        ("name", z.ZodString);
        ("path", z.ZodDefault z.ZodString (VStr "/"));
        ("projectId", z.ZodString)];
     capability :=
       {| name := AvailableTools.CreateFolder;
          description := "Create a new folder in Infisical";
          inputSchema :=
            {| properties :=
                 [("description", P "string" "The description of the folder to create");
                  ("environment", P "string" "The environment to create the folder in (required)");
                  ("name", P "string" "The name of the folder to create (required)");
                  ("path", P "string" "The path to create the folder in (Defaults to /)");
                  ("projectId", P "string" "The project to create the folder in (required)")];
               required := ["name"; "projectId"; "environment"] |} |} |}.

Definition inviteMembersToProjectSchema : ToolSchema :=
  {| zod :=
       [("projectId", z.ZodString);
        ("emails", z.ZodOptional (z.ZodArray z.ZodString));
        ("usernames", z.ZodOptional (z.ZodArray z.ZodString));
        ("roleSlugs", z.ZodOptional (z.ZodArray z.ZodString))];
     capability :=
       {| name := AvailableTools.InviteMembersToProject;
          description := "Invite members to a project in Infisical";
          inputSchema :=
            {| properties :=
                 [("projectId", P "string" "The ID of the project to invite members to (required)");
                  ("emails", P "array" "The emails of the members to invite. Either usernames or emails must be provided.");
                  ("usernames", P "array" "The usernames of the members to invite. Either usernames or emails must be provided.");
                  ("roleSlugs", P "array"
                     "The role slugs of the members to invite. If not provided, the default role 'member' will be used. Ask the user to confirm the role they want to use if not explicitly specified.")];
               required := ["projectId"] |} |} |}.

(** The array literal of the [ListToolsRequestSchema] handler. *)
Definition tools : list Tool :=
  [capability createSecretSchema;
   capability deleteSecretSchema;
   capability updateSecretSchema;
   capability listSecretsSchema;
   capability getSecretSchema;
   capability createProjectSchema;
   capability createEnvironmentSchema;
   capability createFolderSchema;
   capability inviteMembersToProjectSchema].

(** The process state: the module-level flag and the remote side. *)
Record State (World : Type) : Type := {
  isAuthenticated : bool;
  net : Net World
}.
Arguments isAuthenticated {World} _.
Arguments net {World} _.

(** An incoming request, as routed by [server.setRequestHandler]. *)
Inductive Request : Type :=
| ListTools
| CallTool (params : value).

Section Server.

Context {World : Type}.
Variable remote : Remote World.
Variable env : Env.

Definition await (c : call) : M (State World) value :=
  fun s =>
    let (r, n) := request remote c (net s) in
    (r, {| isAuthenticated := isAuthenticated s; net := n |}).

Definition handleAuthentication : M (State World) unit :=
  fun s =>
    if isAuthenticated s then (inr tt, s)
    else
      (await (universalAuth_login (credentials env)) ;;;
       fun s' => (inr tt, {| isAuthenticated := true; net := net s' |})) s.

(** The arrow [secret => ({ secretKey, secretValue })]. *)
Definition key_and_value (secret : value) : exn + value :=
  match prop "secretKey" secret with
  | inl e => inl e
  | inr k =>
      match prop "secretValue" secret with
      | inl e => inl e
      | inr v => inr (VObj [("secretKey", k); ("secretValue", v)])
      end
  end.

(** The arrow applied to each import. *)
Definition parse_import (imp : value) : exn + value :=
  match prop "secrets" imp with
  | inl e => inl e
  | inr ss =>
      match Array_map key_and_value ss with
      | inl e => inl e
      | inr parsedImportSecrets =>
          inr (VObj (set_field "secrets" parsedImportSecrets (spread imp)))
      end
  end.

(** The object literal [response] of the list-secrets branch. *)
Definition list_response (secrets : value) : exn + value :=
  match prop "secrets" secrets with
  | inl e => inl e
  | inr ss =>
      match Array_map key_and_value ss with
      | inl e => inl e
      | inr projected =>
          match prop "imports" secrets with
          | inl e => inl e
          | inr imports =>
              if truthy imports then
                match Array_map parse_import imports with
                | inl e => inl e
                | inr parsed =>
                    inr (VObj [("secrets", projected); ("imports", parsed)])
                end
              else inr (VObj (("secrets", projected) :: spread imports))
          end
      end
  end.

Definition dispatch (params : value) : M (State World) value :=
  handleAuthentication ;;;
  name <- pure (prop "name" params) ;;
  args <- pure (prop "arguments" params) ;;
  if name === AvailableTools.CreateSecret then
    data <- pure (z.parse (zod createSecretSchema) args) ;;
    response <- await (secrets_createSecret (get "secretName" data)
      (VObj [("environment", get "environmentSlug" data);
             ("projectId", get "projectId" data);
             ("secretPath", get "secretPath" data);
             ("secretValue", nullish_or (get "secretValue" data) (VStr ""))])) ;;
    secret <- pure (prop "secret" response) ;;
    ret (text_content ("Secret created successfully: " ++ JSON_stringify secret 3))
  else if name === AvailableTools.DeleteSecret then
    data <- pure (z.parse (zod deleteSecretSchema) args) ;;
    response <- await (secrets_deleteSecret (get "secretName" data)
      (VObj [("environment", get "environmentSlug" data);
             ("projectId", get "projectId" data);
             ("secretPath", get "secretPath" data)])) ;;
    secret <- pure (prop "secret" response) ;;
    secretKey <- pure (prop "secretKey" secret) ;;
    ret (text_content ("Secret deleted successfully: " ++ to_string secretKey))
  else if name === AvailableTools.UpdateSecret then
    data <- pure (z.parse (zod updateSecretSchema) args) ;;
    response <- await (secrets_updateSecret (get "secretName" data)
      (VObj [("environment", get "environmentSlug" data);
             ("projectId", get "projectId" data);
             ("secretPath", get "secretPath" data);
             ("secretValue", nullish_or (get "secretValue" data) (VStr ""))])) ;;
    secret <- pure (prop "secret" response) ;;
    ret (text_content
           ("Secret updated successfully. Updated secret: " ++ JSON_stringify secret 3))
  else if name === AvailableTools.ListSecrets then
    data <- pure (z.parse (zod listSecretsSchema) args) ;;
    secrets <- await (secrets_listSecrets
      (VObj [("environment", get "environmentSlug" data);
             ("projectId", get "projectId" data);
             ("secretPath", get "secretPath" data);
             ("expandSecretReferences", get "expandSecretReferences" data);
             ("includeImports", get "includeImports" data)])) ;;
    response <- pure (list_response secrets) ;;
    ret (text_content (JSON_stringify response 0))
  else if name === AvailableTools.GetSecret then
    data <- pure (z.parse (zod getSecretSchema) args) ;;
    secret <- await (secrets_getSecret
      (VObj [("environment", get "environmentSlug" data);
             ("projectId", get "projectId" data);
             ("secretName", get "secretName" data);
             ("secretPath", get "secretPath" data);
             ("expandSecretReferences", get "expandSecretReferences" data);
             ("includeImports", get "includeImports" data)])) ;;
    ret (text_content ("Secret retrieved successfully: " ++ JSON_stringify secret 3))
  else if name === AvailableTools.CreateProject then
    data <- pure (z.parse (zod createProjectSchema) args) ;;
    project <- await (projects_create
      (VObj [("projectName", get "projectName" data);
             ("projectDescription", get "description" data);
             ("kmsKeyId", get "kmsKeyId" data);
             ("slug", get "slug" data);
             ("template", get "projectTemplate" data);
             ("type", get "type" data)])) ;;
    ret (text_content ("Project created successfully: " ++ JSON_stringify project 3))
  else if name === AvailableTools.CreateEnvironment then
    data <- pure (z.parse (zod createEnvironmentSchema) args) ;;
    environment <- await (environments_create
      (VObj [("projectId", get "projectId" data);
             ("name", get "name" data);
             ("slug", get "slug" data);
             ("position", get "position" data)])) ;;
    ret (text_content ("Environment created successfully: " ++ JSON_stringify environment 3))
  else if name === AvailableTools.CreateFolder then
    data <- pure (z.parse (zod createFolderSchema) args) ;;
    folder <- await (folders_create
      (VObj [("description", get "description" data);
             ("environment", get "environment" data);
             ("name", get "name" data);
             ("path", get "path" data);
             ("projectId", get "projectId" data)])) ;;
    ret (text_content ("Folder created successfully: " ++ JSON_stringify folder 3))
  else if name === AvailableTools.InviteMembersToProject then
    data <- pure (z.parse (zod inviteMembersToProjectSchema) args) ;;
    projectMemberships <- await (projects_inviteMembers
      (VObj [("projectId", get "projectId" data);
             ("emails", get "emails" data);
             ("usernames", get "usernames" data);
             ("roleSlugs", get "roleSlugs" data)])) ;;
    ret (text_content
           ("Members successfully invited to project: "
              ++ JSON_stringify projectMemberships 3))
  else
    throw (Error ("Unrecognized tool name: " ++ to_string name)).

(** [e.path.join(".")]. *)
Definition path_string (p : list pathseg) : string :=
  String.concat "." (map (fun x => to_string (seg_value x)) p).

Definition invalid_arguments (errors : list ZodIssue) : string :=
  "Invalid arguments: "
    ++ String.concat ", "
         (map (fun e => path_string (path e) ++ ": " ++ message e) errors).

(** The [CallToolRequestSchema] handler: the body above inside its
    [try], and the [catch] that rewrites a [ZodError]. *)
Definition callTool (params : value) : M (State World) value :=
  try_catch (dispatch params)
    (fun err =>
       match err with
       | ZodError errors => throw (Error (invalid_arguments errors))
       | _ => throw err
       end).

(** The [ListToolsRequestSchema] handler. *)
Definition listTools : M (State World) value :=
  ret (VObj [("tools", VArr (map Tool_value tools))]).

Definition handle (r : Request) : M (State World) value :=
  match r with
  | ListTools => listTools
  | CallTool params => callTool params
  end.

(** The process serving a sequence of requests one after the other;
    a failed request does not stop the next. *)
Fixpoint serve (rs : list Request) (s : State World)
  : list (exn + value) * State World :=
  match rs with
  | [] => ([], s)
  | r :: rest =>
      let (o, s') := handle r s in
      let (os, s'') := serve rest s' in
      (o :: os, s'')
  end.

(** The state at process start: [let isAuthenticated = false]. *)
Definition initial (w : World) : State World :=
  {| isAuthenticated := false; net := {| world := w; log := [] |} |}.

End Server.

End Stdio.

(** ** A concrete remote, for evaluating the handlers *)

Definition demo_env : Env :=
  {| INFISICAL_UNIVERSAL_AUTH_CLIENT_ID := "client-id";
     INFISICAL_UNIVERSAL_AUTH_CLIENT_SECRET := "client-secret";
     INFISICAL_HOST_URL := "https://app.infisical.com" |}.

(** A secret record as the remote API returns it, metadata included. *)
Definition demo_record : list (string * value) :=
  [("id", VStr "4f1c"); ("workspace", VStr "w-1"); ("environment", VStr "dev");
   ("version", VNum 3); ("type", VStr "shared");
   ("secretKey", VStr "API_KEY"); ("secretValue", VStr "s3cr3t")].

Definition demo_secret : value := VObj demo_record.

Definition demo_listing : value := VObj [("secrets", VArr [demo_secret])].

(** A listing that also carries one import. *)
Definition demo_import : list (string * value) :=
  [("secretPath", VStr "/shared"); ("environment", VStr "dev");
   ("folderId", VStr "f-9"); ("secrets", VArr [demo_secret])].

Definition demo_listing_with_import : value :=
  VObj [("secrets", VArr [demo_secret]); ("imports", VArr [VObj demo_import])].

(** A remote that accepts every call and keeps no state of its own. *)
Definition demo_remote : Remote unit :=
  fun c w =>
    (match c with
     | universalAuth_login _ => inr (VObj [("accessToken", VStr "t0ken")])
     | secrets_listSecrets _ => inr demo_listing
     | secrets_createSecret _ _
     | secrets_deleteSecret _ _
     | secrets_updateSecret _ _ => inr (VObj [("secret", demo_secret)])
     | secrets_getSecret _ => inr demo_secret
     | projects_create _ => inr (VObj [("id", VStr "p-1")])
     | projects_listProjects => inr (VArr [])
     | projects_inviteMembers _ => inr (VArr [])
     | environments_create _ => inr (VObj [("id", VStr "e-1")])
     | folders_create _ => inr (VObj [("id", VStr "f-1")])
     end, w).

(** A remote that rejects the credential exchange. *)
Definition locked_remote : Remote unit :=
  fun c w =>
    (match c with
     | universalAuth_login _ => inl "Unauthorized"
     | _ => inr VNull
     end, w).

(** A remote that resolves the credential exchange with a token and
    every other operation with the same [response]. *)
Definition uniform_remote (response : value) : Remote unit :=
  fun c w =>
    (if is_login c then inr (VObj [("accessToken", VStr "t0ken")])
     else inr response, w).

Definition http0 : Http.State (World := unit) := {| world := tt; log := [] |}.

(** A stdio process that has already authenticated. *)
Definition stdio_authenticated : Stdio.State unit :=
  {| Stdio.isAuthenticated := true;
     Stdio.net :=
       {| world := tt; log := [universalAuth_login (credentials demo_env)] |} |}.

Definition tool_call (tool : string) (args : value) : value :=
  VObj [("name", VStr tool); ("arguments", args)].

Definition rpc (id : option value) (method : string) (params : value) : value :=
  VObj ([("jsonrpc", VStr "2.0")]
          ++ match id with Some i => [("id", i)] | None => [] end
          ++ [("method", VStr method); ("params", params)])%list.

Definition scope : list (string * value) :=
  [("projectId", VStr "p-1"); ("environmentSlug", VStr "dev")].

Definition scope_args : value := VObj scope.

Definition secret_args (secretName : string) : list (string * value) :=
  (scope ++ [("secretName", VStr secretName)])%list.


(** * Vocabulary of the statements *)

(** The texts of the elements of an array and of the members of an
    object, as the serializer collects them. *)
Definition elements (gap ind : string) (l : list value) : list string :=
  map (fun x => match serialize gap ind x with Some t => t | None => "null" end) l.

Definition members (gap ind : string) : list (string * value) -> list string :=
  fix each (l : list (string * value)) : list string :=
    match l with
    | [] => []
    | (k, x) :: r =>
        match serialize gap ind x with
        | Some t =>
            (quote k ++ ":" ++ (if String.eqb gap "" then "" else " ") ++ t)
              :: each r
        | None => each r
        end
    end.

Definition wrap (opening closing gap ind : string) (partial : list string) : string :=
  match partial with
  | [] => opening ++ closing
  | _ =>
      if String.eqb gap "" then opening ++ String.concat "," partial ++ closing
      else
        opening ++ newline ++ (ind ++ gap)
          ++ String.concat ("," ++ newline ++ (ind ++ gap)) partial
          ++ newline ++ ind ++ closing
  end.

(** The schemas that do not accept [undefined]. *)
Definition demands (t : z.schema) : bool :=
  match t with
  | z.ZodOptional _ | z.ZodDefault _ _ => false
  | _ => true
  end.

(** Every [secretPath] entry of the shape is a string defaulting to the
    root path. *)
Definition secretPath_defaults (shape : z.object) : Prop :=
  forall t, In ("secretPath", t) shape -> t = z.ZodDefault z.ZodString (VStr "/").

(** A secret record reduced to its key and its value. *)
Definition key_value_only (record : list (string * value)) : value :=
  VObj [("secretKey", get "secretKey" record);
        ("secretValue", get "secretValue" record)].

(** An import, given with the records of its [secrets], with these
    records reduced and everything else kept. *)
Definition import_reduced
    (imp : list (string * value) * list (list (string * value))) : value :=
  VObj (set_field "secrets" (VArr (map key_value_only (snd imp))) (fst imp)).

(** The arguments of a call count as validated for a tool when the
    schema of the tool, if it has one, accepted them as [data]. *)
Definition validated (validator : string -> option z.object)
           (tool : string) (args : value) (data : list (string * value)) : Prop :=
  match validator tool with
  | Some shape => z.parse shape args = inr data
  | None => True
  end.

(** The schemas that hand their input back unchanged when they accept
    it: no default anywhere inside. *)
Fixpoint transparent (t : z.schema) : bool :=
  match t with
  | z.ZodDefault _ _ => false
  | z.ZodArray element => transparent element
  | z.ZodOptional inner => transparent inner
  | _ => true
  end.

(** An optional string argument: absent, or a string. *)
Definition optional_string (v : value) : bool :=
  match v with VUndef | VStr _ => true | _ => false end.

Definition is_root_default (t : z.schema) : bool :=
  match t with
  | z.ZodDefault z.ZodString (VStr d) => String.eqb d "/"
  | _ => false
  end.

(** The shape declares [secretPath] with the root path as its default. *)
Definition declares_root_default (shape : z.object) : bool :=
  existsb (fun kt => String.eqb (fst kt) "secretPath" && is_root_default (snd kt)) shape.

(** [input'] is [input], which has no [secretPath], with [secretPath] set
    to the root path. *)
Definition root_made_explicit (input input' : list (string * value)) : Prop :=
  field "secretPath" input = None
  /\ field "secretPath" input' = Some (VStr "/")
  /\ forall k, k <> "secretPath" -> field k input' = field k input.

(** The schema each [case] of the HTTP [switch] parses the arguments
    with; [list-projects] parses nothing. *)
Definition Http_validator (tool : string) : option z.object :=
  if String.eqb tool "create-secret" then Some Http.createSecretSchema
  else if String.eqb tool "delete-secret" then Some Http.deleteSecretSchema
  else if String.eqb tool "update-secret" then Some Http.updateSecretSchema
  else if String.eqb tool "list-secrets" then Some Http.listSecretsSchema
  else if String.eqb tool "get-secret" then Some Http.getSecretSchema
  else if String.eqb tool "create-project" then Some Http.createProjectSchema
  else if String.eqb tool "create-environment" then Some Http.createEnvironmentSchema
  else if String.eqb tool "create-folder" then Some Http.createFolderSchema
  else if String.eqb tool "invite-members-to-project"
       then Some Http.inviteMembersToProjectSchema
  else None.

(** The schema each branch of the stdio handler parses the arguments
    with. *)
Definition Stdio_validator (tool : string) : option z.object :=
  if String.eqb tool "create-secret" then Some (Stdio.zod Stdio.createSecretSchema)
  else if String.eqb tool "delete-secret" then Some (Stdio.zod Stdio.deleteSecretSchema)
  else if String.eqb tool "update-secret" then Some (Stdio.zod Stdio.updateSecretSchema)
  else if String.eqb tool "list-secrets" then Some (Stdio.zod Stdio.listSecretsSchema)
  else if String.eqb tool "get-secret" then Some (Stdio.zod Stdio.getSecretSchema)
  else if String.eqb tool "create-project" then Some (Stdio.zod Stdio.createProjectSchema)
  else if String.eqb tool "create-environment"
       then Some (Stdio.zod Stdio.createEnvironmentSchema)
  else if String.eqb tool "create-folder" then Some (Stdio.zod Stdio.createFolderSchema)
  else if String.eqb tool "invite-members-to-project"
       then Some (Stdio.zod Stdio.inviteMembersToProjectSchema)
  else None.

(** A computation that keeps the flag and performs no credential
    exchange. *)
Definition quiet {World A : Type} (m : M (Stdio.State World) A) : Prop :=
  forall s,
    Stdio.isAuthenticated (snd (m s)) = Stdio.isAuthenticated s
    /\ exists calls,
         log (Stdio.net (snd (m s))) = (log (Stdio.net s) ++ calls)%list
         /\ existsb is_login calls = false.

(** * Process start: the environment *)

(** [process.env]: the variables that are set, each with its string. *)
Definition ProcessEnv : Type := list (string * string).

Fixpoint getenv (k : string) (pe : ProcessEnv) : option string :=
  match pe with
  | [] => None
  | (k', v) :: rest => if String.eqb k k' then Some v else getenv k rest
  end.

(** The [ZodError] that [getEnvironmentVariables] throws is caught nowhere
    and ends the process; it is kept as the code and the variable of each
    of its issues, in the order zod raises them. *)
Inductive EnvIssue : Type :=
| env_required (variable : string)
| env_too_small (variable : string).

Definition env_issues {A : Type} (r : list EnvIssue + A) : list EnvIssue :=
  match r with inl errs => errs | inr _ => [] end.

(** [z.string()] on a variable. *)
Definition env_string (k : string) (pe : ProcessEnv) : list EnvIssue + string :=
  match getenv k pe with
  | None => inl [env_required k]
  | Some s => inr s
  end.

(** [z.string().default(d)] on a variable. *)
Definition env_string_default (k d : string) (pe : ProcessEnv)
  : list EnvIssue + string :=
  match getenv k pe with
  | None => inr d
  | Some s => inr s
  end.

(** [z.string().trim().min(1)] on a variable: the checks run in order,
    the first replaces the string by its trimmed form, the second
    compares its length with 1.  [trim] is [String.prototype.trim]. *)
Definition env_trim_min1 (trim : string -> string) (k : string) (pe : ProcessEnv)
  : list EnvIssue + string :=
  match getenv k pe with
  | None => inl [env_required k]
  | Some s =>
      let t := trim s in
      if Nat.ltb (String.length t) 1 then inl [env_too_small k] else inr t
  end.

(** The object schema over the three variables: every variable is
    parsed, the issues accumulate in the order of the keys. *)
Definition env_object (id secret host : list EnvIssue + string)
  : list EnvIssue + Env :=
  match id, secret, host with
  | inr i, inr s, inr h =>
      inr {| INFISICAL_UNIVERSAL_AUTH_CLIENT_ID := i;
             INFISICAL_UNIVERSAL_AUTH_CLIENT_SECRET := s;
             INFISICAL_HOST_URL := h |}
  | _, _, _ => inl (env_issues id ++ env_issues secret ++ env_issues host)%list
  end.

Module HttpStart.

(** [getEnvironmentVariables] of the HTTP variant. *)
Definition getEnvironmentVariables (trim : string -> string) (pe : ProcessEnv)
  : list EnvIssue + Env :=
  env_object
    (env_trim_min1 trim "INFISICAL_UNIVERSAL_AUTH_CLIENT_ID" pe)
    (env_trim_min1 trim "INFISICAL_UNIVERSAL_AUTH_CLIENT_SECRET" pe)
    (env_string "INFISICAL_HOST_URL" pe).

End HttpStart.

Module StdioStart.

(** [getEnvironmentVariables] of the stdio variant. *)
Definition getEnvironmentVariables (trim : string -> string) (pe : ProcessEnv)
  : list EnvIssue + Env :=
  env_object
    (env_trim_min1 trim "INFISICAL_UNIVERSAL_AUTH_CLIENT_ID" pe)
    (env_trim_min1 trim "INFISICAL_UNIVERSAL_AUTH_CLIENT_SECRET" pe)
    (env_string_default "INFISICAL_HOST_URL" "https://app.infisical.com" pe).

End StdioStart.

(** A trim that strips the space character only, for evaluating the
    start-up code on concrete environments. *)
Fixpoint drop_spaces (s : string) : string :=
  match s with
  | String c r => if Ascii.eqb c " " then drop_spaces r else s
  | EmptyString => EmptyString
  end.

Definition reverse (s : string) : string :=
  string_of_list_ascii (rev (list_ascii_of_string s)).

Definition space_trim (s : string) : string :=
  reverse (drop_spaces (reverse (drop_spaces s))).

Definition demo_process_env : ProcessEnv :=
  [("INFISICAL_UNIVERSAL_AUTH_CLIENT_ID", "  client-id ");
   ("INFISICAL_UNIVERSAL_AUTH_CLIENT_SECRET", "client-secret");
   ("PATH", "/usr/bin")].

(** A remote that resolves the credential exchange and rejects every
    operation with the same message. *)
Definition rejecting_remote (msg : string) : Remote unit :=
  fun c w =>
    (if is_login c then inr (VObj [("accessToken", VStr "t0ken")])
     else inl msg, w).

(** * Vocabulary of the further properties *)

(** The names that [handleToolCall] of the HTTP variant has a case for. *)
Definition Http_handled : list string :=
  (map name Http.tools ++ ["update-secret"])%list.

(** The names of the catalog of the stdio variant. *)
Definition Stdio_handled : list string := map name Stdio.tools.

(** The tools of the HTTP variant that go to the remote API. *)
Definition Http_remote_tools : list string :=
  ["create-secret"; "delete-secret"; "update-secret"; "list-secrets";
   "get-secret"; "create-project"; "list-projects"; "create-environment"].

(** The remote calls one HTTP tool call can perform: none, the
    credential exchange alone, or the exchange followed by one
    operation. *)
Definition Http_call_shape (login : call) (calls : list call) : Prop :=
  calls = []
  \/ calls = [login]
  \/ exists op, is_login op = false /\ calls = [login; op].

(** The well-formed replies of [handleJsonRpcRequest] to an envelope
    whose [id] is [id]. *)
Definition reply_for (id : value) (r : Http.Response) : Prop :=
  (Http.status r = 204 /\ Http.body r = None)
  \/ (exists result,
         Http.status r = 200
         /\ Http.body r
            = Some (VObj [("jsonrpc", VStr "2.0"); ("result", result); ("id", id)]))
  \/ (exists code msg,
         (Http.status r = 404 /\ code = (-32601)%Z
          \/ Http.status r = 500 /\ code = (-32603)%Z)
         /\ Http.body r
            = Some (VObj [("jsonrpc", VStr "2.0");
                          ("error", VObj [("code", VNum code); ("message", VStr msg)]);
                          ("id", id)])).

(** The log of a stdio process: credential exchanges first, then
    operations only; no operation while the flag is down. *)
Definition exchanges_then_operations {World : Type} (s : Stdio.State World) : Prop :=
  exists logins ops,
    log (Stdio.net s) = (logins ++ ops)%list
    /\ forallb is_login logins = true
    /\ existsb is_login ops = false
    /\ (Stdio.isAuthenticated s = false -> ops = []).

(** The schemas for a string argument: required, optional or defaulted. *)
Definition string_schema (t : z.schema) : bool :=
  match t with
  | z.ZodString
  | z.ZodOptional z.ZodString
  | z.ZodDefault z.ZodString _ => true
  | _ => false
  end.

Definition is_string (v : value) : bool :=
  match v with VStr _ => true | _ => false end.

(** A computation that leaves the state as it is. *)
Definition silent {S A : Type} (m : M S A) : Prop :=
  forall s, snd (m s) = s.

(** A computation of the HTTP variant that performs no remote call or
    one operation, and no credential exchange. *)
Definition Http_at_most_one_operation {World A : Type} (m : M (Net World) A) : Prop :=
  forall s,
    snd (m s) = s
    \/ exists op, is_login op = false /\ log (snd (m s)) = (log s ++ [op])%list.

(** A computation of the HTTP variant whose remote calls have the shape
    of one tool call. *)
Definition Http_shaped {World A : Type} (env : Env) (m : M (Net World) A) : Prop :=
  forall s,
    exists calls,
      log (snd (m s)) = (log s ++ calls)%list
      /\ Http_call_shape (universalAuth_login (credentials env)) calls.

(** A computation of the stdio variant that keeps the flag and performs
    no remote call or one operation, and no credential exchange. *)
Definition Stdio_at_most_one_operation {World A : Type}
           (m : M (Stdio.State World) A) : Prop :=
  forall s,
    snd (m s) = s
    \/ exists op,
         is_login op = false
         /\ Stdio.isAuthenticated (snd (m s)) = Stdio.isAuthenticated s
         /\ log (Stdio.net (snd (m s))) = (log (Stdio.net s) ++ [op])%list.

(** * Properties *)

(** ** Strings *)

Lemma append_assoc (a b c : string) : (a ++ b) ++ c = a ++ (b ++ c).
Proof. induction a as [|x a IH]; simpl; [reflexivity | now rewrite IH]. Qed.

Lemma append_nil_r (a : string) : a ++ "" = a.
Proof. induction a as [|x a IH]; simpl; [reflexivity | now rewrite IH]. Qed.

Lemma includes_refl (s : string) : includes s s.
Proof. exists "", "". simpl. now rewrite append_nil_r. Qed.

Lemma includes_app_l (a b x : string) : includes b x -> includes (a ++ b) x.
Proof.
  intros (pre & post & ->). exists (a ++ pre), post.
  now rewrite append_assoc.
Qed.

Lemma includes_app_r (a b x : string) : includes a x -> includes (a ++ b) x.
Proof.
  intros (pre & post & ->). exists pre, (post ++ b).
  now rewrite !append_assoc.
Qed.

Lemma includes_trans (a b c : string) :
  includes a b -> includes b c -> includes a c.
Proof.
  intros (p1 & q1 & ->) (p2 & q2 & ->).
  exists (p1 ++ p2), (q2 ++ q1). now rewrite !append_assoc.
Qed.

Lemma includes_concat (sep x : string) (l : list string) :
  In x l -> includes (String.concat sep l) x.
Proof.
  induction l as [|y l IH]; simpl; [tauto|].
  intros [-> | Hin].
  - destruct l; [apply includes_refl | apply includes_app_r, includes_refl].
  - destruct l as [|y' l']; [destruct Hin|].
    apply includes_app_l, includes_app_l, IH, Hin.
Qed.

(** ** The serializer on arrays and objects *)

Lemma serialize_array (gap ind : string) (items : list value) :
  serialize gap ind (VArr items)
  = Some (wrap "[" "]" gap ind (elements gap (ind ++ gap) items)).
Proof. reflexivity. Qed.

Lemma serialize_object (gap ind : string) (fs : list (string * value)) :
  serialize gap ind (VObj fs)
  = Some (wrap "{" "}" gap ind (members gap (ind ++ gap) fs)).
Proof. reflexivity. Qed.

Lemma wrap_includes (opening closing gap ind x : string) (partial : list string) :
  In x partial -> includes (wrap opening closing gap ind partial) x.
Proof.
  intros Hin. unfold wrap.
  destruct partial as [|y l] eqn:E; [destruct Hin|]. rewrite <- E in *.
  destruct (String.eqb gap "").
  - apply includes_app_l, includes_app_r, includes_concat, Hin.
  - do 3 apply includes_app_l. apply includes_app_r, includes_concat, Hin.
Qed.

Lemma members_app (gap ind : string) (a b : list (string * value)) :
  members gap ind (a ++ b)%list = (members gap ind a ++ members gap ind b)%list.
Proof.
  induction a as [|[k x] a IH]; simpl; [reflexivity|].
  destruct (serialize gap ind x); simpl; now rewrite IH.
Qed.

(** ** Validation *)

Lemma _parse_undefined (t : z.schema) (p : list pathseg) :
  demands t = true ->
  exists i, z._parse t p VUndef = inl [i] /\ path i = p /\ message i = "Required".
Proof.
  destruct t; simpl; try discriminate; intros _; eexists; repeat split.
Qed.

Lemma parse_unfold (shape : z.object) (input : list (string * value)) :
  z.parse shape (VObj input)
  = match fst (z.parse_shape shape input) with
    | [] => inr (snd (z.parse_shape shape input))
    | errs => inl (ZodError errs)
    end.
Proof.
  unfold z.parse. now destruct (z.parse_shape shape input) as [[|i errs] out].
Qed.

Lemma parse_shape_missing (shape : z.object) (input : list (string * value))
      (f : string) (t : z.schema) :
  In (f, t) shape -> demands t = true -> field f input = None ->
  exists i, In i (fst (z.parse_shape shape input))
            /\ path i = [Key f] /\ message i = "Required".
Proof.
  intros Hin Ht Hf. induction shape as [|[k t'] rest IH]; [destruct Hin|].
  simpl. destruct (z.parse_shape rest input) as [errs out] eqn:E.
  destruct Hin as [Heq | Hin].
  - inversion Heq; subst k t'. unfold get. rewrite Hf.
    destruct (_parse_undefined t [Key f] Ht) as (i & -> & Hp & Hm).
    exists i. simpl. auto.
  - destruct (IH Hin) as (i & Hi & Hp & Hm). simpl in Hi.
    exists i. split; [|auto].
    destruct (z._parse t' [Key k] (get k input)); simpl; [|assumption].
    apply in_or_app. now right.
Qed.

Lemma parse_missing (shape : z.object) (input : list (string * value))
      (f : string) (t : z.schema) :
  In (f, t) shape -> demands t = true -> field f input = None ->
  exists errors i,
    z.parse shape (VObj input) = inl (ZodError errors)
    /\ In i errors /\ path i = [Key f] /\ message i = "Required".
Proof.
  intros Hin Ht Hf.
  destruct (parse_shape_missing shape input f t Hin Ht Hf) as (i & Hi & Hp & Hm).
  rewrite parse_unfold.
  destruct (fst (z.parse_shape shape input)) as [|j errs] eqn:E; [destruct Hi|].
  exists (j :: errs), i. auto.
Qed.

(** Validation reads the input only at the keys of the shape. *)
Lemma parse_shape_ext (shape : z.object) (input input' : list (string * value)) :
  (forall k t, In (k, t) shape -> field k input' = field k input) ->
  z.parse_shape shape input' = z.parse_shape shape input.
Proof.
  induction shape as [|[k t] rest IH]; intros H; [reflexivity|].
  simpl. rewrite IH by (intros; eapply H; right; eassumption).
  unfold get. now rewrite (H k t) by now left.
Qed.

Lemma parse_shape_root (shape : z.object) (input input' : list (string * value)) :
  secretPath_defaults shape -> root_made_explicit input input' ->
  z.parse_shape shape input' = z.parse_shape shape input.
Proof.
  intros Hd (Hno & Hyes & Hsame).
  induction shape as [|[k t] rest IH]; [reflexivity|].
  simpl. rewrite IH by (intros t' Ht'; apply Hd; now right).
  destruct (string_dec k "secretPath") as [-> | Hk].
  - rewrite (Hd t) by now left.
    unfold get. rewrite Hno, Hyes. reflexivity.
  - unfold get. now rewrite (Hsame k Hk).
Qed.

Lemma parse_root (shape : z.object) (input input' : list (string * value)) :
  secretPath_defaults shape -> root_made_explicit input input' ->
  z.parse shape (VObj input') = z.parse shape (VObj input).
Proof.
  intros Hd Hr. unfold z.parse. now rewrite (parse_shape_root shape input input' Hd Hr).
Qed.

Lemma _parse_nonempty (t : z.schema) (p : list pathseg) (v : value) :
  z._parse t p v <> inl [].
Proof.
  revert p v. induction t; intros p v; simpl; try (destruct v; discriminate).
  - destruct v; try discriminate. destruct (z.mem s values); discriminate.
  - destruct v; try discriminate.
    match goal with
    | |- match fst ?r with _ => _ end <> _ => destruct (fst r); discriminate
    end.
  - destruct v; try discriminate; apply IHt.
  - destruct v; apply IHt.
Qed.

Lemma field_parse_shape_none (shape : z.object) (input : list (string * value))
      (k : string) :
  ~ In k (map fst shape) -> field k (snd (z.parse_shape shape input)) = None.
Proof.
  induction shape as [|[k2 t2] rest IH]; simpl; intros Hnotin; [reflexivity|].
  destruct (z.parse_shape rest input) as [e2 o2]. simpl in IH.
  assert (Hk2 : k <> k2) by (intros ->; tauto).
  assert (IH' : field k o2 = None) by (apply IH; tauto).
  destruct (z._parse t2 [Key k2] (get k2 input)) as [|v]; simpl; auto.
  destruct v, (field k2 input); simpl; auto;
    destruct (String.eqb_spec k k2); congruence.
Qed.


(** What a successful validation says about a key of the shape. *)
Lemma parse_shape_get (shape : z.object) (input : list (string * value))
      (k : string) (t : z.schema) :
  NoDup (map fst shape) -> In (k, t) shape ->
  fst (z.parse_shape shape input) = [] ->
  z._parse t [Key k] (get k input) = inr (get k (snd (z.parse_shape shape input))).
Proof.
  induction shape as [|[k' t'] rest IH]; intros Hnd Hin Hok; [destruct Hin|].
  simpl in Hnd. inversion Hnd as [|? ? Hnotin Hnd']; subst.
  pose proof (field_parse_shape_none rest input k') as Hfresh.
  simpl in Hok |- *.
  destruct (z.parse_shape rest input) as [errs out] eqn:E.
  simpl in IH, Hfresh.
  destruct (z._parse t' [Key k'] (get k' input)) as [errs0 | v] eqn:Q.
  - exfalso. simpl in Hok. apply app_eq_nil in Hok. destruct Hok as [-> _].
    exact (_parse_nonempty _ _ _ Q).
  - simpl in Hok. subst errs. simpl.
    destruct Hin as [Heq | Hin].
    + inversion Heq; subst k' t'. rewrite Q. f_equal.
      unfold get.
      destruct v; simpl; rewrite ?String.eqb_refl; try reflexivity.
      destruct (field k input); simpl; rewrite ?String.eqb_refl; try reflexivity.
      now rewrite (Hfresh Hnotin).
    + assert (Hne : k <> k').
      { intros ->. apply Hnotin. change k' with (fst (k', t)). now apply in_map. }
      rewrite (IH Hnd' Hin eq_refl).
      destruct v, (field k' input); simpl; try reflexivity;
        unfold get; simpl; destruct (String.eqb_spec k k'); congruence.
Qed.

Lemma parse_get (shape : z.object) (input out : list (string * value))
      (k : string) (t : z.schema) :
  NoDup (map fst shape) -> In (k, t) shape ->
  z.parse shape (VObj input) = inr out ->
  z._parse t [Key k] (get k input) = inr (get k out).
Proof.
  intros Hnd Hin. rewrite parse_unfold.
  destruct (fst (z.parse_shape shape input)) eqn:E; [|discriminate].
  intros [= <-]. now apply parse_shape_get.
Qed.

(** A validated key of string type holds the very string passed in. *)
Lemma parse_get_string (shape : z.object) (input out : list (string * value))
      (k : string) :
  NoDup (map fst shape) -> In (k, z.ZodString) shape ->
  z.parse shape (VObj input) = inr out ->
  exists s, get k input = VStr s /\ get k out = VStr s.
Proof.
  intros Hnd Hin Hp. pose proof (parse_get _ _ _ _ _ Hnd Hin Hp) as H.
  simpl in H. destruct (get k input); try discriminate.
  inversion H. eauto.
Qed.

(** ** Error messages name the offending key *)

Lemma issue_text_names (gap ind f : string) (i : ZodIssue) :
  path i = [Key f] ->
  exists t, serialize gap ind (issue_value i) = Some t /\ includes t (quote f).
Proof.
  intros Hp. unfold issue_value. rewrite serialize_object.
  eexists; split; [reflexivity|].
  apply includes_trans with
    (b := quote "path" ++ ":" ++ (if String.eqb gap "" then "" else " ")
            ++ wrap "[" "]" gap (ind ++ gap) [quote f]).
  - apply wrap_includes. rewrite members_app. apply in_or_app. right.
    rewrite Hp. unfold members. rewrite serialize_array. simpl elements.
    left. reflexivity.
  - do 3 apply includes_app_l. apply wrap_includes. now left.
Qed.

Lemma ZodError_message_names (errors : list ZodIssue) (i : ZodIssue) (f : string) :
  In i errors -> path i = [Key f] ->
  includes (exn_message (ZodError errors)) (quote f).
Proof.
  intros Hin Hp. unfold exn_message, JSON_stringify.
  rewrite serialize_array.
  destruct (issue_text_names (spaces 2) ("" ++ spaces 2) f i Hp) as (t & Ht & Hf).
  eapply includes_trans; [|exact Hf].
  apply wrap_includes. unfold elements. rewrite map_map.
  apply in_map_iff. exists i. split; [|assumption]. now rewrite Ht.
Qed.

Lemma invalid_arguments_names (errors : list ZodIssue) (i : ZodIssue) (f : string) :
  In i errors -> path i = [Key f] ->
  includes (Stdio.invalid_arguments errors) f.
Proof.
  intros Hin Hp. unfold Stdio.invalid_arguments.
  apply includes_app_l.
  eapply includes_trans.
  - apply includes_concat. apply in_map_iff. exists i. split; [reflexivity | exact Hin].
  - apply includes_app_r. rewrite Hp. simpl. apply includes_refl.
Qed.

(** A key made of letters only is quoted as it is. *)
Lemma includes_quote (t f : string) :
  escape f = f -> includes t (quote f) -> includes t f.
Proof.
  intros He H. eapply includes_trans; [exact H|].
  unfold quote. rewrite He. apply includes_app_l, includes_app_r, includes_refl.
Qed.

(** ** Which schema a tool call is validated against *)

Arguments z.parse : simpl never.
Arguments JSON_stringify : simpl never.
Arguments exn_message : simpl never.
Arguments get : simpl never.
Arguments nullish_or : simpl never.
Arguments to_string : simpl never.
Arguments credentials : simpl never.
Arguments z.mem : simpl never.
Arguments text_content : simpl never.
Arguments String.append : simpl never.

(** Running a handler of the HTTP variant symbolically. *)
Ltac http_steps :=
  unfold Http.handleToolCall, Http.createAuthenticatedSdk, Http.await,
    try_catch, bind, pure, ret, throw, request.

Ltac nodup_keys := simpl; repeat constructor; simpl; intuition discriminate.

(** Each entry of a concrete shape accepts the value found in the input,
    given what the context says about that value. *)
Ltac accept_entries :=
  let k := fresh "k" in
  let t := fresh "t" in
  let Hin := fresh "Hin" in
  intros k t Hin; simpl in Hin;
  repeat (destruct Hin as [Hin | Hin]); try contradiction;
  inversion Hin; subst k t; clear Hin;
  repeat match goal with
         | H : get ?key ?input = VStr _ |- context [get ?key ?input] => rewrite H
         end;
  simpl;
  repeat match goal with
         | H : z.mem _ _ = true |- _ => rewrite H
         end;
  try (eexists; reflexivity);
  match goal with
  | H : optional_string ?v = true |- context [?v] =>
      revert H; destruct v; simpl; intros H; try discriminate H;
      eexists; reflexivity
  end.

Ltac stdio_steps :=
  unfold Stdio.callTool, Stdio.dispatch, Stdio.await,
    try_catch, bind, pure, ret, throw, request.

Ltac split_tool tool :=
  repeat match goal with
         | H : context [String.eqb tool ?c] |- _ =>
             destruct (String.eqb_spec tool c); [subst tool | idtac]
         end.

Section Claims.

Context {World : Type}.
Variable remote : Remote World.
Variable env : Env.
Variable version : string.

Lemma Http_rejects_first (tool : string) (shape : z.object) (params args : value)
      (e : exn) (s : Http.State) :
  Http_validator tool = Some shape ->
  prop "name" params = inr (VStr tool) ->
  prop "arguments" params = inr args ->
  z.parse shape args = inl e ->
  Http.handleToolCall remote env params s = (inl e, s).
Proof.
  intros Hv Hn Ha Hp. unfold Http.handleToolCall, bind, pure.
  rewrite Hn, Ha. unfold Http_validator in Hv.
  split_tool tool; simpl in Hv; try discriminate;
    inversion Hv; subst shape; simpl; rewrite Hp; reflexivity.
Qed.

Lemma handleAuthentication_log (s : Stdio.State World) :
  log (Stdio.net (snd (Stdio.handleAuthentication remote env s)))
  = (log (Stdio.net s)
       ++ if Stdio.isAuthenticated s then []
          else [universalAuth_login (credentials env)])%list.
Proof.
  unfold Stdio.handleAuthentication.
  destruct (Stdio.isAuthenticated s); simpl; [now rewrite app_nil_r|].
  unfold bind, Stdio.await, request.
  destruct (remote _ _) as [[msg | v] w]; reflexivity.
Qed.

Lemma handleAuthentication_throws (s : Stdio.State World) (e : exn) :
  fst (Stdio.handleAuthentication remote env s) = inl e -> is_ZodError e = false.
Proof.
  unfold Stdio.handleAuthentication.
  destruct (Stdio.isAuthenticated s); simpl; [discriminate|].
  unfold bind, Stdio.await, request.
  destruct (remote _ _) as [[msg | v] w]; simpl; [|discriminate].
  now intros [= <-].
Qed.

Lemma Stdio_auth_failure (params : value) (s s1 : Stdio.State World) (e : exn) :
  Stdio.handleAuthentication remote env s = (inl e, s1) ->
  Stdio.callTool remote env params s = (inl e, s1).
Proof.
  intros H. pose proof (handleAuthentication_throws s e) as Hz.
  rewrite H in Hz. specialize (Hz eq_refl).
  unfold Stdio.callTool, try_catch, Stdio.dispatch, bind. rewrite H.
  destruct e; simpl in *; try discriminate; reflexivity.
Qed.

Lemma Stdio_rejects_first (tool : string) (shape : z.object) (params args : value)
      (errors : list ZodIssue) (s s1 : Stdio.State World) :
  Stdio_validator tool = Some shape ->
  prop "name" params = inr (VStr tool) ->
  prop "arguments" params = inr args ->
  z.parse shape args = inl (ZodError errors) ->
  Stdio.handleAuthentication remote env s = (inr tt, s1) ->
  Stdio.callTool remote env params s
  = (inl (Error (Stdio.invalid_arguments errors)), s1).
Proof.
  intros Hv Hn Ha Hp Hauth.
  unfold Stdio.callTool, try_catch, Stdio.dispatch, bind, pure.
  rewrite Hauth, Hn, Ha. unfold Stdio_validator in Hv.
  split_tool tool; simpl in Hv; try discriminate;
    inversion Hv; subst shape; simpl; rewrite Hp; reflexivity.
Qed.

Lemma Http_required_validated (tool : Tool) (f : string) :
  In tool Http.tools -> In f (required (inputSchema tool)) ->
  exists shape t,
    Http_validator (name tool) = Some shape /\ In (f, t) shape /\ demands t = true.
Proof.
  intros Ht Hf. simpl in Ht.
  repeat (destruct Ht as [<- | Ht]); try contradiction; simpl in Hf;
    repeat (destruct Hf as [<- | Hf]); try contradiction;
    (eexists; eexists; split; [reflexivity | split; [simpl; auto 10 | reflexivity]]).
Qed.

Lemma Stdio_required_validated (tool : Tool) (f : string) :
  In tool Stdio.tools -> In f (required (inputSchema tool)) ->
  exists shape t,
    Stdio_validator (name tool) = Some shape /\ In (f, t) shape /\ demands t = true.
Proof.
  intros Ht Hf. simpl in Ht.
  repeat (destruct Ht as [<- | Ht]); try contradiction; simpl in Hf;
    repeat (destruct Hf as [<- | Hf]); try contradiction;
    (eexists; eexists; split; [reflexivity | split; [simpl; auto 10 | reflexivity]]).
Qed.

(** Every key that a catalog marks required is quoted as it is. *)
Lemma required_keys_plain (tool : Tool) (f : string) :
  In tool (Http.tools ++ Stdio.tools)%list -> In f (required (inputSchema tool)) ->
  escape f = f.
Proof.
  intros Ht Hf. simpl in Ht.
  repeat (destruct Ht as [<- | Ht]); try contradiction; simpl in Hf;
    repeat (destruct Hf as [<- | Hf]); try contradiction; reflexivity.
Qed.

(** Every key of a schema of the HTTP variant is quoted as it is. *)
Lemma Http_validated_keys_plain (tool : string) (shape : z.object)
      (f : string) (t : z.schema) :
  Http_validator tool = Some shape -> In (f, t) shape -> escape f = f.
Proof.
  intros Hv Hin. unfold Http_validator in Hv.
  split_tool tool; simpl in Hv; try discriminate;
    inversion Hv; subst shape; simpl in Hin;
    repeat (destruct Hin as [Hin | Hin]); try contradiction;
    inversion Hin; reflexivity.
Qed.

(** C1 (amended).  A tool call whose argument object lacks a key that the
    tool's catalog entry marks required fails validation.  In the HTTP
    variant [handleToolCall] throws the [ZodError] whose message names the
    key, and the state is untouched: no remote call at all.  In the stdio
    variant the handler runs [handleAuthentication] first, so the only
    remote call is the credential exchange of a process not yet
    authenticated; if that step fails the call fails with its error, and
    otherwise it fails with [Invalid arguments: ...] naming the key.  No
    secret-management operation is performed in either variant.  The
    third part covers every name that the HTTP [handleToolCall] validates,
    [update-secret] included, which has no catalog entry: there the keys
    required are those that the schema parsed by the tool's case does not
    make optional or give a default. *)
Theorem C1_missing_required_key_rejected :
  (forall (tool : Tool) (f : string) (input : list (string * value))
          (params : value) (s : Http.State),
      In tool Http.tools -> In f (required (inputSchema tool)) ->
      prop "name" params = inr (VStr (name tool)) ->
      prop "arguments" params = inr (VObj input) ->
      field f input = None ->
      exists errors,
        Http.handleToolCall remote env params s = (inl (ZodError errors), s)
        /\ includes (exn_message (ZodError errors)) f)
  /\
  (forall (tool : Tool) (f : string) (input : list (string * value))
          (params : value) (s : Stdio.State World),
      In tool Stdio.tools -> In f (required (inputSchema tool)) ->
      prop "name" params = inr (VStr (name tool)) ->
      prop "arguments" params = inr (VObj input) ->
      field f input = None ->
      let auth := Stdio.handleAuthentication remote env s in
      let out := Stdio.callTool remote env params s in
      snd out = snd auth
      /\ log (Stdio.net (snd out))
         = (log (Stdio.net s)
              ++ if Stdio.isAuthenticated s then []
                 else [universalAuth_login (credentials env)])%list
      /\ (forall e, fst auth = inl e -> fst out = inl e)
      /\ (fst auth = inr tt ->
          exists errors,
            fst out = inl (Error (Stdio.invalid_arguments errors))
            /\ includes (Stdio.invalid_arguments errors) f))
  /\
  (forall (tool : string) (shape : z.object) (f : string) (t : z.schema)
          (input : list (string * value)) (params : value) (s : Http.State),
      Http_validator tool = Some shape ->
      In (f, t) shape -> demands t = true ->
      prop "name" params = inr (VStr tool) ->
      prop "arguments" params = inr (VObj input) ->
      field f input = None ->
      exists errors,
        Http.handleToolCall remote env params s = (inl (ZodError errors), s)
        /\ includes (exn_message (ZodError errors)) f).
Proof.
  split; [|split];
    [| |intros tool shape f t input params s Hv Hin Hd Hn Ha Hmiss;
        destruct (parse_missing shape input f t Hin Hd Hmiss)
          as (errors & i & Hp & Hi & Hpath & _);
        exists errors; split;
        [eapply Http_rejects_first; eassumption
        |apply includes_quote;
         [exact (Http_validated_keys_plain tool shape f t Hv Hin)
         |eapply ZodError_message_names; eassumption]]].
  - intros tool f input params s Ht Hf Hn Ha Hmiss.
    destruct (Http_required_validated tool f Ht Hf) as (shape & t & Hv & Hin & Hd).
    destruct (parse_missing shape input f t Hin Hd Hmiss)
      as (errors & i & Hp & Hi & Hpath & _).
    exists errors. split.
    + eapply Http_rejects_first; eassumption.
    + apply includes_quote.
      * apply (required_keys_plain tool); [apply in_or_app; now left | assumption].
      * eapply ZodError_message_names; eassumption.
  - intros tool f input params s Ht Hf Hn Ha Hmiss auth out.
    destruct (Stdio_required_validated tool f Ht Hf) as (shape & t & Hv & Hin & Hd).
    destruct (parse_missing shape input f t Hin Hd Hmiss)
      as (errors & i & Hp & Hi & Hpath & _).
    assert (Hsnd : snd out = snd auth).
    { subst auth out.
      destruct (Stdio.handleAuthentication remote env s) as [[e | []] s1] eqn:E.
      - now rewrite (Stdio_auth_failure params s s1 e E).
      - now rewrite (Stdio_rejects_first _ _ _ _ errors s s1 Hv Hn Ha Hp E). }
    split; [exact Hsnd|]. split.
    { rewrite Hsnd. apply handleAuthentication_log. }
    split.
    + intros e He. subst auth out.
      destruct (Stdio.handleAuthentication remote env s) as [r s1] eqn:E.
      simpl in He. subst r.
      now rewrite (Stdio_auth_failure params s s1 e E).
    + intros Hok. subst auth out.
      destruct (Stdio.handleAuthentication remote env s) as [r s1] eqn:E.
      simpl in Hok. subst r.
      rewrite (Stdio_rejects_first _ _ _ _ errors s s1 Hv Hn Ha Hp E).
      exists errors. split; [reflexivity|].
      eapply invalid_arguments_names; eassumption.
Qed.

(** C10.  In the HTTP variant [update-secret] is callable: its
    arguments are validated (a failure is thrown before any remote call)
    and, once validated, the credential exchange and the remote update run
    and the updated secret comes back serialized.  Yet the name is absent
    from the nine-entry catalog of [tools/list] and from the tool-name list
    of the discovery document. *)
Theorem C10_update_secret_callable_not_listed :
  ~ In "update-secret" (map name Http.tools)
  /\ ~ In "update-secret" Http.discovery_tools
  /\ length Http.tools = 9
  /\ (forall (params args : value) (e : exn) (s : Http.State),
         prop "name" params = inr (VStr "update-secret") ->
         prop "arguments" params = inr args ->
         z.parse Http.updateSecretSchema args = inl e ->
         Http.handleToolCall remote env params s = (inl e, s))
  /\ (forall (params args : value) (data : list (string * value))
             (s : Http.State) (token updatedSecret : value) (w1 w2 : World),
         prop "name" params = inr (VStr "update-secret") ->
         prop "arguments" params = inr args ->
         z.parse Http.updateSecretSchema args = inr data ->
         let login := universalAuth_login (credentials env) in
         let update :=
           secrets_updateSecret (get "secretName" data)
             (VObj [("environment", get "environmentSlug" data);
                    ("projectId", get "projectId" data);
                    ("secretPath", get "secretPath" data);
                    ("secretValue", nullish_or (get "secretValue" data) (VStr ""))]) in
         remote login (world s) = (inr token, w1) ->
         remote update w1 = (inr updatedSecret, w2) ->
         Http.handleToolCall remote env params s
         = (inr (text_content
                   ("Secret updated successfully: " ++ JSON_stringify updatedSecret 3)),
            {| world := w2; log := (log s ++ [login; update])%list |})).
Proof.
  split; [|split; [|split; [|split]]].
  - simpl. intuition discriminate.
  - simpl. intuition discriminate.
  - reflexivity.
  - intros params args e s Hn Ha Hp.
    now apply (Http_rejects_first "update-secret" Http.updateSecretSchema params args).
  - intros params args data s token updatedSecret w1 w2 Hn Ha Hp login update Hl Hu.
    http_steps. rewrite Hn, Ha. simpl. rewrite Hp. simpl.
    fold login. rewrite Hl. simpl. fold update. rewrite Hu.
    now rewrite <- app_assoc.
Qed.



Lemma serve_app (rs1 rs2 : list Stdio.Request) (s : Stdio.State World) :
  Stdio.serve remote env (rs1 ++ rs2)%list s
  = let (o1, s1) := Stdio.serve remote env rs1 s in
    let (o2, s2) := Stdio.serve remote env rs2 s1 in
    ((o1 ++ o2)%list, s2).
Proof.
  revert s. induction rs1 as [|r rs1 IH]; intros s; simpl.
  - now destruct (Stdio.serve remote env rs2 s).
  - destruct (Stdio.handle remote env r s) as [o s']. rewrite IH.
    destruct (Stdio.serve remote env rs1 s') as [o1 s1].
    now destruct (Stdio.serve remote env rs2 s1).
Qed.

(** C4.  Every [tools/list] request is answered with the same
    nine-entry catalog in declaration order, whatever the state (and so
    whatever requests came before, authenticated or not): in the HTTP
    variant the [tools] constant, in the stdio variant the nine
    capabilities. *)
Theorem C4_tools_list_fixed_catalog :
  (forall (reqbody : value) (s : Http.State),
      prop "method" reqbody = inr (VStr "tools/list") ->
      Http.handleJsonRpcRequest remote env version reqbody s
      = (Http.json 200
           (VObj [("jsonrpc", VStr "2.0");
                  ("result", VObj [("tools", VArr (map Tool_value Http.tools))]);
                  ("id", optional_prop "id" reqbody)]),
         s))
  /\ (forall (s : Stdio.State World),
         Stdio.handle remote env Stdio.ListTools s
         = (inr (VObj [("tools", VArr (map Tool_value Stdio.tools))]), s))
  /\ (forall (before : list Stdio.Request) (s : Stdio.State World),
         exists outs,
           Stdio.serve remote env (before ++ [Stdio.ListTools])%list s
           = ((outs ++ [inr (VObj [("tools", VArr (map Tool_value Stdio.tools))])])%list,
              snd (Stdio.serve remote env before s)))
  /\ map name Http.tools
     = ["create-secret"; "delete-secret"; "list-secrets"; "get-secret";
        "create-project"; "list-projects"; "create-environment";
        "create-folder"; "invite-members-to-project"]
  /\ map name Stdio.tools
     = ["create-secret"; "delete-secret"; "update-secret"; "list-secrets";
        "get-secret"; "create-project"; "create-environment";
        "create-folder"; "invite-members-to-project"]
  /\ length Http.tools = 9 /\ length Stdio.tools = 9.
Proof.
  repeat split.
  - intros reqbody s Hm.
    destruct reqbody; simpl in Hm; try discriminate.
    unfold Http.handleJsonRpcRequest, bind, pure, ret.
    simpl prop. injection Hm as Hm. rewrite Hm. reflexivity.
  - intros before s. rewrite serve_app.
    destruct (Stdio.serve remote env before s) as [o1 s1]. simpl.
    now exists o1.
Qed.

(** C7 (amended).  The HTTP dispatcher never looks at whether an
    envelope carries an [id].  The method [notifications/initialized] is
    answered with an empty 204, with or without an [id]; an envelope
    without [id] whose method is a primitive value (a string, as the
    protocol has it, or absent) other than the four known names is
    answered with the 404 error -32601, and a [tools/call] without [id]
    whose handling throws (the name of the tool, if the parameters have
    one, being a primitive value too) is answered with the 500 error
    -32603 carrying the message of what was thrown, both with [id]
    undefined. *)
Theorem C7_notifications_are_not_told_apart :
  (forall (reqbody : value) (s : Http.State),
      prop "method" reqbody = inr (VStr "notifications/initialized") ->
      Http.handleJsonRpcRequest remote env version reqbody s
      = ({| Http.status := 204; Http.body := None |}, s))
  /\
  (forall (fs : list (string * value)) (s : Http.State),
      field "id" fs = None ->
      primitive (get "method" fs) = true ->
      strict_equals (get "method" fs) (VStr "initialize") = false ->
      strict_equals (get "method" fs) (VStr "notifications/initialized") = false ->
      strict_equals (get "method" fs) (VStr "tools/list") = false ->
      strict_equals (get "method" fs) (VStr "tools/call") = false ->
      Http.handleJsonRpcRequest remote env version (VObj fs) s
      = (Http.json 404
           (VObj [("jsonrpc", VStr "2.0");
                  ("error",
                   VObj [("code", VNum (-32601));
                         ("message",
                          VStr ("Method not found: " ++ to_string (get "method" fs)))]);
                  ("id", VUndef)]),
         s))
  /\
  (forall (fs : list (string * value)) (s s' : Http.State) (error : exn),
      field "id" fs = None ->
      get "method" fs = VStr "tools/call" ->
      (forall name, prop "name" (get "params" fs) = inr name -> primitive name = true) ->
      Http.handleToolCall remote env (get "params" fs) s = (inl error, s') ->
      Http.handleJsonRpcRequest remote env version (VObj fs) s
      = (Http.json 500
           (VObj [("jsonrpc", VStr "2.0");
                  ("error",
                   VObj [("code", VNum (-32603));
                         ("message", VStr ("Internal error: " ++ exn_message error))]);
                  ("id", VUndef)]),
         s')).
Proof.
  split; [|split].
  - intros reqbody s Hm.
    destruct reqbody; simpl in Hm; try discriminate.
    unfold Http.handleJsonRpcRequest, bind, pure, ret.
    simpl prop. injection Hm as Hm. rewrite Hm. reflexivity.
  - intros fs s Hid _ H1 H2 H3 H4.
    unfold Http.handleJsonRpcRequest, bind, pure, ret.
    simpl prop. cbv beta iota. rewrite H1, H2, H3, H4.
    unfold get at 2. now rewrite Hid.
  - intros fs s s' error Hid Hm _ Hcall.
    unfold Http.handleJsonRpcRequest, bind, pure, ret.
    simpl prop. cbv beta iota. rewrite Hm. simpl.
    rewrite Hcall. simpl optional_prop. unfold get at 1. now rewrite Hid.
Qed.

Lemma declared_default_is_root (shape : z.object) :
  In shape [Http.createSecretSchema; Http.deleteSecretSchema;
            Http.updateSecretSchema; Http.listSecretsSchema;
            Http.getSecretSchema; Http.createFolderSchema;
            Stdio.zod Stdio.createSecretSchema; Stdio.zod Stdio.deleteSecretSchema;
            Stdio.zod Stdio.updateSecretSchema; Stdio.zod Stdio.listSecretsSchema;
            Stdio.zod Stdio.getSecretSchema] ->
  secretPath_defaults shape.
Proof.
  intros Hin t Ht. simpl in Hin.
  repeat (destruct Hin as [<- | Hin]); try contradiction; simpl in Ht;
    repeat (destruct Ht as [Ht | Ht]); try contradiction;
    try discriminate; now inversion Ht.
Qed.

(** In the HTTP variant the catalog and the validator agree on the
    default: a tool whose catalog entry gives [secretPath] the default
    [/] is validated with a schema that declares it. *)
Lemma Http_catalog_default_declared (tool : Tool) (p : Property) :
  In tool Http.tools ->
  In ("secretPath", p) (properties (inputSchema tool)) ->
  pdefault p = Some "/" ->
  exists shape,
    Http_validator (name tool) = Some shape /\ declares_root_default shape = true.
Proof.
  intros Ht Hp Hd. simpl in Ht.
  repeat (destruct Ht as [<- | Ht]); try contradiction; simpl in Hp;
    repeat (destruct Hp as [Hp | Hp]); try contradiction;
    try discriminate Hp;
    (eexists; split; reflexivity).
Qed.

(** C6.  For every tool whose schema declares the root default for
    [secretPath], a call that omits [secretPath] and the call that passes
    it as the root path are validated to the same arguments, and the whole
    handler behaves the same on both: same result, same remote calls with
    the same parameters, same final state. *)
Theorem C6_omitted_secretPath_is_root :
  forall (tool : string) (shape : z.object)
         (input input' : list (string * value)) (params params' : value),
    root_made_explicit input input' ->
    prop "name" params = inr (VStr tool) ->
    prop "name" params' = inr (VStr tool) ->
    prop "arguments" params = inr (VObj input) ->
    prop "arguments" params' = inr (VObj input') ->
    declares_root_default shape = true ->
    (Http_validator tool = Some shape ->
     z.parse shape (VObj input') = z.parse shape (VObj input)
     /\ forall s, Http.handleToolCall remote env params' s
                  = Http.handleToolCall remote env params s)
    /\
    (Stdio_validator tool = Some shape ->
     z.parse shape (VObj input') = z.parse shape (VObj input)
     /\ forall s, Stdio.callTool remote env params' s
                  = Stdio.callTool remote env params s).
Proof.
  intros tool shape input input' params params' Hroot Hn Hn' Ha Ha' Hdecl.
  split; intros Hv.
  - unfold Http_validator in Hv.
    split_tool tool; simpl in Hv; try discriminate;
      inversion Hv; subst shape; try discriminate Hdecl;
      (match goal with
       | |- z.parse ?sh _ = _ /\ _ =>
           assert (Hp : z.parse sh (VObj input') = z.parse sh (VObj input))
             by (apply parse_root; [apply declared_default_is_root; simpl; tauto
                                   | exact Hroot])
       end;
       split; [exact Hp|]; intros s;
       http_steps; rewrite Hn, Hn', Ha, Ha'; simpl; rewrite Hp; reflexivity).
  - unfold Stdio_validator in Hv.
    split_tool tool; simpl in Hv; try discriminate;
      inversion Hv; subst shape; try discriminate Hdecl;
      (match goal with
       | |- z.parse ?sh _ = _ /\ _ =>
           assert (Hp : z.parse sh (VObj input') = z.parse sh (VObj input))
             by (apply parse_root; [apply declared_default_is_root; simpl; tauto
                                   | exact Hroot])
       end;
       split; [exact Hp|]; intros s;
       stdio_steps; rewrite Hn, Hn', Ha, Ha'; simpl; rewrite Hp; reflexivity).
Qed.

(** *** The authentication flag of the stdio variant *)

Lemma quiet_pure {A : Type} (r : exn + A) : quiet (World := World) (pure r).
Proof. intros s. split; [reflexivity|]. exists []. simpl. now rewrite app_nil_r. Qed.

Lemma quiet_ret {A : Type} (a : A) : quiet (World := World) (ret a).
Proof. apply (quiet_pure (inr a)). Qed.

Lemma quiet_throw {A : Type} (e : exn) : quiet (World := World) (@throw _ A e).
Proof. apply (quiet_pure (inl e)). Qed.

Lemma quiet_await (c : call) : is_login c = false -> quiet (Stdio.await remote c).
Proof.
  intros Hc s. unfold Stdio.await, request.
  destruct (remote c (world (Stdio.net s))) as [r w]. simpl.
  split; [reflexivity|]. exists [c]. simpl. now rewrite Hc.
Qed.

Lemma quiet_bind {A B : Type} (m : M (Stdio.State World) A)
      (k : A -> M (Stdio.State World) B) :
  quiet m -> (forall a, quiet (k a)) -> quiet (bind m k).
Proof.
  intros Hm Hk s. unfold bind.
  destruct (Hm s) as (Hf & c1 & Hl & Hn).
  destruct (m s) as [[e | a] s1]; simpl in *.
  - split; [assumption|]. now exists c1.
  - destruct (Hk a s1) as (Hf2 & c2 & Hl2 & Hn2).
    split; [congruence|]. exists (c1 ++ c2)%list. split.
    + now rewrite Hl2, Hl, app_assoc.
    + now rewrite existsb_app, Hn, Hn2.
Qed.

Lemma quiet_if {A : Type} (b : bool) (m1 m2 : M (Stdio.State World) A) :
  quiet m1 -> quiet m2 -> quiet (if b then m1 else m2).
Proof. now destruct b. Qed.

Ltac quiet_tac :=
  repeat first
    [ apply quiet_if
    | apply quiet_bind; [|intros ?]
    | apply quiet_pure
    | apply quiet_ret
    | apply quiet_throw
    | apply quiet_await; reflexivity ].

(** The handler keeps the state that its [try] block leaves: the
    [catch] only rethrows. *)
Lemma callTool_state (params : value) (s : Stdio.State World) :
  snd (Stdio.callTool remote env params s) = snd (Stdio.dispatch remote env params s).
Proof.
  unfold Stdio.callTool, try_catch.
  destruct (Stdio.dispatch remote env params s) as [[e | a] s1]; [|reflexivity].
  now destruct e.
Qed.

(** After [handleAuthentication] the rest of the handler is quiet. *)
Lemma dispatch_after_auth (params : value) :
  exists rest : M (Stdio.State World) value,
    quiet rest
    /\ Stdio.dispatch remote env params
       = bind (Stdio.handleAuthentication remote env) (fun _ => rest).
Proof.
  eexists. split; [|unfold Stdio.dispatch; reflexivity].
  quiet_tac.
Qed.

Lemma handleAuthentication_done (s : Stdio.State World) :
  Stdio.isAuthenticated s = true ->
  Stdio.handleAuthentication remote env s = (inr tt, s).
Proof. intros H. unfold Stdio.handleAuthentication. now rewrite H. Qed.

Lemma handleAuthentication_first (s : Stdio.State World) :
  Stdio.isAuthenticated s = false ->
  let login := universalAuth_login (credentials env) in
  Stdio.handleAuthentication remote env s
  = match remote login (world (Stdio.net s)) with
    | (inl msg, w) =>
        (inl (Error msg),
         {| Stdio.isAuthenticated := false;
            Stdio.net := {| world := w; log := (log (Stdio.net s) ++ [login])%list |} |})
    | (inr _, w) =>
        (inr tt,
         {| Stdio.isAuthenticated := true;
            Stdio.net := {| world := w; log := (log (Stdio.net s) ++ [login])%list |} |})
    end.
Proof.
  intros H login. unfold Stdio.handleAuthentication. rewrite H.
  unfold bind, Stdio.await, request. fold login.
  destruct (remote login (world (Stdio.net s))) as [[msg | v] w]; simpl;
    now rewrite ?H.
Qed.

Lemma callTool_keeps_flag (params : value) (s : Stdio.State World) :
  Stdio.isAuthenticated s = true ->
  Stdio.isAuthenticated (snd (Stdio.callTool remote env params s)) = true
  /\ exists calls,
       log (Stdio.net (snd (Stdio.callTool remote env params s)))
       = (log (Stdio.net s) ++ calls)%list
       /\ existsb is_login calls = false.
Proof.
  intros Hflag. rewrite callTool_state.
  destruct (dispatch_after_auth params) as (rest & Hq & ->).
  unfold bind. rewrite (handleAuthentication_done s Hflag).
  destruct (Hq s) as (Hf & calls & Hl & Hn).
  split; [congruence|]. now exists calls.
Qed.

Lemma handle_keeps_flag (r : Stdio.Request) (s : Stdio.State World) :
  Stdio.isAuthenticated s = true ->
  Stdio.isAuthenticated (snd (Stdio.handle remote env r s)) = true
  /\ exists calls,
       log (Stdio.net (snd (Stdio.handle remote env r s)))
       = (log (Stdio.net s) ++ calls)%list
       /\ existsb is_login calls = false.
Proof.
  intros Hflag. destruct r as [|params].
  - simpl. split; [assumption|]. exists []. simpl. now rewrite app_nil_r.
  - now apply callTool_keeps_flag.
Qed.

(** C8.  In the stdio variant [isAuthenticated] starts false; a
    request leaves it set once it is set, and sets it only in a tool call
    whose credential exchange succeeded; a tool call that got through
    [handleAuthentication] leaves it set; and from a state where it is
    set, no sequence of requests performs a credential exchange or
    clears it. *)
Theorem C8_isAuthenticated_monotonic :
  (forall w : World, Stdio.isAuthenticated (Stdio.initial w) = false)
  /\
  (forall (r : Stdio.Request) (s : Stdio.State World),
      let s' := snd (Stdio.handle remote env r s) in
      (Stdio.isAuthenticated s = true -> Stdio.isAuthenticated s' = true)
      /\ (Stdio.isAuthenticated s = false -> Stdio.isAuthenticated s' = true ->
          exists params token w,
            r = Stdio.CallTool params
            /\ remote (universalAuth_login (credentials env)) (world (Stdio.net s))
               = (inr token, w)))
  /\
  (forall (params : value) (s : Stdio.State World),
      fst (Stdio.handleAuthentication remote env s) = inr tt ->
      Stdio.isAuthenticated (snd (Stdio.callTool remote env params s)) = true)
  /\
  (forall (rs : list Stdio.Request) (s : Stdio.State World),
      Stdio.isAuthenticated s = true ->
      let s' := snd (Stdio.serve remote env rs s) in
      Stdio.isAuthenticated s' = true
      /\ exists calls,
           log (Stdio.net s') = (log (Stdio.net s) ++ calls)%list
           /\ existsb is_login calls = false).
Proof.
  split; [reflexivity|]. split; [|split].
  - intros r s s'. split.
    + intros Hflag. now apply handle_keeps_flag.
    + intros Hoff Hon. subst s'. destruct r as [|params].
      * simpl in Hon. congruence.
      * simpl in Hon. rewrite callTool_state in Hon.
        destruct (dispatch_after_auth params) as (rest & Hq & Hd).
        rewrite Hd in Hon. unfold bind in Hon.
        rewrite (handleAuthentication_first s Hoff) in Hon.
        destruct (remote (universalAuth_login (credentials env)) (world (Stdio.net s)))
          as [[msg | token] w] eqn:E.
        -- simpl in Hon. discriminate.
        -- now exists params, token, w.
  - intros params s Hauth. rewrite callTool_state.
    destruct (dispatch_after_auth params) as (rest & Hq & ->).
    unfold bind.
    destruct (Stdio.handleAuthentication remote env s) as [[e | []] s1] eqn:E;
      simpl in Hauth; [discriminate|].
    destruct (Hq s1) as (Hf & _). rewrite Hf.
    destruct (Stdio.isAuthenticated s) eqn:Hs.
    + rewrite (handleAuthentication_done s Hs) in E. now inversion E; subst.
    + rewrite (handleAuthentication_first s Hs) in E.
      destruct (remote _ _) as [[msg | token] w]; inversion E. reflexivity.
  - intros rs. induction rs as [|r rs IH]; intros s Hflag; simpl.
    + split; [assumption|]. exists []. simpl. now rewrite app_nil_r.
    + destruct (handle_keeps_flag r s Hflag) as (Hf1 & c1 & Hl1 & Hn1).
      destruct (Stdio.handle remote env r s) as [o s1]. simpl in *.
      destruct (IH s1 Hf1) as (Hf2 & c2 & Hl2 & Hn2).
      destruct (Stdio.serve remote env rs s1) as [os s2]. simpl in *.
      split; [assumption|]. exists (c1 ++ c2)%list. split.
      * now rewrite Hl2, Hl1, app_assoc.
      * now rewrite existsb_app, Hn1, Hn2.
Qed.

Lemma find_absent (wanted : value) (listed : list value) :
  Forall (fun record =>
            exists k, prop "secretKey" record = inr k
                      /\ strict_equals k wanted = false) listed ->
  find_throwing
    (fun s0 =>
       match prop "secretKey" s0 with
       | inl e => inl e
       | inr k => inr (strict_equals k wanted)
       end) listed
  = inr VUndef.
Proof.
  induction 1 as [|record listed (k & Hk & Hne) _ IH]; simpl; [reflexivity|].
  now rewrite Hk, Hne.
Qed.

(** C9.  In the HTTP variant, a [get-secret] call for a name that no
    record of the remote listing carries as its [secretKey] succeeds:
    [handleToolCall] returns the single text block
    [Secret not found: <name>], and the JSON-RPC reply is a 200 carrying
    that block as its [result], not an error. *)
Theorem C9_get_secret_not_found_is_a_result :
  forall (params : value) (input getData fs rb : list (string * value))
         (secretName : string) (s : Http.State) (token : value)
         (listed : list value) (w1 w2 : World),
    prop "name" params = inr (VStr "get-secret") ->
    prop "arguments" params = inr (VObj input) ->
    z.parse Http.getSecretSchema (VObj input) = inr getData ->
    get "secretName" input = VStr secretName ->
    let login := universalAuth_login (credentials env) in
    let listing :=
      secrets_listSecrets
        (VObj [("environment", get "environmentSlug" getData);
               ("projectId", get "projectId" getData);
               ("secretPath", get "secretPath" getData);
               ("expandSecretReferences", get "expandSecretReferences" getData);
               ("includeImports", get "includeImports" getData)]) in
    remote login (world s) = (inr token, w1) ->
    remote listing w1 = (inr (VObj fs), w2) ->
    get "secrets" fs = VArr listed ->
    Forall (fun record =>
              exists k, prop "secretKey" record = inr k
                        /\ strict_equals k (VStr secretName) = false) listed ->
    get "method" rb = VStr "tools/call" ->
    get "params" rb = params ->
    let s' := {| world := w2; log := (log s ++ [login; listing])%list |} in
    Http.handleToolCall remote env params s
    = (inr (text_content ("Secret not found: " ++ secretName)), s')
    /\ Http.handleJsonRpcRequest remote env version (VObj rb) s
       = (Http.json 200
            (VObj [("jsonrpc", VStr "2.0");
                   ("result", text_content ("Secret not found: " ++ secretName));
                   ("id", get "id" rb)]),
          s').
Proof.
  intros params input getData fs rb secretName s token listed w1 w2
         Hn Ha Hp Hname login listing Hl Hr Hfs Habsent Hm Hparams s'.
  assert (Hdata : get "secretName" getData = VStr secretName).
  { destruct (parse_get_string Http.getSecretSchema input getData "secretName")
      as (n & Hin & Hout); [| simpl; auto | exact Hp |].
    - simpl. repeat constructor; simpl; intuition discriminate.
    - congruence. }
  assert (Hcall : Http.handleToolCall remote env params s
                  = (inr (text_content ("Secret not found: " ++ secretName)), s')).
  { http_steps. rewrite Hn, Ha. simpl. rewrite Hp. simpl.
    fold login. rewrite Hl. simpl. fold listing. rewrite Hr. simpl.
    rewrite Hfs. simpl. rewrite Hdata.
    rewrite (find_absent (VStr secretName) listed Habsent). simpl.
    unfold s'. now rewrite <- app_assoc. }
  split; [exact Hcall|].
  unfold Http.handleJsonRpcRequest, bind, pure, ret.
  simpl prop. cbv beta iota. rewrite Hm. simpl.
  rewrite Hparams, Hcall. reflexivity.
Qed.

(** *** Successful validation *)

Lemma parse_accepts (shape : z.object) (input : list (string * value)) :
  (forall k t, In (k, t) shape ->
               exists v, z._parse t [Key k] (get k input) = inr v) ->
  exists out, z.parse shape (VObj input) = inr out.
Proof.
  intros H. rewrite parse_unfold.
  assert (E : fst (z.parse_shape shape input) = []).
  { induction shape as [|[k t] rest IH]; [reflexivity|].
    simpl. destruct (z.parse_shape rest input) as [errs out].
    destruct (H k t) as (v & ->); [now left|].
    simpl in *. apply IH. intros k' t' Hin. apply H. now right. }
  rewrite E. eauto.
Qed.

Lemma _parse_transparent (t : z.schema) (p : list pathseg) (v out : value) :
  transparent t = true -> z._parse t p v = inr out -> out = v.
Proof.
  revert p v out. induction t; intros p v out Ht; simpl in *; try discriminate.
  - destruct v; intros [= <-] || discriminate; reflexivity.
  - destruct v; intros [= <-] || discriminate; reflexivity.
  - destruct v; intros [= <-] || discriminate; reflexivity.
  - destruct v; try discriminate. destruct (z.mem s values); [|discriminate].
    now intros [= <-].
  - destruct v; try discriminate.
    match goal with
    | |- match fst (?each 0 items) with _ => _ end = _ -> _ =>
        assert (G : forall i l, fst (each i l) = [] -> snd (each i l) = l)
    end.
    { intros i l. revert i. induction l as [|x r IHr]; intros i; [reflexivity|].
      cbn -[z._parse].
      match goal with
      | |- context [let (_, _) := ?e in _] => destruct e as [errs ys] eqn:E
      end.
      destruct (z._parse t (p ++ [Index i]) x) as [errs0 | y] eqn:Q; simpl.
      - intros Hnil. apply app_eq_nil in Hnil. destruct Hnil as [-> _].
        exfalso. exact (_parse_nonempty _ _ _ Q).
      - intros ->. rewrite (IHt _ _ _ Ht Q). f_equal.
        specialize (IHr (S i)). rewrite E in IHr. now apply IHr. }
    match goal with
    | |- match fst ?r with _ => _ end = _ -> _ =>
        specialize (G 0 items); destruct (fst r); [|discriminate]
    end.
    intros [= <-]. now rewrite G.
  - destruct v; try (now apply IHt). now intros [= <-].
Qed.

(** A validated key whose schema has no default holds what was passed. *)
Lemma parse_keeps (shape : z.object) (input out : list (string * value))
      (k : string) (t : z.schema) :
  NoDup (map fst shape) -> In (k, t) shape -> transparent t = true ->
  z.parse shape (VObj input) = inr out ->
  get k out = get k input.
Proof.
  intros Hnd Hin Ht Hp.
  exact (_parse_transparent _ _ _ _ Ht (parse_get _ _ _ _ _ Hnd Hin Hp)).
Qed.

(** C5 (amended).  [create-project] requires [projectName] in both
    variants and, in the stdio variant, [type] as well (one of
    secret-manager, cert-manager, kms, ssh); the HTTP variant has no
    [type] argument.  A call with a string [projectName] (stdio: and a
    listed [type]) whose optional arguments are absent or strings passes
    validation and, once the credential exchange has succeeded, invokes
    the remote project creation with those arguments.  A stdio call with
    no [type] is rejected before any project is created. *)
Theorem C5_create_project_arguments :
  (forall (params : value) (input : list (string * value)) (projectName : string)
          (s : Http.State) (token : value) (w1 : World),
      prop "name" params = inr (VStr "create-project") ->
      prop "arguments" params = inr (VObj input) ->
      get "projectName" input = VStr projectName ->
      optional_string (get "workspaceSlug" input) = true ->
      optional_string (get "organizationId" input) = true ->
      let login := universalAuth_login (credentials env) in
      let create :=
        projects_create
          (VObj [("name", VStr projectName);
                 ("workspaceSlug", get "workspaceSlug" input);
                 ("organizationId", get "organizationId" input)]) in
      remote login (world s) = (inr token, w1) ->
      (exists projectData,
          z.parse Http.createProjectSchema (VObj input) = inr projectData)
      /\ Http.handleToolCall remote env params s
         = (match fst (remote create w1) with
            | inl msg => inl (Error msg)
            | inr project =>
                inr (text_content
                       ("Project created successfully: " ++ JSON_stringify project 3))
            end,
            {| world := snd (remote create w1);
               log := (log s ++ [login; create])%list |}))
  /\
  (forall (params : value) (input : list (string * value))
          (projectName type : string) (s s1 : Stdio.State World),
      prop "name" params = inr (VStr "create-project") ->
      prop "arguments" params = inr (VObj input) ->
      get "projectName" input = VStr projectName ->
      get "type" input = VStr type ->
      z.mem type ["secret-manager"; "cert-manager"; "kms"; "ssh"] = true ->
      optional_string (get "description" input) = true ->
      optional_string (get "slug" input) = true ->
      optional_string (get "projectTemplate" input) = true ->
      optional_string (get "kmsKeyId" input) = true ->
      Stdio.handleAuthentication remote env s = (inr tt, s1) ->
      let create :=
        projects_create
          (VObj [("projectName", VStr projectName);
                 ("projectDescription", get "description" input);
                 ("kmsKeyId", get "kmsKeyId" input);
                 ("slug", get "slug" input);
                 ("template", get "projectTemplate" input);
                 ("type", VStr type)]) in
      (exists data,
          z.parse (Stdio.zod Stdio.createProjectSchema) (VObj input) = inr data)
      /\ Stdio.callTool remote env params s
         = (match fst (remote create (world (Stdio.net s1))) with
            | inl msg => inl (Error msg)
            | inr project =>
                inr (text_content
                       ("Project created successfully: " ++ JSON_stringify project 3))
            end,
            {| Stdio.isAuthenticated := Stdio.isAuthenticated s1;
               Stdio.net :=
                 {| world := snd (remote create (world (Stdio.net s1)));
                    log := (log (Stdio.net s1) ++ [create])%list |} |}))
  /\
  (forall (params : value) (input : list (string * value))
          (s s1 : Stdio.State World),
      prop "name" params = inr (VStr "create-project") ->
      prop "arguments" params = inr (VObj input) ->
      field "type" input = None ->
      Stdio.handleAuthentication remote env s = (inr tt, s1) ->
      exists errors,
        Stdio.callTool remote env params s
        = (inl (Error (Stdio.invalid_arguments errors)), s1)
        /\ includes (Stdio.invalid_arguments errors) "type").
Proof.
  split; [|split].
  - intros params input projectName s token w1 Hn Ha Hname Hws Horg login create Hl.
    destruct (parse_accepts Http.createProjectSchema input) as (projectData & Hp);
      [accept_entries|].
    split; [eauto|].
    assert (K : forall k t, In (k, t) Http.createProjectSchema ->
                            transparent t = true ->
                            get k projectData = get k input).
    { intros k t Hin Ht.
      apply (parse_keeps Http.createProjectSchema input projectData k t);
        [nodup_keys | exact Hin | exact Ht | exact Hp]. }
    http_steps. rewrite Hn, Ha. simpl. rewrite Hp. simpl.
    fold login. rewrite Hl. simpl.
    rewrite (K "projectName" z.ZodString), Hname by (simpl; auto).
    rewrite (K "workspaceSlug" (z.ZodOptional z.ZodString)) by (simpl; auto).
    rewrite (K "organizationId" (z.ZodOptional z.ZodString)) by (simpl; auto 6).
    fold create.
    destruct (remote create w1) as [[msg | project] w2]; simpl;
      now rewrite <- app_assoc.
  - intros params input projectName type s s1 Hn Ha Hname Htype Hmem
           Hd Hs Ht Hk Hauth create.
    destruct (parse_accepts (Stdio.zod Stdio.createProjectSchema) input) as (data & Hp);
      [accept_entries|].
    split; [eauto|].
    assert (K : forall k t, In (k, t) (Stdio.zod Stdio.createProjectSchema) ->
                            transparent t = true ->
                            get k data = get k input).
    { intros k t Hin Htr.
      apply (parse_keeps (Stdio.zod Stdio.createProjectSchema) input data k t);
        [nodup_keys | exact Hin | exact Htr | exact Hp]. }
    stdio_steps. rewrite Hauth, Hn, Ha. simpl. simpl in Hp. rewrite Hp. simpl.
    rewrite (K "projectName" z.ZodString), Hname by (simpl; auto).
    rewrite (K "type" (z.ZodEnum ["secret-manager"; "cert-manager"; "kms"; "ssh"])),
      Htype by (simpl; auto).
    rewrite (K "description" (z.ZodOptional z.ZodString)) by (simpl; auto 6).
    rewrite (K "slug" (z.ZodOptional z.ZodString)) by (simpl; auto 6).
    rewrite (K "projectTemplate" (z.ZodOptional z.ZodString)) by (simpl; auto 7).
    rewrite (K "kmsKeyId" (z.ZodOptional z.ZodString)) by (simpl; auto 8).
    fold create.
    destruct (remote create (world (Stdio.net s1))) as [[msg | project] w2];
      reflexivity.
  - intros params input s s1 Hn Ha Hmiss Hauth.
    destruct (parse_missing (Stdio.zod Stdio.createProjectSchema) input "type"
                (z.ZodEnum ["secret-manager"; "cert-manager"; "kms"; "ssh"]))
      as (errors & i & Hp & Hi & Hpath & _); [simpl; auto | reflexivity | exact Hmiss |].
    exists errors. split.
    + apply (Stdio_rejects_first "create-project"
               (Stdio.zod Stdio.createProjectSchema) params (VObj input));
        auto.
    + eapply invalid_arguments_names; eassumption.
Qed.

(** *** The list-secrets response of the stdio variant *)

Lemma key_and_value_records (records : list (list (string * value))) :
  map_throwing Stdio.key_and_value (map VObj records)
  = inr (map key_value_only records).
Proof.
  induction records as [|r records IH]; simpl; [reflexivity|].
  now rewrite IH.
Qed.

Lemma parse_import_object (imp : list (string * value))
      (records : list (list (string * value))) :
  get "secrets" imp = VArr (map VObj records) ->
  Stdio.parse_import (VObj imp) = inr (import_reduced (imp, records)).
Proof.
  intros H. unfold Stdio.parse_import. simpl. rewrite H. simpl.
  now rewrite key_and_value_records.
Qed.

Lemma parse_import_objects
      (imports : list (list (string * value) * list (list (string * value)))) :
  Forall (fun i => get "secrets" (fst i) = VArr (map VObj (snd i))) imports ->
  map_throwing Stdio.parse_import (map (fun i => VObj (fst i)) imports)
  = inr (map import_reduced imports).
Proof.
  induction 1 as [|[imp records] imports H _ IH]; simpl; [reflexivity|].
  simpl in H. rewrite (parse_import_object imp records H).
  simpl in IH. now rewrite IH.
Qed.

Lemma list_response_without_imports (fs : list (string * value))
      (records : list (list (string * value))) :
  get "secrets" fs = VArr (map VObj records) ->
  truthy (get "imports" fs) = false ->
  Stdio.list_response (VObj fs)
  = inr (VObj [("secrets", VArr (map key_value_only records))]).
Proof.
  intros Hs Hi. unfold Stdio.list_response. simpl. rewrite Hs. simpl.
  rewrite key_and_value_records, Hi.
  now destruct (get "imports" fs).
Qed.

Lemma list_response_with_imports (fs : list (string * value))
      (records : list (list (string * value)))
      (imports : list (list (string * value) * list (list (string * value)))) :
  get "secrets" fs = VArr (map VObj records) ->
  get "imports" fs = VArr (map (fun i => VObj (fst i)) imports) ->
  Forall (fun i => get "secrets" (fst i) = VArr (map VObj (snd i))) imports ->
  Stdio.list_response (VObj fs)
  = inr (VObj [("secrets", VArr (map key_value_only records));
               ("imports", VArr (map import_reduced imports))]).
Proof.
  intros Hs Hi Hall. unfold Stdio.list_response. simpl. rewrite Hs. simpl.
  rewrite key_and_value_records, Hi. simpl.
  now rewrite (parse_import_objects imports Hall).
Qed.

Ltac answer Hresp :=
  match goal with
  | |- context [remote ?c ?w] =>
      let r := fresh "r" in
      let w' := fresh "w" in
      let E := fresh "E" in
      let H := fresh "H" in
      destruct (remote c w) as [r w'] eqn:E;
      pose proof (Hresp c eq_refl) as H; rewrite E in H; simpl in H; subst r
  end.

(** C2 (amended).  What the single text block of a successful tool
    call carries, for a remote that resolves the operation with
    [response].  Stdio [list-secrets]: the response with every secret
    record, top-level and inside each import, reduced to its key and
    value.  HTTP [list-secrets]: the full response, not reduced.  The
    other tools print a label followed by the full serialized response
    (HTTP update-secret, create-project, list-projects,
    create-environment; stdio get-secret, create-project,
    create-environment, create-folder, invite-members-to-project), by
    the [secret] member of the response (create-secret in both, stdio
    update-secret), by the key of the deleted secret alone, read from
    the [secret] member of the response (stdio delete-secret), or by the
    matching record of the listing (HTTP get-secret).  Nothing is stated
    about the text of HTTP delete-secret. *)
Theorem C2_result_translation :
  (forall (params args : value) (tool : string) (data : list (string * value))
          (s : Http.State) (token response : value) (w1 : World),
      prop "name" params = inr (VStr tool) ->
      prop "arguments" params = inr args ->
      validated Http_validator tool args data ->
      remote (universalAuth_login (credentials env)) (world s) = (inr token, w1) ->
      (forall c, is_login c = false -> fst (remote c w1) = inr response) ->
      let out := fst (Http.handleToolCall remote env params s) in
      (tool = "list-secrets" ->
       out = inr (text_content ("Secrets: " ++ JSON_stringify response 3)))
      /\ (tool = "update-secret" ->
          out = inr (text_content
                       ("Secret updated successfully: " ++ JSON_stringify response 3)))
      /\ (tool = "create-project" ->
          out = inr (text_content
                       ("Project created successfully: " ++ JSON_stringify response 3)))
      /\ (tool = "list-projects" ->
          out = inr (text_content ("Projects: " ++ JSON_stringify response 3)))
      /\ (tool = "create-environment" ->
          out = inr (text_content
                       ("Environment created successfully: "
                          ++ JSON_stringify response 3)))
      /\ (tool = "create-secret" ->
          forall secret, prop "secret" response = inr secret ->
          out = inr (text_content
                       ("Secret created successfully: " ++ JSON_stringify secret 3)))
      /\ (tool = "get-secret" ->
          forall listed foundSecret,
            prop "secrets" response = inr (VArr listed) ->
            find_throwing
              (fun s0 =>
                 match prop "secretKey" s0 with
                 | inl e => inl e
                 | inr k => inr (strict_equals k (get "secretName" data))
                 end) listed = inr foundSecret ->
            truthy foundSecret = true ->
            out = inr (text_content ("Secret: " ++ JSON_stringify foundSecret 3))))
  /\
  (forall (params args : value) (tool : string) (data : list (string * value))
          (s s1 : Stdio.State World) (response : value),
      prop "name" params = inr (VStr tool) ->
      prop "arguments" params = inr args ->
      validated Stdio_validator tool args data ->
      Stdio.handleAuthentication remote env s = (inr tt, s1) ->
      (forall c, is_login c = false ->
                 fst (remote c (world (Stdio.net s1))) = inr response) ->
      let out := fst (Stdio.callTool remote env params s) in
      (tool = "list-secrets" ->
       forall fs records,
         response = VObj fs ->
         get "secrets" fs = VArr (map VObj records) ->
         (truthy (get "imports" fs) = false ->
          out = inr (text_content
                       (JSON_stringify
                          (VObj [("secrets", VArr (map key_value_only records))]) 0)))
         /\ (forall imports,
                get "imports" fs = VArr (map (fun i => VObj (fst i)) imports) ->
                Forall (fun i => get "secrets" (fst i) = VArr (map VObj (snd i)))
                       imports ->
                out = inr (text_content
                             (JSON_stringify
                                (VObj [("secrets", VArr (map key_value_only records));
                                       ("imports", VArr (map import_reduced imports))])
                                0))))
      /\ (tool = "get-secret" ->
          out = inr (text_content
                       ("Secret retrieved successfully: " ++ JSON_stringify response 3)))
      /\ (tool = "create-project" ->
          out = inr (text_content
                       ("Project created successfully: " ++ JSON_stringify response 3)))
      /\ (tool = "create-environment" ->
          out = inr (text_content
                       ("Environment created successfully: "
                          ++ JSON_stringify response 3)))
      /\ (tool = "create-folder" ->
          out = inr (text_content
                       ("Folder created successfully: " ++ JSON_stringify response 3)))
      /\ (tool = "invite-members-to-project" ->
          out = inr (text_content
                       ("Members successfully invited to project: "
                          ++ JSON_stringify response 3)))
      /\ (tool = "create-secret" ->
          forall secret, prop "secret" response = inr secret ->
          out = inr (text_content
                       ("Secret created successfully: " ++ JSON_stringify secret 3)))
      /\ (tool = "update-secret" ->
          forall secret, prop "secret" response = inr secret ->
          out = inr (text_content
                       ("Secret updated successfully. Updated secret: "
                          ++ JSON_stringify secret 3)))
      /\ (tool = "delete-secret" ->
          forall (secret : value) (secretKey : string),
            prop "secret" response = inr secret ->
            prop "secretKey" secret = inr (VStr secretKey) ->
            out = inr (text_content
                         ("Secret deleted successfully: " ++ secretKey)))).
Proof.
  split.
  - intros params args tool data s token response w1 Hn Ha Hv Hl Hresp out.
    subst out. unfold validated in Hv.
    repeat match goal with |- _ /\ _ => split end;
      intros ->; simpl in Hv; intros;
      http_steps; rewrite Hn, Ha; simpl; rewrite ?Hv; simpl;
      rewrite Hl; simpl; answer Hresp; simpl;
      repeat match goal with
             | H : prop _ _ = inr _ |- _ => rewrite H; simpl
             | H : find_throwing _ _ = inr _ |- _ => rewrite H; simpl
             | H : truthy _ = true |- _ => rewrite H; simpl
             end;
      reflexivity.
  - intros params args tool data s s1 response Hn Ha Hv Hauth Hresp out.
    subst out. unfold validated in Hv.
    repeat match goal with |- _ /\ _ => split end;
      intros ->; simpl in Hv; intros;
      try (split; intros);
      stdio_steps; rewrite Hauth, Hn, Ha; simpl; rewrite ?Hv; simpl;
      answer Hresp; simpl;
      repeat match goal with
             | H : prop _ _ = inr _ |- _ => rewrite H; simpl
             end;
      try reflexivity.
    + subst response.
      now rewrite (list_response_without_imports fs records) by assumption.
    + subst response.
      now rewrite (list_response_with_imports fs records imports) by assumption.
Qed.

End Claims.

(** * The theorems at concrete inputs *)

(** ** C1 *)

(** C1 as stated fails in the stdio variant: a [create-secret] call with
    an empty argument object, as the first call of a process, performs the
    credential exchange although [projectId], which the catalog marks
    required, is missing; and when the exchange is rejected the call fails
    with the authentication error, not with a validation error. *)
Lemma C1_counterexample :
  let params := tool_call "create-secret" (VObj []) in
  let out := Stdio.callTool demo_remote demo_env params (Stdio.initial tt) in
  In (Stdio.capability Stdio.createSecretSchema) Stdio.tools
  /\ In "projectId"
        (required (inputSchema (Stdio.capability Stdio.createSecretSchema)))
  /\ field "projectId" [] = None
  /\ log (Stdio.net (snd out)) = [universalAuth_login (credentials demo_env)]
  /\ log (Stdio.net (snd out)) <> log (Stdio.net (Stdio.initial tt))
  /\ fst (Stdio.callTool locked_remote demo_env params (Stdio.initial tt))
     = inl (Error "Unauthorized").
Proof.
  simpl. repeat split; try (left; reflexivity); discriminate.
Qed.

Lemma C1_witness :
  (exists errors,
      Http.handleToolCall demo_remote demo_env
        (tool_call "create-secret" (VObj [])) http0
      = (inl (ZodError errors), http0)
      /\ includes (exn_message (ZodError errors)) "projectId")
  /\
  (let s := Stdio.initial tt in
   let auth := Stdio.handleAuthentication demo_remote demo_env s in
   let out :=
     Stdio.callTool demo_remote demo_env (tool_call "create-secret" (VObj [])) s in
   snd out = snd auth
   /\ log (Stdio.net (snd out))
      = (log (Stdio.net s)
           ++ if Stdio.isAuthenticated s then []
              else [universalAuth_login (credentials demo_env)])%list
   /\ (forall e, fst auth = inl e -> fst out = inl e)
   /\ (fst auth = inr tt ->
       exists errors,
         fst out = inl (Error (Stdio.invalid_arguments errors))
         /\ includes (Stdio.invalid_arguments errors) "projectId"))
  /\
  (exists errors,
      Http.handleToolCall demo_remote demo_env
        (tool_call "update-secret"
           (VObj [("projectId", VStr "p1"); ("environmentSlug", VStr "dev")])) http0
      = (inl (ZodError errors), http0)
      /\ includes (exn_message (ZodError errors)) "secretName").
Proof.
  split; [|split].
  - apply (proj1 (C1_missing_required_key_rejected demo_remote demo_env)
             (nth 0 Http.tools (Stdio.capability Stdio.createSecretSchema))
             "projectId" [] (tool_call "create-secret" (VObj [])) http0).
    + simpl. left. reflexivity.
    + simpl. left. reflexivity.
    + reflexivity.
    + reflexivity.
    + reflexivity.
  - apply (proj1 (proj2 (C1_missing_required_key_rejected demo_remote demo_env))
             (Stdio.capability Stdio.createSecretSchema)
             "projectId" [] (tool_call "create-secret" (VObj [])) (Stdio.initial tt)).
    + simpl. left. reflexivity.
    + simpl. left. reflexivity.
    + reflexivity.
    + reflexivity.
    + reflexivity.
  - apply (proj2 (proj2 (C1_missing_required_key_rejected demo_remote demo_env))
             "update-secret" Http.updateSecretSchema "secretName" z.ZodString
             [("projectId", VStr "p1"); ("environmentSlug", VStr "dev")]
             (tool_call "update-secret"
                (VObj [("projectId", VStr "p1"); ("environmentSlug", VStr "dev")]))
             http0).
    + reflexivity.
    + simpl. auto 10.
    + reflexivity.
    + reflexivity.
    + reflexivity.
    + reflexivity.
Defined.

(** ** C2 *)

(** C2 as stated fails: in the HTTP variant [list-secrets] serializes the
    records with all their metadata, not their reduced projection; and a
    tool other than [list-secrets] need not serialize the full response:
    stdio [delete-secret] prints only the key of the deleted secret. *)
Lemma C2_counterexample :
  fst (Http.handleToolCall demo_remote demo_env
         (tool_call "list-secrets" scope_args) http0)
  = inr (text_content ("Secrets: " ++ JSON_stringify demo_listing 3))
  /\ demo_listing = VObj [("secrets", VArr [VObj demo_record])]
  /\ JSON_stringify demo_listing 3
     <> JSON_stringify (VObj [("secrets", VArr [key_value_only demo_record])]) 3
  /\ fst (demo_remote (secrets_deleteSecret (VStr "API_KEY") VUndef) tt)
     = inr (VObj [("secret", demo_secret)])
  /\ fst (Stdio.callTool demo_remote demo_env
            (tool_call "delete-secret" (VObj (secret_args "API_KEY")))
            (Stdio.initial tt))
     = inr (text_content "Secret deleted successfully: API_KEY").
Proof.
  repeat split; try reflexivity.
  intros H. vm_compute in H. discriminate H.
Qed.

Lemma C2_witness :
  fst (Http.handleToolCall (uniform_remote demo_listing) demo_env
         (tool_call "list-secrets" scope_args) http0)
  = inr (text_content ("Secrets: " ++ JSON_stringify demo_listing 3))
  /\ fst (Stdio.callTool (uniform_remote demo_listing) demo_env
            (tool_call "list-secrets" scope_args) (Stdio.initial tt))
     = inr (text_content
              (JSON_stringify
                 (VObj [("secrets", VArr (map key_value_only [demo_record]))]) 0))
  /\ fst (Stdio.callTool (uniform_remote demo_listing_with_import) demo_env
            (tool_call "list-secrets" scope_args) (Stdio.initial tt))
     = inr (text_content
              (JSON_stringify
                 (VObj [("secrets", VArr (map key_value_only [demo_record]));
                        ("imports",
                         VArr (map import_reduced [(demo_import, [demo_record])]))])
                 0)).
Proof.
  assert (Hresp : forall response c,
             is_login c = false -> fst (uniform_remote response c tt) = inr response).
  { intros response c Hc. unfold uniform_remote. rewrite Hc. reflexivity. }
  split; [|split].
  - destruct (proj1 (C2_result_translation (uniform_remote demo_listing) demo_env)
                (tool_call "list-secrets" scope_args) scope_args "list-secrets"
                (scope ++ [("secretPath", VStr "/")])%list
                http0 (VObj [("accessToken", VStr "t0ken")]) demo_listing tt
                eq_refl eq_refl eq_refl eq_refl (Hresp demo_listing))
      as (Hlist & _).
    apply Hlist. reflexivity.
  - destruct (proj2 (C2_result_translation (uniform_remote demo_listing) demo_env)
                (tool_call "list-secrets" scope_args) scope_args "list-secrets"
                (scope ++ [("secretPath", VStr "/");
                           ("expandSecretReferences", VBool true);
                           ("includeImports", VBool true)])%list
                (Stdio.initial tt) stdio_authenticated demo_listing
                eq_refl eq_refl eq_refl eq_refl (Hresp demo_listing))
      as (Hlist & _).
    destruct (Hlist eq_refl [("secrets", VArr [demo_secret])] [demo_record]
                eq_refl eq_refl) as (Hwithout & _).
    apply Hwithout. reflexivity.
  - destruct (proj2 (C2_result_translation (uniform_remote demo_listing_with_import)
                       demo_env)
                (tool_call "list-secrets" scope_args) scope_args "list-secrets"
                (scope ++ [("secretPath", VStr "/");
                           ("expandSecretReferences", VBool true);
                           ("includeImports", VBool true)])%list
                (Stdio.initial tt) stdio_authenticated demo_listing_with_import
                eq_refl eq_refl eq_refl eq_refl (Hresp demo_listing_with_import))
      as (Hlist & _).
    destruct (Hlist eq_refl
                [("secrets", VArr [demo_secret]); ("imports", VArr [VObj demo_import])]
                [demo_record] eq_refl eq_refl) as (_ & Hwith).
    apply (Hwith [(demo_import, [demo_record])]).
    + reflexivity.
    + repeat constructor.
Defined.

(** ** C3 *)


(** ** C4 *)

Lemma C4_witness :
  Http.handleJsonRpcRequest demo_remote demo_env "1.0.0"
    (rpc (Some (VNum 7)) "tools/list" VUndef) http0
  = (Http.json 200
       (VObj [("jsonrpc", VStr "2.0");
              ("result", VObj [("tools", VArr (map Tool_value Http.tools))]);
              ("id", VNum 7)]),
     http0).
Proof.
  exact (proj1 (C4_tools_list_fixed_catalog demo_remote demo_env "1.0.0")
           (rpc (Some (VNum 7)) "tools/list" VUndef) http0 eq_refl).
Defined.

(** ** C5 *)

(** C5 as stated fails in the stdio variant: a [create-project] call
    with a string [projectName] and no [type] is rejected by validation
    and no project is created. *)
Lemma C5_counterexample :
  let params := tool_call "create-project" (VObj [("projectName", VStr "payments")]) in
  let out := Stdio.callTool demo_remote demo_env params stdio_authenticated in
  fst out = inl (Error "Invalid arguments: type: Required")
  /\ log (Stdio.net (snd out)) = log (Stdio.net stdio_authenticated)
  /\ In "type" (required (inputSchema (Stdio.capability Stdio.createProjectSchema))).
Proof.
  simpl. repeat split. right. left. reflexivity.
Qed.

Lemma C5_witness :
  log (snd (Http.handleToolCall demo_remote demo_env
              (tool_call "create-project" (VObj [("projectName", VStr "payments")]))
              http0))
  = [universalAuth_login (credentials demo_env);
     projects_create
       (VObj [("name", VStr "payments"); ("workspaceSlug", VUndef);
              ("organizationId", VUndef)])]
  /\ log (Stdio.net (snd (Stdio.callTool demo_remote demo_env
                            (tool_call "create-project"
                               (VObj [("projectName", VStr "payments");
                                      ("type", VStr "kms")]))
                            stdio_authenticated)))
     = [universalAuth_login (credentials demo_env);
        projects_create
          (VObj [("projectName", VStr "payments"); ("projectDescription", VUndef);
                 ("kmsKeyId", VUndef); ("slug", VUndef); ("template", VUndef);
                 ("type", VStr "kms")])]
  /\ (exists errors,
         Stdio.callTool demo_remote demo_env
           (tool_call "create-project" (VObj [("projectName", VStr "payments")]))
           stdio_authenticated
         = (inl (Error (Stdio.invalid_arguments errors)), stdio_authenticated)
         /\ includes (Stdio.invalid_arguments errors) "type").
Proof.
  pose proof (C5_create_project_arguments demo_remote demo_env) as (Hhttp & Hstdio & Htype).
  split; [|split].
  - rewrite (proj2 (Hhttp (tool_call "create-project"
                             (VObj [("projectName", VStr "payments")]))
                      [("projectName", VStr "payments")] "payments" http0
                      (VObj [("accessToken", VStr "t0ken")]) tt
                      eq_refl eq_refl eq_refl eq_refl eq_refl eq_refl)).
    reflexivity.
  - rewrite (proj2 (Hstdio (tool_call "create-project"
                              (VObj [("projectName", VStr "payments");
                                     ("type", VStr "kms")]))
                      [("projectName", VStr "payments"); ("type", VStr "kms")]
                      "payments" "kms" stdio_authenticated stdio_authenticated
                      eq_refl eq_refl eq_refl eq_refl eq_refl
                      eq_refl eq_refl eq_refl eq_refl eq_refl)).
    reflexivity.
  - exact (Htype (tool_call "create-project" (VObj [("projectName", VStr "payments")]))
             [("projectName", VStr "payments")] stdio_authenticated stdio_authenticated
             eq_refl eq_refl eq_refl eq_refl).
Defined.

(** ** C6 *)

(** Passing the root path explicitly, as a new first or as a new last
    member of the argument object. *)
Lemma root_made_explicit_cons (input : list (string * value)) :
  field "secretPath" input = None ->
  root_made_explicit input (("secretPath", VStr "/") :: input).
Proof.
  intros H. repeat split; [assumption|].
  intros k Hk. simpl. now destruct (String.eqb_spec k "secretPath").
Qed.

Lemma root_made_explicit_set (input : list (string * value)) :
  field "secretPath" input = None ->
  root_made_explicit input (set_field "secretPath" (VStr "/") input).
Proof.
  intros H. split; [assumption|]. revert H.
  induction input as [|[k' v'] rest IH]; intros H.
  - split; [reflexivity|]. intros k Hk. cbn [set_field field].
    now destruct (String.eqb_spec k "secretPath").
  - cbn [field] in H. cbn [set_field].
    destruct (String.eqb "secretPath" k') eqn:E; [discriminate|].
    destruct (IH H) as (Hset & Hsame).
    split; [cbn [field]; rewrite E; exact Hset|].
    intros k Hk. cbn [field].
    destruct (String.eqb k k'); [reflexivity | now apply Hsame].
Qed.

Lemma C6_witness :
  let omitted := VObj (secret_args "API_KEY") in
  let explicit := VObj (("secretPath", VStr "/") :: secret_args "API_KEY") in
  z.parse Http.deleteSecretSchema explicit = z.parse Http.deleteSecretSchema omitted
  /\ (forall s : Http.State,
         Http.handleToolCall demo_remote demo_env (tool_call "delete-secret" explicit) s
         = Http.handleToolCall demo_remote demo_env (tool_call "delete-secret" omitted) s)
  /\ (forall s : Stdio.State unit,
         Stdio.callTool demo_remote demo_env (tool_call "delete-secret" explicit) s
         = Stdio.callTool demo_remote demo_env (tool_call "delete-secret" omitted) s).
Proof.
  intros omitted explicit.
  assert (Hroot : root_made_explicit (secret_args "API_KEY")
                    (("secretPath", VStr "/") :: secret_args "API_KEY")).
  { apply root_made_explicit_cons. reflexivity. }
  pose proof (C6_omitted_secretPath_is_root demo_remote demo_env
                "delete-secret" Http.deleteSecretSchema
                (secret_args "API_KEY")
                (("secretPath", VStr "/") :: secret_args "API_KEY")
                (tool_call "delete-secret" omitted)
                (tool_call "delete-secret" explicit)
                Hroot eq_refl eq_refl eq_refl eq_refl eq_refl) as (Hhttp & _).
  pose proof (C6_omitted_secretPath_is_root demo_remote demo_env
                "delete-secret" (Stdio.zod Stdio.deleteSecretSchema)
                (secret_args "API_KEY")
                (("secretPath", VStr "/") :: secret_args "API_KEY")
                (tool_call "delete-secret" omitted)
                (tool_call "delete-secret" explicit)
                Hroot eq_refl eq_refl eq_refl eq_refl eq_refl) as (_ & Hstdio).
  destruct (Hhttp eq_refl) as (Hparse & Hcall).
  destruct (Hstdio eq_refl) as (_ & Scall).
  split; [exact Hparse|]. split; [exact Hcall | exact Scall].
Defined.

(** ** C7 *)

(** C7 as stated fails: an envelope without [id] whose method is unknown
    is answered with a 404 error response, and a [tools/call] without
    [id] that fails validation with a 500 error response. *)
Lemma C7_counterexample :
  let notification := [("jsonrpc", VStr "2.0"); ("method", VStr "bogus/method")] in
  field "id" notification = None
  /\ Http.handleJsonRpcRequest demo_remote demo_env "1.0.0" (VObj notification) http0
     = (Http.json 404
          (VObj [("jsonrpc", VStr "2.0");
                 ("error",
                  VObj [("code", VNum (-32601));
                        ("message", VStr "Method not found: bogus/method")]);
                 ("id", VUndef)]),
        http0)
  /\ Http.status
       (fst (Http.handleJsonRpcRequest demo_remote demo_env "1.0.0"
               (rpc None "tools/call" (tool_call "create-secret" (VObj []))) http0))
     = 500.
Proof.
  repeat split.
Qed.

Lemma C7_witness :
  Http.handleJsonRpcRequest demo_remote demo_env "1.0.0"
    (rpc None "notifications/initialized" VUndef) http0
  = ({| Http.status := 204; Http.body := None |}, http0)
  /\ Http.handleJsonRpcRequest demo_remote demo_env "1.0.0"
       (rpc (Some (VNum 3)) "notifications/initialized" VUndef) http0
     = ({| Http.status := 204; Http.body := None |}, http0)
  /\ Http.handleJsonRpcRequest demo_remote demo_env "1.0.0"
       (VObj [("jsonrpc", VStr "2.0"); ("method", VStr "bogus/method")]) http0
     = (Http.json 404
          (VObj [("jsonrpc", VStr "2.0");
                 ("error",
                  VObj [("code", VNum (-32601));
                        ("message", VStr "Method not found: bogus/method")]);
                 ("id", VUndef)]),
        http0)
  /\ (exists error,
         Http.handleToolCall demo_remote demo_env (tool_call "no-such-tool" VUndef) http0
         = (inl error, http0)
         /\ Http.handleJsonRpcRequest demo_remote demo_env "1.0.0"
              (rpc None "tools/call" (tool_call "no-such-tool" VUndef)) http0
            = (Http.json 500
                 (VObj [("jsonrpc", VStr "2.0");
                        ("error",
                         VObj [("code", VNum (-32603));
                               ("message",
                                VStr ("Internal error: " ++ exn_message error))]);
                        ("id", VUndef)]),
               http0)).
Proof.
  pose proof (C7_notifications_are_not_told_apart demo_remote demo_env "1.0.0")
    as (Hnote & Hunknown & Hfail).
  split; [|split; [|split]].
  - exact (Hnote (rpc None "notifications/initialized" VUndef) http0 eq_refl).
  - exact (Hnote (rpc (Some (VNum 3)) "notifications/initialized" VUndef) http0 eq_refl).
  - exact (Hunknown [("jsonrpc", VStr "2.0"); ("method", VStr "bogus/method")] http0
             eq_refl eq_refl eq_refl eq_refl eq_refl eq_refl).
  - exists (Error "Unknown tool: no-such-tool"). split; [reflexivity|].
    exact (Hfail [("jsonrpc", VStr "2.0"); ("method", VStr "tools/call");
                  ("params", tool_call "no-such-tool" VUndef)]
             http0 http0 (Error "Unknown tool: no-such-tool")
             eq_refl eq_refl
             (fun name H =>
                match H in _ = r
                      return match r with
                             | inr n => primitive n = true
                             | inl _ => True
                             end
                with eq_refl => eq_refl end)
             eq_refl).
Defined.

(** ** C8 *)

Lemma C8_witness :
  Stdio.isAuthenticated
    (snd (Stdio.handle demo_remote demo_env
            (Stdio.CallTool (tool_call "list-secrets" scope_args)) stdio_authenticated))
  = true
  /\ (exists params token w,
         Stdio.CallTool (tool_call "list-secrets" scope_args) = Stdio.CallTool params
         /\ demo_remote (universalAuth_login (credentials demo_env)) tt = (inr token, w))
  /\ Stdio.isAuthenticated
       (snd (Stdio.callTool demo_remote demo_env
               (tool_call "create-secret" (VObj [])) (Stdio.initial tt)))
     = true
  /\ (let rs := [Stdio.CallTool (tool_call "list-secrets" scope_args);
                 Stdio.ListTools;
                 Stdio.CallTool (tool_call "create-secret" (VObj []))] in
      let s' := snd (Stdio.serve demo_remote demo_env rs stdio_authenticated) in
      Stdio.isAuthenticated s' = true
      /\ exists calls,
           log (Stdio.net s') = (log (Stdio.net stdio_authenticated) ++ calls)%list
           /\ existsb is_login calls = false).
Proof.
  pose proof (C8_isAuthenticated_monotonic demo_remote demo_env)
    as (_ & Hstep & Hauth & Hrun).
  split; [|split; [|split]].
  - exact (proj1 (Hstep (Stdio.CallTool (tool_call "list-secrets" scope_args))
                    stdio_authenticated) eq_refl).
  - exact (proj2 (Hstep (Stdio.CallTool (tool_call "list-secrets" scope_args))
                    (Stdio.initial tt)) eq_refl eq_refl).
  - exact (Hauth (tool_call "create-secret" (VObj [])) (Stdio.initial tt) eq_refl).
  - exact (Hrun [Stdio.CallTool (tool_call "list-secrets" scope_args);
                 Stdio.ListTools;
                 Stdio.CallTool (tool_call "create-secret" (VObj []))]
             stdio_authenticated eq_refl).
Defined.

(** ** C9 *)

Lemma C9_witness :
  let params := tool_call "get-secret" (VObj (secret_args "MISSING")) in
  Http.handleToolCall demo_remote demo_env params http0
  = (inr (text_content "Secret not found: MISSING"),
     {| world := tt;
        log := [universalAuth_login (credentials demo_env);
                secrets_listSecrets
                  (VObj [("environment", VStr "dev"); ("projectId", VStr "p-1");
                         ("secretPath", VStr "/");
                         ("expandSecretReferences", VUndef);
                         ("includeImports", VUndef)])] |})
  /\ Http.status
       (fst (Http.handleJsonRpcRequest demo_remote demo_env "1.0.0"
               (rpc (Some (VNum 5)) "tools/call" params) http0))
     = 200.
Proof.
  intros params.
  pose proof (C9_get_secret_not_found_is_a_result demo_remote demo_env "1.0.0"
                params (secret_args "MISSING")
                (secret_args "MISSING" ++ [("secretPath", VStr "/")])%list
                [("secrets", VArr [demo_secret])]
                [("jsonrpc", VStr "2.0"); ("id", VNum 5);
                 ("method", VStr "tools/call"); ("params", params)]
                "MISSING" http0 (VObj [("accessToken", VStr "t0ken")])
                [demo_secret] tt tt
                eq_refl eq_refl eq_refl eq_refl eq_refl eq_refl eq_refl) as H.
  assert (Habsent :
            Forall (fun record =>
                      exists k, prop "secretKey" record = inr k
                                /\ strict_equals k (VStr "MISSING") = false)
                   [demo_secret]).
  { repeat constructor. exists (VStr "API_KEY"). split; reflexivity. }
  destruct (H Habsent eq_refl eq_refl) as (Hcall & Hrpc).
  split; [exact Hcall|].
  change (rpc (Some (VNum 5)) "tools/call" params)
    with (VObj [("jsonrpc", VStr "2.0"); ("id", VNum 5);
                ("method", VStr "tools/call"); ("params", params)]).
  rewrite Hrpc. reflexivity.
Defined.

(** ** C10 *)

Lemma C10_witness :
  let args := VObj (secret_args "API_KEY" ++ [("secretValue", VStr "n3w")])%list in
  Http.handleToolCall demo_remote demo_env (tool_call "update-secret" args) http0
  = (inr (text_content
            ("Secret updated successfully: "
               ++ JSON_stringify (VObj [("secret", demo_secret)]) 3)),
     {| world := tt;
        log := [universalAuth_login (credentials demo_env);
                secrets_updateSecret (VStr "API_KEY")
                  (VObj [("environment", VStr "dev"); ("projectId", VStr "p-1");
                         ("secretPath", VStr "/"); ("secretValue", VStr "n3w")])] |})
  /\ (exists e,
         z.parse Http.updateSecretSchema scope_args = inl e
         /\ Http.handleToolCall demo_remote demo_env
              (tool_call "update-secret" scope_args) http0
            = (inl e, http0)).
Proof.
  intros args.
  pose proof (C10_update_secret_callable_not_listed demo_remote demo_env)
    as (_ & _ & _ & Hreject & Hrun).
  split.
  - exact (Hrun (tool_call "update-secret" args) args
             (secret_args "API_KEY"
                ++ [("secretValue", VStr "n3w"); ("secretPath", VStr "/")])%list
             http0 (VObj [("accessToken", VStr "t0ken")])
             (VObj [("secret", demo_secret)]) tt tt
             eq_refl eq_refl eq_refl eq_refl eq_refl).
  - eexists. split; [reflexivity|].
    exact (Hreject (tool_call "update-secret" scope_args) scope_args _ http0
             eq_refl eq_refl eq_refl).
Defined.

(** * Further properties of the code *)

(** ** Process start *)

Lemma env_trim_min1_ok (trim : string -> string) (k : string) (pe : ProcessEnv)
      (t : string) :
  env_trim_min1 trim k pe = inr t
  <-> exists s, getenv k pe = Some s /\ trim s = t /\ t <> "".
Proof.
  unfold env_trim_min1. destruct (getenv k pe) as [s|].
  - destruct (trim s) as [|c r] eqn:E; simpl.
    + split; [discriminate|]. intros (s' & [= <-] & Ht & Hne). congruence.
    + split.
      * intros [= <-]. exists s. repeat split; [assumption | discriminate].
      * intros (s' & [= <-] & Ht & _). congruence.
  - split; [discriminate|]. intros (s & H & _). discriminate.
Qed.

(** Start-up of the HTTP variant succeeds exactly when the client
    identifier and the client secret are set to strings that are not blank
    and the host URL is set; the credentials it keeps are the trimmed ones,
    the host URL is kept as it is. *)
Theorem Http_start_accepts (trim : string -> string) (pe : ProcessEnv) (env : Env) :
  HttpStart.getEnvironmentVariables trim pe = inr env
  <-> exists id secret host,
        getenv "INFISICAL_UNIVERSAL_AUTH_CLIENT_ID" pe = Some id
        /\ getenv "INFISICAL_UNIVERSAL_AUTH_CLIENT_SECRET" pe = Some secret
        /\ getenv "INFISICAL_HOST_URL" pe = Some host
        /\ trim id <> "" /\ trim secret <> ""
        /\ env = {| INFISICAL_UNIVERSAL_AUTH_CLIENT_ID := trim id;
                    INFISICAL_UNIVERSAL_AUTH_CLIENT_SECRET := trim secret;
                    INFISICAL_HOST_URL := host |}.
Proof.
  unfold HttpStart.getEnvironmentVariables, env_object.
  pose proof (env_trim_min1_ok trim "INFISICAL_UNIVERSAL_AUTH_CLIENT_ID" pe) as Hid.
  pose proof (env_trim_min1_ok trim "INFISICAL_UNIVERSAL_AUTH_CLIENT_SECRET" pe) as Hsec.
  unfold env_string.
  destruct (env_trim_min1 trim "INFISICAL_UNIVERSAL_AUTH_CLIENT_ID" pe) as [e1 | i].
  - split; [discriminate|].
    intros (id & secret & host & H1 & _ & _ & Hne & _ & _).
    assert (X : @inl (list EnvIssue) string e1 = inr (trim id))
      by (apply Hid; eauto).
    discriminate X.
  - destruct (proj1 (Hid i) eq_refl) as (id & Hgi & Hti & Hni).
    destruct (env_trim_min1 trim "INFISICAL_UNIVERSAL_AUTH_CLIENT_SECRET" pe) as [e2 | sc].
    + split; [discriminate|].
      intros (id' & secret & host & _ & H2 & _ & _ & Hne & _).
      assert (X : @inl (list EnvIssue) string e2 = inr (trim secret))
        by (apply Hsec; eauto).
      discriminate X.
    + destruct (proj1 (Hsec sc) eq_refl) as (secret & Hgs & Hts & Hns).
      destruct (getenv "INFISICAL_HOST_URL" pe) as [h|].
      * split.
        -- intros [= <-]. exists id, secret, h. subst. repeat split; assumption.
        -- intros (id' & secret' & host & H1 & H2 & H3 & _ & _ & ->).
           rewrite Hgi in H1. rewrite Hgs in H2.
           injection H1 as <-. injection H2 as <-. injection H3 as <-.
           now rewrite Hti, Hts.
      * split; [discriminate|].
        intros (id' & secret' & host & _ & _ & H3 & _). discriminate.
Qed.

(** Start-up of the stdio variant succeeds exactly when the client
    identifier and the client secret are set to strings that are not blank;
    the host URL is the one set, or [https://app.infisical.com] when none
    is set. *)
Theorem Stdio_start_accepts (trim : string -> string) (pe : ProcessEnv) (env : Env) :
  StdioStart.getEnvironmentVariables trim pe = inr env
  <-> exists id secret,
        getenv "INFISICAL_UNIVERSAL_AUTH_CLIENT_ID" pe = Some id
        /\ getenv "INFISICAL_UNIVERSAL_AUTH_CLIENT_SECRET" pe = Some secret
        /\ trim id <> "" /\ trim secret <> ""
        /\ env = {| INFISICAL_UNIVERSAL_AUTH_CLIENT_ID := trim id;
                    INFISICAL_UNIVERSAL_AUTH_CLIENT_SECRET := trim secret;
                    INFISICAL_HOST_URL :=
                      match getenv "INFISICAL_HOST_URL" pe with
                      | Some host => host
                      | None => "https://app.infisical.com"
                      end |}.
Proof.
  unfold StdioStart.getEnvironmentVariables, env_object.
  pose proof (env_trim_min1_ok trim "INFISICAL_UNIVERSAL_AUTH_CLIENT_ID" pe) as Hid.
  pose proof (env_trim_min1_ok trim "INFISICAL_UNIVERSAL_AUTH_CLIENT_SECRET" pe) as Hsec.
  unfold env_string_default.
  destruct (env_trim_min1 trim "INFISICAL_UNIVERSAL_AUTH_CLIENT_ID" pe) as [e1 | i].
  - split; [discriminate|].
    intros (id & secret & H1 & _ & Hne & _ & _).
    assert (X : @inl (list EnvIssue) string e1 = inr (trim id))
      by (apply Hid; eauto).
    discriminate X.
  - destruct (proj1 (Hid i) eq_refl) as (id & Hgi & Hti & Hni).
    destruct (env_trim_min1 trim "INFISICAL_UNIVERSAL_AUTH_CLIENT_SECRET" pe) as [e2 | sc].
    + destruct (getenv "INFISICAL_HOST_URL" pe);
        (split; [discriminate|];
         intros (id' & secret & _ & H2 & _ & Hne & _);
         assert (X : @inl (list EnvIssue) string e2 = inr (trim secret))
           by (apply Hsec; eauto);
         discriminate X).
    + destruct (proj1 (Hsec sc) eq_refl) as (secret & Hgs & Hts & Hns).
      destruct (getenv "INFISICAL_HOST_URL" pe) as [h|];
        (split;
         [ intros [= <-]; exists id, secret; subst; repeat split; assumption
         | intros (id' & secret' & H1 & H2 & _ & _ & ->);
           rewrite Hgi in H1; rewrite Hgs in H2;
           injection H1 as <-; injection H2 as <-;
           now rewrite Hti, Hts ]).
Qed.

Lemma Http_start_witness :
  HttpStart.getEnvironmentVariables space_trim
    (("INFISICAL_HOST_URL", "https://eu.infisical.com") :: demo_process_env)
  = inr {| INFISICAL_UNIVERSAL_AUTH_CLIENT_ID := "client-id";
           INFISICAL_UNIVERSAL_AUTH_CLIENT_SECRET := "client-secret";
           INFISICAL_HOST_URL := "https://eu.infisical.com" |}
  /\ HttpStart.getEnvironmentVariables space_trim demo_process_env
     = inl [env_required "INFISICAL_HOST_URL"].
Proof.
  split.
  - apply (proj2 (Http_start_accepts space_trim _ _)).
    exists "  client-id ", "client-secret", "https://eu.infisical.com".
    repeat split; try reflexivity; vm_compute; discriminate.
  - reflexivity.
Defined.

Lemma Stdio_start_witness :
  StdioStart.getEnvironmentVariables space_trim demo_process_env
  = inr {| INFISICAL_UNIVERSAL_AUTH_CLIENT_ID := "client-id";
           INFISICAL_UNIVERSAL_AUTH_CLIENT_SECRET := "client-secret";
           INFISICAL_HOST_URL := "https://app.infisical.com" |}.
Proof.
  apply (proj2 (Stdio_start_accepts space_trim _ _)).
  exists "  client-id ", "client-secret".
  repeat split; try reflexivity; vm_compute; discriminate.
Defined.

(** ** Which remote calls a tool call performs *)

Lemma silent_pure {S A : Type} (r : exn + A) : silent (S := S) (pure r).
Proof. intros s. reflexivity. Qed.

Lemma silent_ret {S A : Type} (a : A) : silent (S := S) (ret a).
Proof. intros s. reflexivity. Qed.

Lemma silent_throw {S A : Type} (e : exn) : silent (S := S) (@throw S A e).
Proof. intros s. reflexivity. Qed.

Lemma silent_bind {S A B : Type} (m : M S A) (k : A -> M S B) :
  silent m -> (forall a, silent (k a)) -> silent (bind m k).
Proof.
  intros Hm Hk s. unfold bind. specialize (Hm s).
  destruct (m s) as [[e | a] s1]; simpl in *; subst; [reflexivity | apply Hk].
Qed.

Lemma silent_if {S A : Type} (b : bool) (m1 m2 : M S A) :
  silent m1 -> silent m2 -> silent (if b then m1 else m2).
Proof. now destruct b. Qed.

Ltac silent_tac :=
  repeat first
    [ apply silent_if
    | apply silent_bind; [|intros ?]
    | apply silent_pure
    | apply silent_ret
    | apply silent_throw ].

Section CallShapes.

Context {World : Type}.
Variable remote : Remote World.
Variable env : Env.
Variable version : string.

Lemma Http_one_await (A : Type) (op : call) (k : value -> M (Net World) A) :
  is_login op = false -> (forall a, silent (k a)) ->
  Http_at_most_one_operation (bind (Http.await remote op) k).
Proof.
  intros Hop Hk s. right. exists op. split; [assumption|].
  unfold bind, Http.await, request.
  destruct (remote op (world s)) as [[msg | v] w]; simpl; [reflexivity|].
  now rewrite Hk.
Qed.

Lemma Http_shaped_silent (A : Type) (m : M (Net World) A) :
  silent m -> Http_shaped env m.
Proof.
  intros H s. exists []. rewrite H, app_nil_r. split; [reflexivity | now left].
Qed.

Lemma Http_shaped_pure (A B : Type) (r : exn + A) (k : A -> M (Net World) B) :
  (forall a, Http_shaped env (k a)) -> Http_shaped env (bind (pure r) k).
Proof.
  intros Hk s. unfold bind, pure. destruct r as [e | a]; [|apply Hk].
  exists []. simpl. rewrite app_nil_r. split; [reflexivity | now left].
Qed.

Lemma Http_shaped_if (A : Type) (b : bool) (m1 m2 : M (Net World) A) :
  Http_shaped env m1 -> Http_shaped env m2 -> Http_shaped env (if b then m1 else m2).
Proof. now destruct b. Qed.

Lemma Http_shaped_auth (A : Type) (k : unit -> M (Net World) A) :
  (forall u, Http_at_most_one_operation (k u)) ->
  Http_shaped env (bind (Http.createAuthenticatedSdk remote env) k).
Proof.
  intros Hk s.
  unfold bind, Http.createAuthenticatedSdk, try_catch, bind, Http.await, request, ret, throw.
  destruct (remote (universalAuth_login (credentials env)) (world s)) as [[msg | v] w];
    simpl.
  - eexists. split; [reflexivity|]. right. now left.
  - destruct (Hk tt {| world := w;
                       log := (log s ++ [universalAuth_login (credentials env)])%list |})
      as [-> | (op & Hop & ->)]; simpl.
    + eexists. split; [reflexivity|]. right. now left.
    + rewrite <- app_assoc. eexists. split; [reflexivity|].
      right. right. now exists op.
Qed.

Ltac Http_shape_tac :=
  repeat first
    [ apply Http_shaped_if
    | apply Http_shaped_auth; intros ?;
      first [ apply Http_one_await; [reflexivity | intros ?; solve [silent_tac]]
            | fail 2 ]
    | apply Http_shaped_pure; intros ?
    | apply Http_shaped_silent; solve [silent_tac] ].

(** In the HTTP variant one tool call performs no remote call, or the
    credential exchange alone, or the exchange immediately followed by one
    secret-management operation: no operation runs without a fresh
    exchange in front of it in the same call, and no call runs two
    operations. *)
Theorem Http_calls_of_a_tool_call (params : value) (s : Net World) :
  exists calls,
    log (snd (Http.handleToolCall remote env params s)) = (log s ++ calls)%list
    /\ Http_call_shape (universalAuth_login (credentials env)) calls.
Proof.
  revert s. change (Http_shaped env (Http.handleToolCall remote env params)).
  unfold Http.handleToolCall. Http_shape_tac.
Qed.

Lemma Stdio_one_await (op : call) (k : value -> M (Stdio.State World) value) :
  is_login op = false -> (forall a, silent (k a)) ->
  Stdio_at_most_one_operation (bind (Stdio.await remote op) k).
Proof.
  intros Hop Hk s. right. exists op. split; [assumption|].
  unfold bind, Stdio.await, request.
  destruct (remote op (world (Stdio.net s))) as [[msg | v] w]; simpl;
    [split; reflexivity|].
  now rewrite Hk.
Qed.

Lemma Stdio_one_silent (m : M (Stdio.State World) value) :
  silent m -> Stdio_at_most_one_operation m.
Proof. intros H s. left. apply H. Qed.

Lemma Stdio_one_pure (A : Type) (r : exn + A) (k : A -> M (Stdio.State World) value) :
  (forall a, Stdio_at_most_one_operation (k a)) ->
  Stdio_at_most_one_operation (bind (pure r) k).
Proof.
  intros Hk s. unfold bind, pure. destruct r as [e | a]; [now left | apply Hk].
Qed.

Lemma Stdio_one_if (b : bool) (m1 m2 : M (Stdio.State World) value) :
  Stdio_at_most_one_operation m1 -> Stdio_at_most_one_operation m2 ->
  Stdio_at_most_one_operation (if b then m1 else m2).
Proof. now destruct b. Qed.

Ltac Stdio_shape_tac :=
  repeat first
    [ apply Stdio_one_if
    | apply Stdio_one_await; [reflexivity | intros ?; solve [silent_tac]]
    | apply Stdio_one_pure; intros ?
    | apply Stdio_one_silent; solve [silent_tac] ].

Lemma dispatch_then_one_operation (params : value) :
  exists rest : M (Stdio.State World) value,
    Stdio_at_most_one_operation rest
    /\ Stdio.dispatch remote env params
       = bind (Stdio.handleAuthentication remote env) (fun _ => rest).
Proof.
  eexists. split; [|unfold Stdio.dispatch; reflexivity].
  Stdio_shape_tac.
Qed.

(** In the stdio variant one tool call performs the credential exchange
    exactly when the flag is down, then at most one secret-management
    operation, and an operation only with the flag up; a call never lowers
    the flag. *)
Theorem Stdio_calls_of_a_tool_call (params : value) (s : Stdio.State World) :
  let s' := snd (Stdio.callTool remote env params s) in
  (Stdio.isAuthenticated s = true -> Stdio.isAuthenticated s' = true)
  /\ exists ops,
       log (Stdio.net s')
       = (log (Stdio.net s)
            ++ (if Stdio.isAuthenticated s then []
                else [universalAuth_login (credentials env)])
            ++ ops)%list
       /\ (ops = []
           \/ exists op,
                ops = [op] /\ is_login op = false
                /\ Stdio.isAuthenticated s' = true).
Proof.
  intros s'. subst s'. rewrite (callTool_state remote env).
  destruct (dispatch_then_one_operation params) as (rest & Hrest & ->).
  unfold bind. destruct (Stdio.isAuthenticated s) eqn:Hflag.
  - rewrite (handleAuthentication_done remote env s Hflag).
    destruct (Hrest s) as [-> | (op & Hop & Hf & Hl)].
    + split; [auto|]. exists []. simpl. rewrite app_nil_r. auto.
    + split; [congruence|]. exists [op]. split; [exact Hl|].
      right. exists op. repeat split; congruence.
  - rewrite (handleAuthentication_first remote env s Hflag).
    destruct (remote (universalAuth_login (credentials env)) (world (Stdio.net s)))
      as [[msg | token] w].
    + split; [discriminate|]. exists []. simpl. auto.
    + split; [discriminate|].
      match goal with
      | |- context [rest ?s1] => destruct (Hrest s1) as [-> | (op & Hop & Hf & Hl)]
      end.
      * exists []. simpl. auto.
      * exists [op]. split.
        -- rewrite Hl. simpl. now rewrite <- app_assoc.
        -- right. exists op. repeat split; [assumption|]. now rewrite Hf.
Qed.

Lemma handle_keeps_invariant (r : Stdio.Request) (s : Stdio.State World) :
  exchanges_then_operations s ->
  exchanges_then_operations (snd (Stdio.handle remote env r s)).
Proof.
  intros (logins & ops & Hlog & Hl & Ho & Hdown).
  destruct r as [|params]; [now exists logins, ops|].
  cbn [Stdio.handle].
  destruct (Stdio_calls_of_a_tool_call params s) as (Hup & new & Hnew & Hshape).
  set (s' := snd (Stdio.callTool remote env params s)) in *.
  destruct (Stdio.isAuthenticated s) eqn:Hflag.
  - specialize (Hup eq_refl).
    exists logins, (ops ++ new)%list. repeat split.
    + rewrite Hnew, Hlog. simpl. now rewrite app_assoc.
    + assumption.
    + rewrite existsb_app, Ho.
      destruct Hshape as [-> | (op & -> & Hop & _)]; simpl; [reflexivity|].
      now rewrite Hop.
    + congruence.
  - rewrite (Hdown eq_refl), app_nil_r in Hlog.
    exists (logins ++ [universalAuth_login (credentials env)])%list, new.
    repeat split.
    + rewrite Hnew, Hlog. now rewrite app_assoc.
    + rewrite forallb_app, Hl. reflexivity.
    + destruct Hshape as [-> | (op & -> & Hop & _)]; simpl; [reflexivity|].
      now rewrite Hop.
    + intros Hoff.
      destruct Hshape as [-> | (op & -> & _ & Hon)]; [reflexivity | congruence].
Qed.

(** Whatever requests a stdio process has served since it started, its
    remote calls are credential exchanges followed by operations only: no
    operation precedes an exchange, none runs while the flag is down, and
    once an operation has run there is no further exchange. *)
Theorem Stdio_exchanges_precede_operations (rs : list Stdio.Request) (w : World) :
  exchanges_then_operations (snd (Stdio.serve remote env rs (Stdio.initial w))).
Proof.
  assert (G : forall rs s, exchanges_then_operations s ->
                           exchanges_then_operations (snd (Stdio.serve remote env rs s))).
  { clear rs. intros rs. induction rs as [|r rs IH]; intros s Hs; [exact Hs|].
    simpl. pose proof (handle_keeps_invariant r s Hs) as H1.
    destruct (Stdio.handle remote env r s) as [o s1]. simpl in H1.
    specialize (IH s1 H1).
    now destruct (Stdio.serve remote env rs s1) as [os s2]. }
  apply G. exists [], []. repeat split; reflexivity.
Qed.

(** ** Replies of the JSON-RPC dispatcher *)

(** Every reply of [handleJsonRpcRequest] is an empty 204, or carries
    [jsonrpc], the [id] of the request ([undefined] when the request has
    none or has no body) and either a [result] with status 200 or an
    [error] with code -32601 and status 404 or code -32603 and status 500.
    For an envelope that is an object and whose method is a primitive
    value (a string, as the protocol has it, or absent) the status is
    decided by the method alone, except for [tools/call], where it tells
    whether the tool call returned or threw; and only [tools/call] can
    touch the state. *)
Theorem Http_replies_are_well_formed :
  (forall (reqbody : value) (s : Net World),
      reply_for (optional_prop "id" reqbody)
        (fst (Http.handleJsonRpcRequest remote env version reqbody s)))
  /\
  (forall (fs : list (string * value)) (s : Net World),
      let method := get "method" fs in
      let out := Http.handleJsonRpcRequest remote env version (VObj fs) s in
      (primitive method = true ->
       Http.status (fst out)
       = (if method === "initialize" then 200
          else if method === "notifications/initialized" then 204
          else if method === "tools/list" then 200
          else if method === "tools/call" then
            match fst (Http.handleToolCall remote env (get "params" fs) s) with
            | inr _ => 200
            | inl _ => 500
            end
          else 404))
      /\ ((method === "tools/call") = false -> snd out = s))
  /\
  (forall (reqbody : value) (s : Net World),
      reqbody = VUndef \/ reqbody = VNull ->
      Http.status (fst (Http.handleJsonRpcRequest remote env version reqbody s)) = 500
      /\ snd (Http.handleJsonRpcRequest remote env version reqbody s) = s).
Proof.
  split; [|split].
  - intros reqbody s. unfold Http.handleJsonRpcRequest, bind, pure, ret.
    destruct reqbody as [| | b | n | str | items | fs]; simpl;
      try (right; right; do 2 eexists;
           split; [right; split; reflexivity | reflexivity]; fail);
      try (right; right; do 2 eexists;
           split; [left; split; reflexivity | reflexivity]; fail).
    destruct (get "method" fs === "initialize").
    { right; left. eexists. split; reflexivity. }
    destruct (get "method" fs === "notifications/initialized").
    { left. split; reflexivity. }
    destruct (get "method" fs === "tools/list").
    { right; left. eexists. split; reflexivity. }
    destruct (get "method" fs === "tools/call").
    { destruct (Http.handleToolCall remote env (get "params" fs) s) as [[e | result] s'];
        simpl.
      - right; right. do 2 eexists. split; [right; split; reflexivity | reflexivity].
      - right; left. eexists. split; reflexivity. }
    right; right. do 2 eexists. split; [left; split; reflexivity | reflexivity].
  - intros fs s method out. subst method out.
    unfold Http.handleJsonRpcRequest, bind, pure, ret. simpl prop. cbv beta iota.
    destruct (get "method" fs === "initialize"); [split; reflexivity|].
    destruct (get "method" fs === "notifications/initialized"); [split; reflexivity|].
    destruct (get "method" fs === "tools/list"); [split; reflexivity|].
    destruct (get "method" fs === "tools/call").
    + destruct (Http.handleToolCall remote env (get "params" fs) s) as [[e | result] s'];
        split; try reflexivity; discriminate.
    + split; reflexivity.
  - intros reqbody s [-> | ->]; split; reflexivity.
Qed.

(** ** Failures of the remote side *)

Ltac reject_with Hrej :=
  match goal with
  | |- context [remote ?c ?w] =>
      let r := fresh "r" in
      let w' := fresh "w" in
      let E := fresh "E" in
      let H := fresh "H" in
      destruct (remote c w) as [r w'] eqn:E;
      pose proof (Hrej c eq_refl) as H; rewrite E in H; simpl in H; subst r
  end.

(** In the HTTP variant, when the credential exchange is rejected, a
    validated call of a tool that goes to the remote API throws
    [Authentication failed: <message>], performs no operation, and is
    answered with the 500 error -32603 carrying that message and the
    [id] of the request. *)
Theorem Http_authentication_failure :
  forall (params args : value) (tool msg : string) (data rb : list (string * value))
         (s : Net World) (w1 : World),
    In tool Http_remote_tools ->
    prop "name" params = inr (VStr tool) ->
    prop "arguments" params = inr args ->
    validated Http_validator tool args data ->
    let login := universalAuth_login (credentials env) in
    remote login (world s) = (inl msg, w1) ->
    let s' := {| world := w1; log := (log s ++ [login])%list |} in
    Http.handleToolCall remote env params s
    = (inl (Error ("Authentication failed: " ++ msg)), s')
    /\ (get "method" rb = VStr "tools/call" ->
        get "params" rb = params ->
        Http.handleJsonRpcRequest remote env version (VObj rb) s
        = (Http.json 500
             (VObj [("jsonrpc", VStr "2.0");
                    ("error",
                     VObj [("code", VNum (-32603));
                           ("message",
                            VStr ("Internal error: Authentication failed: " ++ msg))]);
                    ("id", get "id" rb)]),
           s')).
Proof.
  intros params args tool msg data rb s w1 Hin Hn Ha Hv login Hl s'.
  assert (Hcall : Http.handleToolCall remote env params s
                  = (inl (Error ("Authentication failed: " ++ msg)), s')).
  { unfold validated in Hv. simpl in Hin.
    repeat (destruct Hin as [<- | Hin]); try contradiction; simpl in Hv;
      http_steps; rewrite Hn, Ha; simpl; rewrite ?Hv; simpl;
      fold login; rewrite Hl; reflexivity. }
  split; [exact Hcall|].
  intros Hm Hp. unfold Http.handleJsonRpcRequest, bind, pure, ret.
  simpl prop. cbv beta iota. rewrite Hm. simpl. rewrite Hp, Hcall. reflexivity.
Qed.

(** When the remote operation of a validated tool call is rejected, the
    call throws the error of the remote side with its message unchanged,
    in both variants: the [catch] of the stdio handler rewrites validation
    errors only. *)
Theorem remote_rejection_is_passed_on :
  (forall (params args : value) (tool msg : string) (data : list (string * value))
          (s : Net World) (token : value) (w1 : World),
      In tool Http_remote_tools ->
      prop "name" params = inr (VStr tool) ->
      prop "arguments" params = inr args ->
      validated Http_validator tool args data ->
      remote (universalAuth_login (credentials env)) (world s) = (inr token, w1) ->
      (forall c, is_login c = false -> fst (remote c w1) = inl msg) ->
      fst (Http.handleToolCall remote env params s) = inl (Error msg))
  /\
  (forall (params args : value) (tool msg : string) (shape : z.object)
          (data : list (string * value)) (s s1 : Stdio.State World),
      Stdio_validator tool = Some shape ->
      prop "name" params = inr (VStr tool) ->
      prop "arguments" params = inr args ->
      z.parse shape args = inr data ->
      Stdio.handleAuthentication remote env s = (inr tt, s1) ->
      (forall c, is_login c = false ->
                 fst (remote c (world (Stdio.net s1))) = inl msg) ->
      fst (Stdio.callTool remote env params s) = inl (Error msg)).
Proof.
  split.
  - intros params args tool msg data s token w1 Hin Hn Ha Hv Hl Hrej.
    unfold validated in Hv. simpl in Hin.
    repeat (destruct Hin as [<- | Hin]); try contradiction; simpl in Hv;
      http_steps; rewrite Hn, Ha; simpl; rewrite ?Hv; simpl;
      rewrite Hl; simpl; reject_with Hrej; reflexivity.
  - intros params args tool msg shape data s s1 Hv Hn Ha Hp Hauth Hrej.
    unfold Stdio_validator in Hv.
    split_tool tool; simpl in Hv; try discriminate;
      inversion Hv; subst shape;
      stdio_steps; rewrite Hauth, Hn, Ha; simpl; rewrite Hp; simpl;
      reject_with Hrej; reflexivity.
Qed.

(** ** Tool names *)

Lemma app_cons_not_self {A : Type} (l k : list A) (x : A) : (l ++ x :: k)%list <> l.
Proof.
  intros H. apply (f_equal (@List.length A)) in H.
  rewrite length_app in H. simpl in H. lia.
Qed.

(** In the HTTP variant a call whose name is a primitive value (a string,
    or no name at all) and none of the ten handled names throws
    [Unknown tool: <name>] and leaves the state untouched; and for a name
    given as a string, that is the outcome of the call without arguments
    exactly when the name is not one of the catalog or [update-secret]. *)
Theorem Http_unknown_tool :
  (forall (params name : value) (s : Net World),
      prop "name" params = inr name ->
      primitive name = true ->
      (forall k, In k Http_handled -> strict_equals name (VStr k) = false) ->
      Http.handleToolCall remote env params s
      = (inl (Error ("Unknown tool: " ++ to_string name)), s))
  /\
  (forall (tool : string) (s : Net World),
      Http.handleToolCall remote env (tool_call tool VUndef) s
      = (inl (Error ("Unknown tool: " ++ tool)), s)
      <-> ~ In tool Http_handled).
Proof.
  assert (A : forall (params name : value) (s : Net World),
             prop "name" params = inr name ->
             (forall k, In k Http_handled -> strict_equals name (VStr k) = false) ->
             Http.handleToolCall remote env params s
             = (inl (Error ("Unknown tool: " ++ to_string name)), s)).
  { intros params name s Hn Hk. http_steps. rewrite Hn.
    assert (Ha : exists args, prop "arguments" params = inr args).
    { destruct params; simpl in Hn |- *; try discriminate; eauto. }
    destruct Ha as (args & ->). cbv beta iota.
    rewrite !Hk by (unfold Http_handled; simpl; auto 15). reflexivity. }
  split; [intros params name s Hn _ Hk; exact (A params name s Hn Hk)|].
  intros tool s. split.
  - intros H Hin. unfold Http_handled in Hin. simpl in Hin.
    repeat (destruct Hin as [<- | Hin]); try contradiction;
      revert H; http_steps; simpl;
      try discriminate.
    destruct (remote (universalAuth_login (credentials env)) (world s))
      as [[msg | token] w]; simpl.
    + intros H. apply (f_equal (fun p => log (snd p))) in H. simpl in H.
      exact (app_cons_not_self _ _ _ H).
    + destruct (remote projects_listProjects w) as [[msg | v] w2]; simpl;
        intros H; apply (f_equal (fun p => log (snd p))) in H; simpl in H;
        rewrite <- app_assoc in H; exact (app_cons_not_self _ _ _ H).
  - intros Hnot.
    rewrite (A (tool_call tool VUndef) (VStr tool) s eq_refl); [reflexivity|].
    intros k Hk. simpl. apply String.eqb_neq. intros ->. contradiction.
Qed.

(** In the stdio variant a call whose name is not a catalog name runs
    [handleAuthentication] and then throws [Unrecognized tool name:
    <name>]; and for a name given as a string, that is the outcome of the
    call without arguments exactly when the name is not in the catalog:
    the names advertised by [tools/list] are the names that can be
    called. *)
Theorem Stdio_unrecognized_tool :
  (forall (params given : value) (s s1 : Stdio.State World),
      prop "name" params = inr given ->
      (forall k, In k Stdio_handled -> strict_equals given (VStr k) = false) ->
      Stdio.handleAuthentication remote env s = (inr tt, s1) ->
      Stdio.callTool remote env params s
      = (inl (Error ("Unrecognized tool name: " ++ to_string given)), s1))
  /\
  (forall (tool : string) (s s1 : Stdio.State World),
      Stdio.handleAuthentication remote env s = (inr tt, s1) ->
      (Stdio.callTool remote env (tool_call tool VUndef) s
       = (inl (Error ("Unrecognized tool name: " ++ tool)), s1)
       <-> ~ In tool Stdio_handled)).
Proof.
  assert (A : forall (params given : value) (s s1 : Stdio.State World),
             prop "name" params = inr given ->
             (forall k, In k Stdio_handled -> strict_equals given (VStr k) = false) ->
             Stdio.handleAuthentication remote env s = (inr tt, s1) ->
             Stdio.callTool remote env params s
             = (inl (Error ("Unrecognized tool name: " ++ to_string given)), s1)).
  { intros params given s s1 Hn Hk Hauth. stdio_steps. rewrite Hauth, Hn.
    assert (Ha : exists args, prop "arguments" params = inr args).
    { destruct params; simpl in Hn |- *; try discriminate; eauto. }
    destruct Ha as (args & ->). cbv beta iota.
    unfold Stdio.AvailableTools.CreateSecret, Stdio.AvailableTools.DeleteSecret,
      Stdio.AvailableTools.UpdateSecret, Stdio.AvailableTools.ListSecrets,
      Stdio.AvailableTools.GetSecret, Stdio.AvailableTools.CreateProject,
      Stdio.AvailableTools.CreateEnvironment, Stdio.AvailableTools.CreateFolder,
      Stdio.AvailableTools.InviteMembersToProject.
    rewrite !Hk by (unfold Stdio_handled; simpl; auto 15). reflexivity. }
  split; [exact A|].
  intros tool s s1 Hauth. split.
  - intros H Hin. unfold Stdio_handled in Hin. simpl in Hin.
    repeat (destruct Hin as [<- | Hin]); try contradiction;
      revert H; stdio_steps; rewrite Hauth; simpl;
      intros H; apply (f_equal fst) in H; simpl in H;
      vm_compute in H; discriminate H.
  - intros Hnot.
    rewrite (A (tool_call tool VUndef) (VStr tool) s s1 eq_refl); [reflexivity | | exact Hauth].
    intros k Hk. simpl. apply String.eqb_neq. intros ->. contradiction.
Qed.

(** ** Arguments that do not matter, arguments that are refused *)

Lemma parse_ext (shape : z.object) (input input' : list (string * value)) :
  (forall k t, In (k, t) shape -> field k input' = field k input) ->
  z.parse shape (VObj input') = z.parse shape (VObj input).
Proof.
  intros H. unfold z.parse. now rewrite (parse_shape_ext shape input input' H).
Qed.

(** A member of the argument object that the schema of the tool does not
    declare has no effect: two calls whose arguments agree on the declared
    keys run alike, in both variants; and [list-projects] of the HTTP
    variant runs alike on any arguments. *)
Theorem undeclared_arguments_are_ignored :
  (forall (tool : string) (shape : z.object)
          (input input' : list (string * value)) (params params' : value),
      (forall k t, In (k, t) shape -> field k input' = field k input) ->
      prop "name" params = inr (VStr tool) ->
      prop "name" params' = inr (VStr tool) ->
      prop "arguments" params = inr (VObj input) ->
      prop "arguments" params' = inr (VObj input') ->
      (Http_validator tool = Some shape ->
       forall s, Http.handleToolCall remote env params' s
                 = Http.handleToolCall remote env params s)
      /\ (Stdio_validator tool = Some shape ->
          forall s, Stdio.callTool remote env params' s
                    = Stdio.callTool remote env params s))
  /\
  (forall (params params' args args' : value) (s : Net World),
      prop "name" params = inr (VStr "list-projects") ->
      prop "name" params' = inr (VStr "list-projects") ->
      prop "arguments" params = inr args ->
      prop "arguments" params' = inr args' ->
      Http.handleToolCall remote env params' s
      = Http.handleToolCall remote env params s).
Proof.
  split.
  - intros tool shape input input' params params' Hsame Hn Hn' Ha Ha'.
    pose proof (parse_ext shape input input' Hsame) as Hp.
    split; intros Hv.
    + unfold Http_validator in Hv.
      split_tool tool; simpl in Hv; try discriminate;
        inversion Hv; subst shape; intros s;
        http_steps; rewrite Hn, Hn', Ha, Ha'; simpl; rewrite Hp; reflexivity.
    + unfold Stdio_validator in Hv.
      split_tool tool; simpl in Hv; try discriminate;
        inversion Hv; subst shape; simpl in Hp; intros s;
        stdio_steps; rewrite Hn, Hn', Ha, Ha'; simpl; rewrite Hp; reflexivity.
  - intros params params' args args' s Hn Hn' Ha Ha'.
    http_steps. rewrite Hn, Hn', Ha, Ha'. reflexivity.
Qed.

Lemma parse_shape_invalid (shape : z.object) (input : list (string * value))
      (k : string) (t : z.schema) (errs : list ZodIssue) :
  In (k, t) shape -> z._parse t [Key k] (get k input) = inl errs ->
  exists errors,
    z.parse shape (VObj input) = inl (ZodError errors)
    /\ (forall i, In i errs -> In i errors).
Proof.
  intros Hin Hbad.
  assert (G : forall i, In i errs -> In i (fst (z.parse_shape shape input))).
  { induction shape as [|[k' t'] rest IH]; [destruct Hin|].
    simpl. destruct (z.parse_shape rest input) as [errs' out] eqn:E.
    destruct Hin as [Heq | Hin].
    - inversion Heq; subst k' t'. rewrite Hbad. simpl.
      intros i Hi. apply in_or_app. now left.
    - specialize (IH Hin). simpl in IH.
      destruct (z._parse t' [Key k'] (get k' input)); simpl; [|exact IH].
      intros i Hi. apply in_or_app. right. now apply IH. }
  rewrite parse_unfold.
  destruct errs as [|i0 errs0]; [exfalso; exact (_parse_nonempty _ _ _ Hbad)|].
  destruct (fst (z.parse_shape shape input)) as [|j errors] eqn:E.
  - destruct (G i0 (or_introl eq_refl)).
  - exists (j :: errors). split; [reflexivity | exact G].
Qed.

Lemma _parse_null (t : z.schema) (p : list pathseg) :
  exists errs, z._parse t p VNull = inl errs.
Proof.
  induction t; simpl; eauto.
Qed.

Lemma _parse_string_schema (t : z.schema) (p : list pathseg) (v : value) :
  string_schema t = true -> v <> VUndef -> is_string v = false ->
  z._parse t p v = inl [z.invalid_type "string" v p].
Proof.
  intros Ht Hu Hs.
  destruct t as [| | | vals | elt | inner | inner d]; simpl in Ht; try discriminate.
  - destruct v; simpl in *; try reflexivity; try discriminate.
  - destruct inner; try discriminate.
    destruct v; simpl in *; try reflexivity; try discriminate; congruence.
  - destruct inner; try discriminate.
    destruct v; simpl in *; try reflexivity; try discriminate; congruence.
Qed.

(** A declared key that a call passes with a value the schema of the
    key refuses makes the call fail before any secret-management
    operation: in the HTTP variant with the [ZodError] and the state
    untouched, in the stdio variant, after [handleAuthentication], with
    [Invalid arguments: ...].  This is so for [null] under every declared
    key, optional ones included, and for every value other than a string
    under a key declared as a string, in which case the message reads
    [<key>: Expected string, received <type>]. *)
Theorem refused_arguments :
  forall (tool : string) (shape : z.object) (k : string) (t : z.schema)
         (input : list (string * value)) (params : value),
    In (k, t) shape ->
    prop "name" params = inr (VStr tool) ->
    prop "arguments" params = inr (VObj input) ->
    (get k input = VNull
     \/ (string_schema t = true /\ get k input <> VUndef
         /\ is_string (get k input) = false)) ->
    (Http_validator tool = Some shape ->
     forall s,
     exists errors,
       Http.handleToolCall remote env params s = (inl (ZodError errors), s)
       /\ exists i, In i errors /\ path i = [Key k])
    /\
    (Stdio_validator tool = Some shape ->
     forall s s1,
       Stdio.handleAuthentication remote env s = (inr tt, s1) ->
       exists errors,
         Stdio.callTool remote env params s
         = (inl (Error (Stdio.invalid_arguments errors)), s1)
         /\ exists i, In i errors /\ path i = [Key k])
    /\
    (string_schema t = true -> get k input <> VUndef ->
     is_string (get k input) = false ->
     Stdio_validator tool = Some shape ->
     forall s s1,
       Stdio.handleAuthentication remote env s = (inr tt, s1) ->
       exists errors,
         Stdio.callTool remote env params s
         = (inl (Error (Stdio.invalid_arguments errors)), s1)
         /\ includes (Stdio.invalid_arguments errors)
              (k ++ ": Expected string, received " ++ z.parsedType (get k input))).
Proof.
  intros tool shape k t input params Hin Hn Ha Hbad.
  assert (Herrs : exists i errs,
             z._parse t [Key k] (get k input) = inl (i :: errs) /\ path i = [Key k]).
  { destruct Hbad as [Hnull | (Ht & Hu & Hs)].
    - rewrite Hnull. destruct (_parse_null t [Key k]) as (errs & He).
      rewrite He. clear Hin.
      assert (exists i errs', errs = i :: errs' /\ path i = [Key k]).
      { clear - He. revert errs He. generalize [Key k] as p.
        induction t; simpl; intros p errs He;
          try (inversion He; subst; do 2 eexists; split; reflexivity);
          eauto. }
      destruct H as (i & errs' & -> & Hp). eauto.
    - rewrite (_parse_string_schema t [Key k] _ Ht Hu Hs).
      do 2 eexists. split; reflexivity. }
  destruct Herrs as (i & errs & Hparse & Hpath).
  destruct (parse_shape_invalid shape input k t _ Hin Hparse) as (errors & Hp & Hincl).
  split; [|split].
  - intros Hv s. exists errors. split.
    + eapply Http_rejects_first; eassumption.
    + exists i. split; [apply Hincl; now left | exact Hpath].
  - intros Hv s s1 Hauth. exists errors. split.
    + eapply Stdio_rejects_first; eassumption.
    + exists i. split; [apply Hincl; now left | exact Hpath].
  - intros Ht Hu Hs Hv s s1 Hauth.
    rewrite (_parse_string_schema t [Key k] _ Ht Hu Hs) in Hparse.
    injection Hparse as <- <-.
    exists errors. split.
    + eapply Stdio_rejects_first; eassumption.
    + unfold Stdio.invalid_arguments. apply includes_app_l.
      eapply includes_trans.
      * apply includes_concat. apply in_map_iff.
        exists (z.invalid_type "string" (get k input) [Key k]).
        split; [reflexivity | apply Hincl; now left].
      * change (Stdio.path_string
                  (path (z.invalid_type "string" (get k input) [Key k]))) with k.
        simpl. unfold z.invalid_type_message.
        destruct (get k input); try congruence; apply includes_refl.
Qed.

(** ** Looking a secret up in the HTTP variant *)

Lemma find_first (wanted : value) (before after : list value) (record : value) :
  Forall (fun r =>
            exists k, prop "secretKey" r = inr k
                      /\ strict_equals k wanted = false) before ->
  prop "secretKey" record = inr wanted ->
  strict_equals wanted wanted = true ->
  find_throwing
    (fun s0 =>
       match prop "secretKey" s0 with
       | inl e => inl e
       | inr k => inr (strict_equals k wanted)
       end) (before ++ record :: after)%list
  = inr record.
Proof.
  intros Hb Hr Hw. induction Hb as [|r before (k & Hk & Hne) _ IH]; simpl.
  - now rewrite Hr, Hw.
  - now rewrite Hk, Hne.
Qed.

(** In the HTTP variant [get-secret] never asks the remote API for one
    secret: it performs the credential exchange and the same listing
    operation as [list-secrets], and answers with the first record of the
    listing whose [secretKey] is the requested name, serialized with all
    its metadata after the label [Secret: ]. *)
Theorem Http_get_secret_returns_first_match :
  forall (params : value) (input getData fs : list (string * value))
         (secretName : string) (s : Net World) (token record : value)
         (before after : list value) (w1 w2 : World),
    prop "name" params = inr (VStr "get-secret") ->
    prop "arguments" params = inr (VObj input) ->
    z.parse Http.getSecretSchema (VObj input) = inr getData ->
    get "secretName" input = VStr secretName ->
    let login := universalAuth_login (credentials env) in
    let listing :=
      secrets_listSecrets
        (VObj [("environment", get "environmentSlug" getData);
               ("projectId", get "projectId" getData);
               ("secretPath", get "secretPath" getData);
               ("expandSecretReferences", get "expandSecretReferences" getData);
               ("includeImports", get "includeImports" getData)]) in
    remote login (world s) = (inr token, w1) ->
    remote listing w1 = (inr (VObj fs), w2) ->
    get "secrets" fs = VArr (before ++ record :: after)%list ->
    Forall (fun r =>
              exists k, prop "secretKey" r = inr k
                        /\ strict_equals k (VStr secretName) = false) before ->
    prop "secretKey" record = inr (VStr secretName) ->
    Http.handleToolCall remote env params s
    = (inr (text_content ("Secret: " ++ JSON_stringify record 3)),
       {| world := w2; log := (log s ++ [login; listing])%list |}).
Proof.
  intros params input getData fs secretName s token record before after w1 w2
         Hn Ha Hp Hname login listing Hl Hr Hfs Hbefore Hrec.
  assert (Hdata : get "secretName" getData = VStr secretName).
  { destruct (parse_get_string Http.getSecretSchema input getData "secretName")
      as (n & Hin & Hout); [nodup_keys | simpl; auto | exact Hp |].
    congruence. }
  assert (Htruthy : truthy record = true).
  { destruct record; simpl in Hrec; try discriminate; reflexivity. }
  http_steps. rewrite Hn, Ha. simpl. rewrite Hp. simpl.
  fold login. rewrite Hl. simpl. fold listing. rewrite Hr. simpl.
  rewrite Hfs. simpl. rewrite Hdata.
  rewrite (find_first (VStr secretName) before after record Hbefore Hrec)
    by (simpl; apply String.eqb_refl).
  simpl. rewrite Htruthy. now rewrite <- app_assoc.
Qed.

(** ** Arguments that are validated and then dropped or defaulted *)

Lemma parse_shape_differ_at (shape : z.object) (input input' : list (string * value))
      (d : string) :
  (forall k, k <> d -> field k input' = field k input) ->
  (forall t, In (d, t) shape ->
             (exists v, z._parse t [Key d] (get d input) = inr v)
             /\ (exists v', z._parse t [Key d] (get d input') = inr v')) ->
  fst (z.parse_shape shape input') = fst (z.parse_shape shape input)
  /\ forall k, k <> d ->
               get k (snd (z.parse_shape shape input'))
               = get k (snd (z.parse_shape shape input)).
Proof.
  intros Hsame. induction shape as [|[k t] rest IH]; intros Hd.
  - split; reflexivity.
  - destruct IH as (IHe & IHg); [intros t' Ht'; apply Hd; now right|].
    simpl.
    destruct (z.parse_shape rest input) as [errs out].
    destruct (z.parse_shape rest input') as [errs' out'].
    simpl in IHe, IHg. subst errs'.
    destruct (string_dec k d) as [-> | Hk].
    + destruct (Hd t (or_introl eq_refl)) as ((v & ->) & (v' & ->)). simpl.
      split; [reflexivity|].
      intros k Hk.
      assert (G : forall (x : value) (f : option value) (o : list (string * value)),
                 get k (match x, f with
                        | VUndef, None => o
                        | _, _ => (d, x) :: o
                        end) = get k o).
      { intros x f o. destruct x, f; try reflexivity;
          unfold get; simpl; destruct (String.eqb_spec k d); congruence. }
      rewrite !G. now apply IHg.
    + assert (Hget : get k input' = get k input)
        by (unfold get; now rewrite (Hsame k Hk)).
      rewrite Hget, (Hsame k Hk).
      destruct (z._parse t [Key k] (get k input)) as [e | v]; simpl.
      * split; [reflexivity | exact IHg].
      * split; [reflexivity|].
        intros k' Hk'.
        destruct v, (field k input); try (now apply IHg);
          unfold get; simpl; destruct (String.eqb k' k); auto;
          apply (IHg k' Hk').
Qed.

(** The stdio [update-secret] validates [newSecretName] and then drops
    it: two calls that differ only in a well-typed [newSecretName] run
    alike, with the same remote call, so the secret is not renamed. *)
Theorem Stdio_update_secret_drops_newSecretName :
  forall (input input' : list (string * value)) (params params' : value)
         (s : Stdio.State World),
    (forall k, k <> "newSecretName" -> field k input' = field k input) ->
    optional_string (get "newSecretName" input) = true ->
    optional_string (get "newSecretName" input') = true ->
    prop "name" params = inr (VStr "update-secret") ->
    prop "name" params' = inr (VStr "update-secret") ->
    prop "arguments" params = inr (VObj input) ->
    prop "arguments" params' = inr (VObj input') ->
    Stdio.callTool remote env params' s = Stdio.callTool remote env params s.
Proof.
  intros input input' params params' s Hsame Ho Ho' Hn Hn' Ha Ha'.
  destruct (parse_shape_differ_at (Stdio.zod Stdio.updateSecretSchema)
              input input' "newSecretName" Hsame) as (He & Hg).
  { intros t Ht. simpl in Ht.
    repeat (destruct Ht as [Ht | Ht]); try contradiction; try discriminate Ht.
    inversion Ht; subst t. split.
    - revert Ho. destruct (get "newSecretName" input); simpl;
        intros Ho; try discriminate Ho; eauto.
    - revert Ho'. destruct (get "newSecretName" input'); simpl;
        intros Ho'; try discriminate Ho'; eauto. }
  stdio_steps. rewrite Hn, Hn', Ha, Ha'.
  destruct (Stdio.handleAuthentication remote env s) as [[e | []] s1]; [reflexivity|].
  simpl. rewrite !parse_unfold.
  change (z.parse_shape
            [("projectId", z.ZodString); ("environmentSlug", z.ZodString);
             ("secretName", z.ZodString);
             ("newSecretName", z.ZodOptional z.ZodString);
             ("secretValue", z.ZodOptional z.ZodString);
             ("secretPath", z.ZodDefault z.ZodString (VStr "/"))])
    with (z.parse_shape (Stdio.zod Stdio.updateSecretSchema)).
  rewrite He.
  destruct (fst (z.parse_shape (Stdio.zod Stdio.updateSecretSchema) input));
    [|reflexivity].
  simpl. rewrite !Hg by discriminate. reflexivity.
Qed.

#[local] Arguments z.parse_shape : simpl never.

Lemma secretValue_of_validated (shape : z.object) (input : list (string * value))
      (v : value) :
  NoDup (map fst shape) ->
  In ("secretValue", z.ZodOptional z.ZodString) shape ->
  fst (z.parse_shape shape input) = [] ->
  get "secretValue" input = v -> optional_string v = true ->
  get "secretValue" (snd (z.parse_shape shape input)) = v.
Proof.
  intros Hnd Hin Hok Hv Ho.
  pose proof (parse_shape_get shape input "secretValue" _ Hnd Hin Hok) as H.
  rewrite Hv in H. destruct v; simpl in Ho, H; try discriminate Ho; congruence.
Qed.

(** Leaving [secretValue] out of a [create-secret] or [update-secret]
    call is the same as passing the empty string, in both variants: the
    two calls have the same outcome from every state, and when the
    arguments are accepted (and, in the HTTP variant, the credential
    exchange succeeds) the one remote operation performed is the creation
    or the update of the secret with [secretValue] the empty string, so
    an update without a value empties the secret. *)
Theorem omitted_secretValue_is_the_empty_string :
  forall (tool : string) (input input' : list (string * value))
         (params params' : value),
    tool = "create-secret" \/ tool = "update-secret" ->
    field "secretValue" input = None ->
    field "secretValue" input' = Some (VStr "") ->
    (forall k, k <> "secretValue" -> field k input' = field k input) ->
    prop "name" params = inr (VStr tool) ->
    prop "name" params' = inr (VStr tool) ->
    prop "arguments" params = inr (VObj input) ->
    prop "arguments" params' = inr (VObj input') ->
    (forall s, Http.handleToolCall remote env params' s
               = Http.handleToolCall remote env params s)
    /\ (forall s, Stdio.callTool remote env params' s
                  = Stdio.callTool remote env params s)
    /\ (forall (data : list (string * value)) (s : Net World)
               (token : value) (w1 : World),
           validated Http_validator tool (VObj input) data ->
           remote (universalAuth_login (credentials env)) (world s) = (inr token, w1) ->
           log (snd (Http.handleToolCall remote env params s))
           = (log s
                ++ [universalAuth_login (credentials env);
                    (if String.eqb tool "create-secret"
                     then secrets_createSecret else secrets_updateSecret)
                      (get "secretName" data)
                      (VObj [("environment", get "environmentSlug" data);
                             ("projectId", get "projectId" data);
                             ("secretPath", get "secretPath" data);
                             ("secretValue", VStr "")])])%list)
    /\ (forall (data : list (string * value)) (s s1 : Stdio.State World),
           validated Stdio_validator tool (VObj input) data ->
           Stdio.handleAuthentication remote env s = (inr tt, s1) ->
           log (Stdio.net (snd (Stdio.callTool remote env params s)))
           = (log (Stdio.net s1)
                ++ [(if String.eqb tool "create-secret"
                     then secrets_createSecret else secrets_updateSecret)
                      (get "secretName" data)
                      (VObj [("environment", get "environmentSlug" data);
                             ("projectId", get "projectId" data);
                             ("secretPath", get "secretPath" data);
                             ("secretValue", VStr "")])])%list).
Proof.
  intros tool input input' params params' Htool Hnone Hsome Hsame Hn Hn' Ha Ha'.
  assert (Hv : get "secretValue" input = VUndef) by (unfold get; now rewrite Hnone).
  assert (Hv' : get "secretValue" input' = VStr "") by (unfold get; now rewrite Hsome).
  assert (K : forall shape,
             NoDup (map fst shape) ->
             In ("secretValue", z.ZodOptional z.ZodString) shape ->
             (forall t, In ("secretValue", t) shape -> t = z.ZodOptional z.ZodString) ->
             fst (z.parse_shape shape input') = fst (z.parse_shape shape input)
             /\ (fst (z.parse_shape shape input) = [] ->
                 (forall k, k <> "secretValue" ->
                            get k (snd (z.parse_shape shape input'))
                            = get k (snd (z.parse_shape shape input)))
                 /\ nullish_or (get "secretValue" (snd (z.parse_shape shape input')))
                               (VStr "")
                    = nullish_or (get "secretValue" (snd (z.parse_shape shape input)))
                                 (VStr ""))).
  { intros shape Hnd Hin Hall.
    destruct (parse_shape_differ_at shape input input' "secretValue" Hsame) as (He & Hg).
    { intros t Ht. rewrite (Hall t Ht), Hv, Hv'. simpl. eauto. }
    split; [exact He|]. intros Hok. split; [exact Hg|].
    rewrite (secretValue_of_validated shape input VUndef Hnd Hin Hok Hv eq_refl).
    rewrite Hok in He.
    rewrite (secretValue_of_validated shape input' (VStr "") Hnd Hin He Hv' eq_refl).
    reflexivity. }
  assert (Hall : forall shape,
             In shape [Http.createSecretSchema; Http.updateSecretSchema;
                       Stdio.zod Stdio.createSecretSchema;
                       Stdio.zod Stdio.updateSecretSchema] ->
             NoDup (map fst shape)
             /\ In ("secretValue", z.ZodOptional z.ZodString) shape
             /\ (forall t, In ("secretValue", t) shape ->
                           t = z.ZodOptional z.ZodString)).
  { intros shape Hin. simpl in Hin.
    repeat (destruct Hin as [<- | Hin]); try contradiction;
      (split; [nodup_keys | split; [simpl; auto 8|]];
       intros t Ht; simpl in Ht;
       repeat (destruct Ht as [Ht | Ht]); try contradiction;
       try discriminate Ht; now inversion Ht). }
  assert (Hempty : forall shape data,
             z.parse shape (VObj input) = inr data ->
             In shape [Http.createSecretSchema; Http.updateSecretSchema;
                       Stdio.zod Stdio.createSecretSchema;
                       Stdio.zod Stdio.updateSecretSchema] ->
             nullish_or (get "secretValue" data) (VStr "") = VStr "").
  { intros shape data Hp Hs.
    destruct (Hall shape Hs) as (Hnd & Hin & _).
    rewrite parse_unfold in Hp.
    destruct (fst (z.parse_shape shape input)) eqn:Hok; [|discriminate Hp].
    injection Hp as <-.
    now rewrite (secretValue_of_validated shape input VUndef Hnd Hin Hok Hv eq_refl). }
  split; [|split; [|split]]; [intros s|intros s| |].
  3: { intros data s token w1 Hp Hl. unfold validated in Hp.
       destruct Htool as [-> | ->]; simpl in Hp;
         pose proof (Hempty _ data Hp ltac:(simpl; auto 6)) as Hsv;
         http_steps; rewrite Hn, Ha; simpl; rewrite Hp; simpl; rewrite Hl; simpl;
         rewrite Hsv;
         match goal with
         | |- context [remote ?c w1] => destruct (remote c w1) as [[msg | v] w2]
         end; simpl;
         try match goal with
             | |- context [prop "secret" ?v] => destruct (prop "secret" v)
             end; simpl;
         now rewrite <- app_assoc. }
  3: { intros data s s1 Hp Hauth. unfold validated in Hp.
       destruct Htool as [-> | ->]; simpl in Hp;
         pose proof (Hempty _ data Hp ltac:(simpl; auto 6)) as Hsv;
         stdio_steps; rewrite Hauth, Hn, Ha; simpl; rewrite Hp; simpl;
         rewrite Hsv;
         match goal with
         | |- context [remote ?c ?w] => destruct (remote c w) as [[msg | v] w2]
         end; simpl;
         try match goal with
             | |- context [prop "secret" ?v] =>
                 destruct (prop "secret" v) as [[] |]
             end; simpl;
         reflexivity. }
  - destruct Htool as [-> | ->].
    + destruct (Hall Http.createSecretSchema) as (Hnd & Hin & Hone); [simpl; auto|].
      destruct (K _ Hnd Hin Hone) as (He & Hk).
      http_steps. rewrite Hn, Hn', Ha, Ha'. simpl. rewrite !parse_unfold, He.
      destruct (fst (z.parse_shape Http.createSecretSchema input)); [|reflexivity].
      destruct (Hk eq_refl) as (Hg & Hnull).
      simpl. rewrite !Hg by discriminate. rewrite Hnull. reflexivity.
    + destruct (Hall Http.updateSecretSchema) as (Hnd & Hin & Hone); [simpl; auto|].
      destruct (K _ Hnd Hin Hone) as (He & Hk).
      http_steps. rewrite Hn, Hn', Ha, Ha'. simpl. rewrite !parse_unfold, He.
      destruct (fst (z.parse_shape Http.updateSecretSchema input)); [|reflexivity].
      destruct (Hk eq_refl) as (Hg & Hnull).
      simpl. rewrite !Hg by discriminate. rewrite Hnull. reflexivity.
  - destruct Htool as [-> | ->].
    + destruct (Hall (Stdio.zod Stdio.createSecretSchema)) as (Hnd & Hin & Hone);
        [simpl; auto|].
      destruct (K _ Hnd Hin Hone) as (He & Hk).
      stdio_steps. rewrite Hn, Hn', Ha, Ha'.
      destruct (Stdio.handleAuthentication remote env s) as [[e | []] s1];
        [reflexivity|].
      simpl. rewrite !parse_unfold.
      simpl in He, Hk. rewrite He.
      match goal with
      | |- context [fst ?ps] => destruct (fst ps) eqn:Hok
      end; [|reflexivity].
      destruct (Hk eq_refl) as (Hg & Hnull).
      simpl. rewrite !Hg by discriminate. rewrite Hnull. reflexivity.
    + destruct (Hall (Stdio.zod Stdio.updateSecretSchema)) as (Hnd & Hin & Hone);
        [simpl; auto 6|].
      destruct (K _ Hnd Hin Hone) as (He & Hk).
      stdio_steps. rewrite Hn, Hn', Ha, Ha'.
      destruct (Stdio.handleAuthentication remote env s) as [[e | []] s1];
        [reflexivity|].
      simpl. rewrite !parse_unfold.
      simpl in He, Hk. rewrite He.
      match goal with
      | |- context [fst ?ps] => destruct (fst ps) eqn:Hok
      end; [|reflexivity].
      destruct (Hk eq_refl) as (Hg & Hnull).
      simpl. rewrite !Hg by discriminate. rewrite Hnull. reflexivity.
Qed.

End CallShapes.

(** ** The further properties at concrete inputs *)

Lemma Stdio_calls_witness :
  Stdio.isAuthenticated
    (snd (Stdio.callTool demo_remote demo_env
            (tool_call "list-secrets" scope_args) stdio_authenticated))
  = true.
Proof.
  exact (proj1 (Stdio_calls_of_a_tool_call demo_remote demo_env
                  (tool_call "list-secrets" scope_args) stdio_authenticated)
           eq_refl).
Defined.

Lemma Http_replies_witness :
  snd (Http.handleJsonRpcRequest demo_remote demo_env "1.0.0"
         (VObj [("jsonrpc", VStr "2.0"); ("id", VNum 1); ("method", VStr "initialize")])
         http0)
  = http0
  /\ Http.status
       (fst (Http.handleJsonRpcRequest demo_remote demo_env "1.0.0"
               (VObj [("jsonrpc", VStr "2.0"); ("id", VNum 2);
                      ("method", VStr "resources/list")])
               http0))
     = 404
  /\ Http.status
       (fst (Http.handleJsonRpcRequest demo_remote demo_env "1.0.0" VUndef http0))
     = 500.
Proof.
  pose proof (Http_replies_are_well_formed demo_remote demo_env "1.0.0")
    as (_ & Hobject & Hnone).
  split; [|split].
  - exact (proj2 (Hobject [("jsonrpc", VStr "2.0"); ("id", VNum 1);
                           ("method", VStr "initialize")] http0) eq_refl).
  - exact (proj1 (Hobject [("jsonrpc", VStr "2.0"); ("id", VNum 2);
                           ("method", VStr "resources/list")] http0) eq_refl).
  - exact (proj1 (Hnone VUndef http0 (or_introl eq_refl))).
Defined.

Lemma Http_authentication_failure_witness :
  Http.handleToolCall locked_remote demo_env (tool_call "list-secrets" scope_args) http0
  = (inl (Error "Authentication failed: Unauthorized"),
     {| world := tt; log := [universalAuth_login (credentials demo_env)] |})
  /\ Http.status
       (fst (Http.handleJsonRpcRequest locked_remote demo_env "1.0.0"
               (rpc (Some (VNum 9)) "tools/call" (tool_call "list-secrets" scope_args))
               http0))
     = 500.
Proof.
  pose proof (Http_authentication_failure locked_remote demo_env "1.0.0"
                (tool_call "list-secrets" scope_args) scope_args
                "list-secrets" "Unauthorized"
                (scope ++ [("secretPath", VStr "/")])%list
                [("jsonrpc", VStr "2.0"); ("id", VNum 9);
                 ("method", VStr "tools/call");
                 ("params", tool_call "list-secrets" scope_args)]
                http0 tt) as H.
  destruct H as (Hcall & Hrpc);
    [simpl; auto 6 | reflexivity | reflexivity | reflexivity | reflexivity |].
  split; [exact Hcall|].
  change (rpc (Some (VNum 9)) "tools/call" (tool_call "list-secrets" scope_args))
    with (VObj [("jsonrpc", VStr "2.0"); ("id", VNum 9);
                ("method", VStr "tools/call");
                ("params", tool_call "list-secrets" scope_args)]).
  rewrite (Hrpc eq_refl eq_refl). reflexivity.
Defined.

Lemma remote_rejection_witness :
  fst (Http.handleToolCall (rejecting_remote "Secret already exists") demo_env
         (tool_call "create-secret" (VObj (secret_args "API_KEY"))) http0)
  = inl (Error "Secret already exists")
  /\ fst (Stdio.callTool (rejecting_remote "Secret already exists") demo_env
            (tool_call "create-secret" (VObj (secret_args "API_KEY")))
            stdio_authenticated)
     = inl (Error "Secret already exists").
Proof.
  assert (Hrej : forall c, is_login c = false ->
                           fst (rejecting_remote "Secret already exists" c tt)
                           = inl "Secret already exists").
  { intros c Hc. unfold rejecting_remote. rewrite Hc. reflexivity. }
  pose proof (remote_rejection_is_passed_on
                (rejecting_remote "Secret already exists") demo_env)
    as (Hhttp & Hstdio).
  split.
  - apply (Hhttp (tool_call "create-secret" (VObj (secret_args "API_KEY")))
             (VObj (secret_args "API_KEY")) "create-secret" "Secret already exists"
             (secret_args "API_KEY" ++ [("secretPath", VStr "/")])%list
             http0 (VObj [("accessToken", VStr "t0ken")]) tt).
    + simpl. auto.
    + reflexivity.
    + reflexivity.
    + reflexivity.
    + reflexivity.
    + exact Hrej.
  - apply (Hstdio (tool_call "create-secret" (VObj (secret_args "API_KEY")))
             (VObj (secret_args "API_KEY")) "create-secret" "Secret already exists"
             (Stdio.zod Stdio.createSecretSchema)
             (secret_args "API_KEY" ++ [("secretPath", VStr "/")])%list
             stdio_authenticated stdio_authenticated).
    + reflexivity.
    + reflexivity.
    + reflexivity.
    + reflexivity.
    + reflexivity.
    + exact Hrej.
Defined.

Lemma Http_unknown_tool_witness :
  Http.handleToolCall demo_remote demo_env (tool_call "rotate-secret" scope_args) http0
  = (inl (Error "Unknown tool: rotate-secret"), http0)
  /\ Http.handleToolCall demo_remote demo_env (VObj [("name", VNum 7)]) http0
     = (inl (Error "Unknown tool: 7"), http0).
Proof.
  pose proof (Http_unknown_tool demo_remote demo_env) as (Hany & _).
  split.
  - apply (Hany (tool_call "rotate-secret" scope_args) (VStr "rotate-secret") http0).
    + reflexivity.
    + reflexivity.
    + intros k Hk. simpl in Hk.
      repeat (destruct Hk as [<- | Hk]); try contradiction; reflexivity.
  - apply (Hany (VObj [("name", VNum 7)]) (VNum 7) http0).
    + reflexivity.
    + reflexivity.
    + intros k Hk. reflexivity.
Defined.

Lemma Stdio_unrecognized_tool_witness :
  Stdio.callTool demo_remote demo_env (tool_call "list-projects" VUndef)
    (Stdio.initial tt)
  = (inl (Error "Unrecognized tool name: list-projects"), stdio_authenticated).
Proof.
  pose proof (Stdio_unrecognized_tool demo_remote demo_env) as (Hany & _).
  apply (Hany (tool_call "list-projects" VUndef) (VStr "list-projects")
           (Stdio.initial tt) stdio_authenticated).
  - reflexivity.
  - intros k Hk. simpl in Hk.
    repeat (destruct Hk as [<- | Hk]); try contradiction; reflexivity.
  - reflexivity.
Defined.

Lemma undeclared_arguments_witness :
  let plain := VObj (secret_args "API_KEY") in
  let noisy := VObj (("dryRun", VBool true) :: secret_args "API_KEY") in
  (forall s : Http.State,
      Http.handleToolCall demo_remote demo_env (tool_call "delete-secret" noisy) s
      = Http.handleToolCall demo_remote demo_env (tool_call "delete-secret" plain) s)
  /\ (forall s : Stdio.State unit,
         Stdio.callTool demo_remote demo_env (tool_call "delete-secret" noisy) s
         = Stdio.callTool demo_remote demo_env (tool_call "delete-secret" plain) s).
Proof.
  intros plain noisy.
  pose proof (undeclared_arguments_are_ignored demo_remote demo_env) as (Hkeys & _).
  split.
  - refine (proj1 (Hkeys "delete-secret" Http.deleteSecretSchema
                     (secret_args "API_KEY")
                     (("dryRun", VBool true) :: secret_args "API_KEY")
                     (tool_call "delete-secret" plain) (tool_call "delete-secret" noisy)
                     _ eq_refl eq_refl eq_refl eq_refl) eq_refl).
    intros k t Hin. simpl in Hin.
    repeat (destruct Hin as [Hin | Hin]); try contradiction;
      inversion Hin; reflexivity.
  - refine (proj2 (Hkeys "delete-secret" (Stdio.zod Stdio.deleteSecretSchema)
                     (secret_args "API_KEY")
                     (("dryRun", VBool true) :: secret_args "API_KEY")
                     (tool_call "delete-secret" plain) (tool_call "delete-secret" noisy)
                     _ eq_refl eq_refl eq_refl eq_refl) eq_refl).
    intros k t Hin. simpl in Hin.
    repeat (destruct Hin as [Hin | Hin]); try contradiction;
      inversion Hin; reflexivity.
Defined.

Lemma refused_arguments_witness :
  (exists errors,
      Http.handleToolCall demo_remote demo_env
        (tool_call "create-secret"
           (VObj (secret_args "API_KEY" ++ [("secretValue", VNull)])%list)) http0
      = (inl (ZodError errors), http0)
      /\ exists i, In i errors /\ path i = [Key "secretValue"])
  /\ (exists errors,
         Stdio.callTool demo_remote demo_env
           (tool_call "create-secret"
              (VObj (scope ++ [("secretName", VNum 42)])%list)) stdio_authenticated
         = (inl (Error (Stdio.invalid_arguments errors)), stdio_authenticated)
         /\ includes (Stdio.invalid_arguments errors)
              "secretName: Expected string, received number").
Proof.
  split.
  - refine (proj1 (refused_arguments demo_remote demo_env
                     "create-secret" Http.createSecretSchema
                     "secretValue" (z.ZodOptional z.ZodString)
                     (secret_args "API_KEY" ++ [("secretValue", VNull)])%list
                     (tool_call "create-secret"
                        (VObj (secret_args "API_KEY" ++ [("secretValue", VNull)])%list))
                     _ eq_refl eq_refl (or_introl eq_refl)) eq_refl http0).
    simpl. auto.
  - refine (proj2 (proj2 (refused_arguments demo_remote demo_env
                     "create-secret" (Stdio.zod Stdio.createSecretSchema)
                     "secretName" z.ZodString
                     (scope ++ [("secretName", VNum 42)])%list
                     (tool_call "create-secret"
                        (VObj (scope ++ [("secretName", VNum 42)])%list))
                     _ eq_refl eq_refl (or_intror (conj eq_refl (conj _ eq_refl)))))
              eq_refl _ eq_refl eq_refl stdio_authenticated stdio_authenticated eq_refl).
    + simpl. auto.
    + discriminate.
    + discriminate.
Defined.

Lemma Http_get_secret_witness :
  Http.handleToolCall demo_remote demo_env
    (tool_call "get-secret" (VObj (secret_args "API_KEY"))) http0
  = (inr (text_content ("Secret: " ++ JSON_stringify demo_secret 3)),
     {| world := tt;
        log := [universalAuth_login (credentials demo_env);
                secrets_listSecrets
                  (VObj [("environment", VStr "dev"); ("projectId", VStr "p-1");
                         ("secretPath", VStr "/");
                         ("expandSecretReferences", VUndef);
                         ("includeImports", VUndef)])] |}).
Proof.
  apply (Http_get_secret_returns_first_match demo_remote demo_env
           (tool_call "get-secret" (VObj (secret_args "API_KEY")))
           (secret_args "API_KEY")
           (secret_args "API_KEY" ++ [("secretPath", VStr "/")])%list
           [("secrets", VArr [demo_secret])]
           "API_KEY" http0 (VObj [("accessToken", VStr "t0ken")])
           demo_secret [] [] tt tt).
  - reflexivity.
  - reflexivity.
  - reflexivity.
  - reflexivity.
  - reflexivity.
  - reflexivity.
  - reflexivity.
  - constructor.
  - reflexivity.
Defined.

Lemma Stdio_update_secret_witness :
  Stdio.callTool demo_remote demo_env
    (tool_call "update-secret"
       (VObj (("newSecretName", VStr "API_TOKEN") :: secret_args "API_KEY")))
    stdio_authenticated
  = Stdio.callTool demo_remote demo_env
      (tool_call "update-secret" (VObj (secret_args "API_KEY"))) stdio_authenticated.
Proof.
  apply (Stdio_update_secret_drops_newSecretName demo_remote demo_env
           (secret_args "API_KEY")
           (("newSecretName", VStr "API_TOKEN") :: secret_args "API_KEY")).
  - intros k Hk. simpl. now destruct (String.eqb_spec k "newSecretName").
  - reflexivity.
  - reflexivity.
  - reflexivity.
  - reflexivity.
  - reflexivity.
  - reflexivity.
Defined.

Lemma omitted_secretValue_witness :
  Http.handleToolCall demo_remote demo_env
    (tool_call "update-secret"
       (VObj (("secretValue", VStr "") :: secret_args "API_KEY"))) http0
  = Http.handleToolCall demo_remote demo_env
      (tool_call "update-secret" (VObj (secret_args "API_KEY"))) http0
  /\ log (snd (Http.handleToolCall demo_remote demo_env
                 (tool_call "update-secret" (VObj (secret_args "API_KEY"))) http0))
     = [universalAuth_login (credentials demo_env);
        secrets_updateSecret (VStr "API_KEY")
          (VObj [("environment", VStr "dev"); ("projectId", VStr "p-1");
                 ("secretPath", VStr "/"); ("secretValue", VStr "")])]
  /\ log (Stdio.net
            (snd (Stdio.callTool demo_remote demo_env
                    (tool_call "update-secret" (VObj (secret_args "API_KEY")))
                    stdio_authenticated)))
     = [universalAuth_login (credentials demo_env);
        secrets_updateSecret (VStr "API_KEY")
          (VObj [("environment", VStr "dev"); ("projectId", VStr "p-1");
                 ("secretPath", VStr "/"); ("secretValue", VStr "")])].
Proof.
  destruct (omitted_secretValue_is_the_empty_string demo_remote demo_env
              "update-secret" (secret_args "API_KEY")
              (("secretValue", VStr "") :: secret_args "API_KEY")
              (tool_call "update-secret" (VObj (secret_args "API_KEY")))
              (tool_call "update-secret"
                 (VObj (("secretValue", VStr "") :: secret_args "API_KEY")))
              (or_intror eq_refl) eq_refl eq_refl) as (Hsame & _ & Hhttp & Hstdio);
    [intros k Hk; simpl; now destruct (String.eqb_spec k "secretValue")
    |reflexivity|reflexivity|reflexivity|reflexivity|].
  split; [exact (Hsame http0)|]. split.
  - exact (Hhttp (secret_args "API_KEY" ++ [("secretPath", VStr "/")])%list
             http0 (VObj [("accessToken", VStr "t0ken")]) tt eq_refl eq_refl).
  - exact (Hstdio (secret_args "API_KEY" ++ [("secretPath", VStr "/")])%list
             stdio_authenticated stdio_authenticated eq_refl eq_refl).
Defined.

(** ** The catalogs and the validators *)

Ltac agree_on_keys :=
  let f := fresh "f" in
  intros f; split;
  [ let Hf := fresh "Hf" in
    intros Hf; simpl in Hf;
    repeat (destruct Hf as [<- | Hf]); try contradiction;
    (eexists; split; [simpl; auto 10 | reflexivity])
  | let t := fresh "t" in
    let Hin := fresh "Hin" in
    let Hd := fresh "Hd" in
    intros (t & Hin & Hd); simpl in Hin;
    repeat (destruct Hin as [Hin | Hin]); try contradiction;
    inversion Hin; subst; simpl in Hd; try discriminate Hd;
    simpl; auto 10 ].

Ltac agree_on_tool :=
  let shape := fresh "shape" in
  let Hv := fresh "Hv" in
  intros shape Hv; vm_compute in Hv;
  first
    [ discriminate Hv
    | inversion Hv; subst shape; clear Hv;
      split; [reflexivity | agree_on_keys] ].

(** What a catalog advertises is what the handler enforces, as far as
    keys go: for every tool of either catalog that is validated, the
    advertised properties are the keys of its schema, in the same order,
    and the advertised required keys are exactly the keys whose schema
    refuses an absent value. *)
Theorem catalogs_agree_with_validators :
  (forall (tool : Tool) (shape : z.object),
      In tool Http.tools ->
      Http_validator (name tool) = Some shape ->
      map fst (properties (inputSchema tool)) = map fst shape
      /\ forall f, In f (required (inputSchema tool))
                   <-> exists t, In (f, t) shape /\ demands t = true)
  /\
  (forall (tool : Tool) (shape : z.object),
      In tool Stdio.tools ->
      Stdio_validator (name tool) = Some shape ->
      map fst (properties (inputSchema tool)) = map fst shape
      /\ forall f, In f (required (inputSchema tool))
                   <-> exists t, In (f, t) shape /\ demands t = true).
Proof.
  split; intros tool shape Hin; revert shape; simpl in Hin;
    repeat (destruct Hin as [<- | Hin]); try contradiction; agree_on_tool.
Qed.

Lemma catalogs_agree_witness :
  map fst (properties (inputSchema (Stdio.capability Stdio.createFolderSchema)))
  = map fst (Stdio.zod Stdio.createFolderSchema)
  /\ (In "environment"
         (required (inputSchema (Stdio.capability Stdio.createFolderSchema)))
      <-> exists t,
            In ("environment", t) (Stdio.zod Stdio.createFolderSchema)
            /\ demands t = true).
Proof.
  destruct (proj2 catalogs_agree_with_validators
              (Stdio.capability Stdio.createFolderSchema)
              (Stdio.zod Stdio.createFolderSchema)) as (Hkeys & Hreq).
  - simpl. auto 10.
  - reflexivity.
  - split; [exact Hkeys | exact (Hreq "environment")].
Defined.
